(** * MediaDL backend: job store, admission semaphore, retry tracker,
      progress stream and job deletion

    A shallow embedding of the Python sources

      - [backend/app/services/jobs.py]         (job records in Redis)
      - [backend/app/services/concurrency.py]  (DownloadSemaphore)
      - [backend/app/services/retry.py]        (RetryManager)
      - [backend/app/api/history.py]           (the retry endpoint)
      - [backend/main.py]                      (progress_stream, delete_job_endpoint)
      - [backend/app/services/cleanup.py]      (cleanup_old_jobs, cleanup_by_count)
      - [backend/app/services/download_orchestrator.py] (make_error_callback)

    Python code that reads and writes the shared Redis store, the clock and
    the disk becomes a state-and-exception monad over a [world]. *)

From stdpp Require Import gmap strings list fin_maps.
From Stdlib Require Import ZArith Ascii DecimalString.
From Stdlib Require DecimalPos.

Local Open Scope Z_scope.

(** ** Python values *)

(** A Python [float] that holds a decimal fraction: [mant / 10^scale].
    The progress values of this program are ints or floats rounded to one
    decimal, on which the comparisons of the exact decimal and of the binary
    float agree. Infinities, NaN and the sign of a zero are not
    represented. *)
Record decimal := Dec { mant : Z; scale : nat }.

Inductive pyval :=
  | PNone
  | PStr (s : string)
  | PInt (n : Z)
  | PFloat (d : decimal).

Global Instance decimal_eq_dec : EqDecision decimal.
Proof. solve_decision. Defined.

Global Instance pyval_eq_dec : EqDecision pyval.
Proof. solve_decision. Defined.

(** The exceptions that the modelled code can meet. *)
Inductive exn :=
  | AttributeError   (* attribute lookup on an object that lacks it *)
  | DataError        (* redis-py: a value that cannot be sent to the server *)
  | ValueError
  | TypeError
  | PermissionError  (* a subclass of OSError *)
  | OSError.

Global Instance exn_eq_dec : EqDecision exn.
Proof. solve_decision. Defined.

Inductive result (A : Type) :=
  | Ok (a : A)
  | Raise (e : exn).
Arguments Ok {A} a.
Arguments Raise {A} e.

(** ** The world: Redis, the disk, the clock *)

(** Redis has one key space. The keys of this program are partitioned by
    their names: [job:<id>] are hashes, [jobs:all] and [download:queue] are
    lists, [download:semaphore:active] is a set and
    [download:semaphore:count] is a string that only ever holds an integer
    (it is written by SET 0, INCRBY and DECRBY). Each kind gets its own finite
    map, so WRONGTYPE replies do not arise. Redis drops an aggregate when it
    becomes empty: an empty hash, list or set in a map stands for an absent
    key. [ttls] records for a key the deadline (in seconds) set by EXPIRE; the
    removal of a key at its deadline is an action of the store's environment
    and is not part of any modelled call. *)
Record redis_db := RedisDb {
  hashes : gmap string (gmap string string);
  lists : gmap string (list string);
  sets : gmap string (gset string);
  ints : gmap string Z;
  ttls : gmap string Z
}.

(** The disk as [os.path] sees it on a POSIX system without symbolic links:
    the normalised absolute paths of the regular files and of the
    directories (the root is always one), the regular files that the
    process is not allowed to remove, and the working directory. *)
Record filesystem := FileSystem {
  cwd : string;
  files : gset string;
  dirs : gset string;
  locked : gset string
}.

(** What a progress stream yields to its client.
    [EvProgress p None] is the text [data:<str(round(p, 1))>],
    [EvProgress p (Some f)] is [data:<str(round(p, 1))>|<f>] and
    [EvError m] is [data:ERROR:<m>], each followed by an empty line. *)
Inductive event :=
  | EvProgress (percent : decimal) (file_name : option string)
  | EvError (message : string).

Global Instance event_eq_dec : EqDecision event.
Proof. solve_decision. Defined.

(** [clock] is the reading of [time.time()], in milliseconds; [stdout] holds
    the lines printed so far and [sent] the events yielded so far to the
    client of a progress stream. *)
Record world := World {
  store : redis_db;
  disk : filesystem;
  clock : Z;
  stdout : list string;
  sent : list event
}.

Definition set_store (f : redis_db → redis_db) (w : world) : world :=
  World (f (store w)) (disk w) (clock w) (stdout w) (sent w).
Definition set_disk (f : filesystem → filesystem) (w : world) : world :=
  World (store w) (f (disk w)) (clock w) (stdout w) (sent w).
Definition set_clock (f : Z → Z) (w : world) : world :=
  World (store w) (disk w) (f (clock w)) (stdout w) (sent w).
Definition set_stdout (f : list string → list string) (w : world) : world :=
  World (store w) (disk w) (clock w) (f (stdout w)) (sent w).
Definition set_sent (f : list event → list event) (w : world) : world :=
  World (store w) (disk w) (clock w) (stdout w) (f (sent w)).

Definition set_hashes (f : gmap string (gmap string string) → gmap string (gmap string string))
    (r : redis_db) : redis_db :=
  RedisDb (f (hashes r)) (lists r) (sets r) (ints r) (ttls r).
Definition set_lists (f : gmap string (list string) → gmap string (list string))
    (r : redis_db) : redis_db :=
  RedisDb (hashes r) (f (lists r)) (sets r) (ints r) (ttls r).
Definition set_sets (f : gmap string (gset string) → gmap string (gset string))
    (r : redis_db) : redis_db :=
  RedisDb (hashes r) (lists r) (f (sets r)) (ints r) (ttls r).
Definition set_ints (f : gmap string Z → gmap string Z) (r : redis_db) : redis_db :=
  RedisDb (hashes r) (lists r) (sets r) (f (ints r)) (ttls r).
Definition set_ttls (f : gmap string Z → gmap string Z) (r : redis_db) : redis_db :=
  RedisDb (hashes r) (lists r) (sets r) (ints r) (f (ttls r)).

(** ** The monad of Python code: state and exceptions *)

Definition M (A : Type) : Type := world → result A * world.

Definition ret {A} (a : A) : M A := λ w, (Ok a, w).
Definition raise {A} (e : exn) : M A := λ w, (Raise e, w).
Definition bind {A B} (m : M A) (k : A → M B) : M B :=
  λ w, match m w with
       | (Ok a, w') => k a w'
       | (Raise e, w') => (Raise e, w')
       end.

(** [try: m except Exception: h] *)
Definition try_except {A} (m : M A) (h : exn → M A) : M A :=
  λ w, match m w with
       | (Ok a, w') => (Ok a, w')
       | (Raise e, w') => h e w'
       end.

Definition gets {A} (f : world → A) : M A := λ w, (Ok (f w), w).
Definition modify (f : world → world) : M unit := λ w, (Ok tt, f w).

(** [print(line)] and, in a generator, [yield] of an event. *)
Definition print (line : string) : M unit := modify (set_stdout (λ l, l ++ [line])).
Definition yield (e : event) : M unit := modify (set_sent (λ l, l ++ [e])).

Declare Scope py_scope.
Delimit Scope py_scope with py.
Notation "x <- m ;; k" := (bind m (λ x, k))
  (at level 100, m at next level, right associativity) : py_scope.
Notation "m ;; k" := (bind m (λ _, k))
  (at level 100, right associativity) : py_scope.
Local Open Scope py_scope.

(** The value and the final world of a run. *)
Definition outcome {A} (m : M A) (w : world) : result A := fst (m w).
Definition after {A} (m : M A) (w : world) : world := snd (m w).

Definition lift {A} (r : result A) : M A := λ w, (r, w).

(** ** Text and numbers: [str], [int], [float] *)

(** [str(n)] for an int. *)
Definition str_of_int (n : Z) : string := NilZero.string_of_int (Z.to_int n).

Definition is_digit (c : ascii) : bool :=
  let n := Ascii.N_of_ascii c in ((48 <=? n) && (n <=? 57))%N.

Definition digit_val (c : ascii) : Z := Z.of_N (Ascii.N_of_ascii c) - 48.

(** The blanks that [str.strip] removes, in ASCII: space, \t, \n, \v, \f, \r. *)
Definition is_blank (c : ascii) : bool :=
  let n := Ascii.N_of_ascii c in ((n =? 32) || ((9 <=? n) && (n <=? 13)))%N.

Fixpoint lstrip (cs : list ascii) : list ascii :=
  match cs with
  | c :: cs' => if is_blank c then lstrip cs' else cs
  | [] => []
  end.

Definition strip (cs : list ascii) : list ascii :=
  rev (lstrip (rev (lstrip cs))).

Fixpoint digits_val (acc : Z) (cs : list ascii) : option Z :=
  match cs with
  | [] => Some acc
  | c :: cs' => if is_digit c then digits_val (10 * acc + digit_val c) cs' else None
  end.

Definition unsigned_int (cs : list ascii) : option Z :=
  match cs with
  | [] => None
  | _ => digits_val 0 cs
  end.

Definition with_sign {A} (neg : A → A) (p : list ascii → option A)
    (cs : list ascii) : option A :=
  match cs with
  | "-"%char :: cs' => neg <$> p cs'
  | "+"%char :: cs' => p cs'
  | _ => p cs
  end.

(** [int(s)] for a str, on decimal literals: blanks around, a sign, digits.
    [None] stands for ValueError. *)
Definition int_of_text (s : string) : option Z :=
  with_sign Z.opp unsigned_int (strip (String.list_ascii_of_string s)).

Fixpoint span_digits (cs : list ascii) : list ascii * list ascii :=
  match cs with
  | c :: cs' =>
      if is_digit c then let '(ds, rest) := span_digits cs' in (c :: ds, rest)
      else ([], cs)
  | [] => ([], [])
  end.

(** Trailing zeros of the fraction are dropped, so that equal decimals have
    equal representations. *)
Fixpoint dnorm_go (k : nat) (m : Z) : decimal :=
  match k with
  | O => Dec m 0
  | S k' => if m mod 10 =? 0 then dnorm_go k' (m / 10) else Dec m k
  end.

Definition dnorm (d : decimal) : decimal := dnorm_go (scale d) (mant d).

Definition dec_of_int (n : Z) : decimal := Dec n 0.

Definition dec_opp (d : decimal) : decimal := Dec (- mant d) (scale d).

Definition unsigned_decimal (cs : list ascii) : option decimal :=
  let '(ip, rest) := span_digits cs in
  match rest with
  | [] => if bool_decide (ip = []) then None
          else (λ m, Dec m 0) <$> digits_val 0 ip
  | "."%char :: fr =>
      let '(fp, rest') := span_digits fr in
      match rest' with
      | [] => if bool_decide (ip = [] ∧ fp = []) then None
              else (λ m, dnorm (Dec m (length fp))) <$> digits_val 0 (ip ++ fp)
      | _ => None
      end
  | _ => None
  end.

(** [float(s)] for a str, on decimal literals without exponent: blanks
    around, a sign, digits with an optional point. [None] stands for
    ValueError. *)
Definition float_of_text (s : string) : option decimal :=
  with_sign dec_opp unsigned_decimal (strip (String.list_ascii_of_string s)).

(** Comparisons of decimals, by cross multiplication. *)
Definition dec_cmp (a b : decimal) : comparison :=
  (mant a * 10 ^ Z.of_nat (scale b) ?= mant b * 10 ^ Z.of_nat (scale a)).

Definition dec_eqb (a b : decimal) : bool :=
  match dec_cmp a b with Eq => true | _ => false end.
Definition dec_geb (a b : decimal) : bool :=
  match dec_cmp a b with Lt => false | _ => true end.

Fixpoint zeros (k : nat) : string :=
  match k with
  | O => ""
  | S k' => "0" +:+ zeros k'
  end.

(** [repr(x)] for a float that holds the decimal [d]. *)
Definition repr_of_float (d : decimal) : string :=
  let d := dnorm d in
  let m := Z.abs (mant d) in
  let p := 10 ^ Z.of_nat (scale d) in
  let fr := str_of_int (m mod p) in
  (if mant d <? 0 then "-" else "") +:+ str_of_int (m / p) +:+ "." +:+
  (match scale d with
   | O => "0"
   | S _ => zeros (scale d - String.length fr) +:+ fr
   end).

(** [str(v)], as an f-string formats it. *)
Definition py_str (v : pyval) : string :=
  match v with
  | PNone => "None"
  | PStr s => s
  | PInt n => str_of_int n
  | PFloat d => repr_of_float d
  end.

(** [bool(v)] *)
Definition truthy (v : pyval) : bool :=
  match v with
  | PNone => false
  | PStr s => negb (String.eqb s "")
  | PInt n => negb (n =? 0)
  | PFloat d => negb (mant d =? 0)
  end.

(** [int(v)] *)
Definition py_int (v : pyval) : result Z :=
  match v with
  | PNone => Raise TypeError
  | PStr s => match int_of_text s with Some n => Ok n | None => Raise ValueError end
  | PInt n => Ok n
  | PFloat d => Ok (Z.quot (mant d) (10 ^ Z.of_nat (scale d)))
  end.

(** [float(v)] *)
Definition py_float (v : pyval) : result decimal :=
  match v with
  | PNone => Raise TypeError
  | PStr s => match float_of_text s with Some d => Ok d | None => Raise ValueError end
  | PInt n => Ok (dec_of_int n)
  | PFloat d => Ok d
  end.

(** [a == b] on Python values: numbers compare by value, a str only equals
    a str, None only None. *)
Definition py_eqb (a b : pyval) : bool :=
  match a, b with
  | PNone, PNone => true
  | PStr s, PStr t => String.eqb s t
  | PInt n, PInt m => n =? m
  | PInt n, PFloat d | PFloat d, PInt n => dec_eqb (dec_of_int n) d
  | PFloat d, PFloat e => dec_eqb d e
  | _, _ => false
  end.

(** What redis-py's encoder sends for a value: str as it is, [repr] of a
    number; None is refused with DataError before anything is sent. *)
Definition redis_encode (v : pyval) : result string :=
  match v with
  | PNone => Raise DataError
  | _ => Ok (py_str v)
  end.

(** A Python dict with str keys. *)
Abbreviation pydict := (gmap string pyval).

(** [d.get(k)] and [d.get(k, dflt)] *)
Definition dict_get (d : pydict) (k : string) : pyval := default PNone (d !! k).
Definition dict_get_or (d : pydict) (k : string) (dflt : pyval) : pyval :=
  default dflt (d !! k).

(** [a or b] *)
Definition py_or (a b : pyval) : pyval := if truthy a then a else b.

(** [bool(d)] for a value that is a dict or None: the empty dict and None
    are false. *)
Definition dict_truthy (d : option pydict) : bool :=
  match d with
  | Some d => negb (bool_decide (d = ∅))
  | None => false
  end.

(** [l[k:]] *)
Definition slice_from {A} (k : Z) (l : list A) : list A :=
  if k <? 0 then drop (Z.to_nat (Z.max 0 (Z.of_nat (length l) + k))) l
  else drop (Z.to_nat k) l.

(** ** app/config.py *)

Record config := Config {
  DOWNLOAD_DIR : string;
  MAX_CONCURRENT_DOWNLOADS : Z;
  MAX_QUEUE_SIZE : Z;
  MAX_RETRIES : Z
}.

(** What [Config.validate] accepts of these settings. *)
Definition validate (cfg : config) : bool :=
  (1 <=? MAX_CONCURRENT_DOWNLOADS cfg) && (MAX_CONCURRENT_DOWNLOADS cfg <=? 10)
  && (0 <=? MAX_RETRIES cfg).

(** ** time *)

Module time.
(** [time.time()], in milliseconds. *)
Definition time : M Z := gets clock.
(** [int(time.time())]: whole seconds. *)
Definition int_time : M Z := gets (λ w, Z.quot (clock w) 1000).
(** [time.sleep(ms / 1000)] *)
Definition sleep (ms : Z) : M unit := modify (set_clock (λ t, t + ms)).
End time.

(** ** The Redis client (redis-py) *)

Module redis.

Definition hash_at (r : redis_db) (name : string) : gmap string string :=
  default ∅ (hashes r !! name).
Definition list_at (r : redis_db) (name : string) : list string :=
  default [] (lists r !! name).
Definition set_at (r : redis_db) (name : string) : gset string :=
  default ∅ (sets r !! name).
Definition int_at (r : redis_db) (name : string) : Z :=
  default 0 (ints r !! name).

Definition key_exists (r : redis_db) (name : string) : bool :=
  bool_decide (hash_at r name ≠ ∅) || bool_decide (list_at r name ≠ [])
  || bool_decide (set_at r name ≠ ∅) || bool_decide (is_Some (ints r !! name)).

Definition drop_key (name : string) (r : redis_db) : redis_db :=
  RedisDb (delete name (hashes r)) (delete name (lists r))
          (delete name (sets r)) (delete name (ints r)) (delete name (ttls r)).

(** INCRBY: an absent key counts as 0; the new value is returned. *)
Definition incr (name : string) (amount : Z) : M Z :=
  λ w, let n := int_at (store w) name + amount in
       (Ok n, set_store (set_ints <[name := n]>) w).

(** DECRBY *)
Definition decr (name : string) (amount : Z) : M Z :=
  λ w, let n := int_at (store w) name - amount in
       (Ok n, set_store (set_ints <[name := n]>) w).

(** SET of an integer value: replaces the key whatever it held and clears
    its deadline. *)
Definition set_ (name : string) (value : Z) : M unit :=
  modify (set_store (λ r, set_ints <[name := value]> (drop_key name r))).

(** DEL: the number of keys removed. *)
Definition delete (name : string) : M Z :=
  λ w, ((Ok (if key_exists (store w) name then 1 else 0)),
        set_store (drop_key name) w).

(** EXISTS: the number of keys that exist. *)
Definition exists_ (name : string) : M Z :=
  gets (λ w, if key_exists (store w) name then 1 else 0).

(** EXPIRE: sets the deadline of an existing key. *)
Definition expire (name : string) (seconds : Z) : M bool :=
  λ w, if key_exists (store w) name
       then (Ok true,
             set_store (set_ttls <[name := Z.quot (clock w) 1000 + seconds]>) w)
       else (Ok false, w).

(** SADD and SREM of one member: the number of members added or removed. *)
Definition sadd (name : string) (value : string) : M Z :=
  λ w, let s := set_at (store w) name in
       (Ok (if bool_decide (value ∈ s) then 0 else 1),
        set_store (set_sets <[name := {[value]} ∪ s]>) w).

Definition srem (name : string) (value : string) : M Z :=
  λ w, let s := set_at (store w) name in
       (Ok (if bool_decide (value ∈ s) then 1 else 0),
        set_store (set_sets <[name := s ∖ {[value]}]>) w).

Fixpoint remove_first (n : nat) (value : string) (l : list string) : list string :=
  match n, l with
  | O, _ => l
  | _, [] => []
  | S n', x :: l' =>
      if bool_decide (x = value) then remove_first n' value l'
      else x :: remove_first n value l'
  end.

(** LREM: [count = 0] removes every occurrence, [count > 0] the first
    [count] from the head, [count < 0] the first [-count] from the tail. *)
Definition lrem_list (count : Z) (value : string) (l : list string) : list string :=
  if count =? 0 then filter (λ x, x ≠ value) l
  else if 0 <? count then remove_first (Z.to_nat count) value l
  else rev (remove_first (Z.to_nat (- count)) value (rev l)).

Definition lrem (name : string) (count : Z) (value : string) : M Z :=
  λ w, let l := list_at (store w) name in
       let l' := lrem_list count value l in
       (Ok (Z.of_nat (length l) - Z.of_nat (length l')),
        set_store (set_lists <[name := l']>) w).

(** RPUSH and LPUSH of one value: the new length. *)
Definition rpush (name : string) (value : pyval) : M Z :=
  v <- lift (redis_encode value) ;;
  λ w, let l := list_at (store w) name ++ [v] in
       (Ok (Z.of_nat (length l)), set_store (set_lists <[name := l]>) w).

Definition lpush (name : string) (value : pyval) : M Z :=
  v <- lift (redis_encode value) ;;
  λ w, let l := v :: list_at (store w) name in
       (Ok (Z.of_nat (length l)), set_store (set_lists <[name := l]>) w).

(** The command arguments are encoded before anything is sent: one None
    among the values and the whole call raises DataError. *)
Definition encode_mapping (mapping : pydict) : result (gmap string string) :=
  if bool_decide (map_Forall (λ _ v, v ≠ PNone) mapping)
  then Ok (py_str <$> mapping)
  else Raise DataError.

(** HSET with [mapping=]: the number of fields that were added. *)
Definition hset (name : string) (mapping : pydict) : M Z :=
  m <- lift (encode_mapping mapping) ;;
  λ w, let h := hash_at (store w) name in
       (Ok (Z.of_nat (size (m ∖ h))),
        set_store (set_hashes <[name := m ∪ h]>) w).

(** HGETALL: the empty dict for an absent key. *)
Definition hgetall (name : string) : M (gmap string string) :=
  gets (λ w, hash_at (store w) name).

(** GET of a key that holds an integer: its text; None for an absent key. *)
Definition get (name : string) : M pyval :=
  gets (λ w, match ints (store w) !! name with
             | Some n => PStr (str_of_int n)
             | None => PNone
             end).

(** LRANGE: both ends are inclusive and an index below 0 counts from the
    tail. *)
Definition lrange_list (start stop : Z) (l : list string) : list string :=
  let len := Z.of_nat (length l) in
  let start := if start <? 0 then Z.max 0 (len + start) else start in
  let stop := if stop <? 0 then len + stop else stop in
  let stop := Z.min stop (len - 1) in
  if stop <? start then []
  else take (Z.to_nat (stop - start + 1)) (drop (Z.to_nat start) l).

Definition lrange (name : string) (start stop : Z) : M (list string) :=
  gets (λ w, lrange_list start stop (list_at (store w) name)).

(** LLEN *)
Definition llen (name : string) : M Z :=
  gets (λ w, Z.of_nat (length (list_at (store w) name))).

(** SMEMBERS *)
Definition smembers (name : string) : M (gset string) :=
  gets (λ w, set_at (store w) name).

(** The client classes of redis-py and fakeredis define no method
    [lfrompop] (Redis has no such command) and no fallback for unknown
    attributes: evaluating [redis.lfrompop] raises AttributeError before
    any argument is looked at. *)
Definition lfrompop (name : string) (count numtoremove : Z) : M pyval :=
  raise AttributeError.

End redis.

(** ** app/services/jobs.py *)

Definition JOB_PREFIX : string := "job:".
Definition JOBS_LIST_KEY : string := "jobs:all".
Definition JOB_EXPIRY_SECONDS : Z := 86400.

(** The dict [defaults] of [create_job]. *)
Definition job_defaults (created_at updated_at : Z) : pydict :=
  list_to_map [
    ("created_at", PInt created_at);
    ("updated_at", PInt updated_at);
    ("status", PStr "queued");
    ("progress", PFloat (Dec 0 0));
    ("file_name", PStr "");
    ("file_path", PStr "");
    ("error", PStr "");
    ("retry_count", PInt 0);
    ("parent_job_id", PStr "");
    ("child_job_id", PStr "")].

Definition create_job (job_data : pydict) : M pyval :=
  match job_data !! "job_id" with
  | None => raise ValueError
  | Some job_id =>
      created_at <- time.int_time ;;
      updated_at <- time.int_time ;;
      let defaults := job_defaults created_at updated_at in
      let final_data : pydict := job_data ∪ defaults in
      redis.hset (JOB_PREFIX +:+ py_str job_id) final_data ;;
      redis.lpush JOBS_LIST_KEY job_id ;;
      redis.expire (JOB_PREFIX +:+ py_str job_id) JOB_EXPIRY_SECONDS ;;
      ret job_id
  end.

Definition numeric_fields : list string :=
  ["progress"; "created_at"; "updated_at"; "retry_count"].

(** One round of the conversion loop of [get_job]: a field that does not
    convert keeps its text. *)
Definition convert_field (job_data : pydict) (field : string) : pydict :=
  match job_data !! field with
  | None => job_data
  | Some v =>
      let converted :=
        if String.eqb field "progress" then
          match py_float v with Ok d => Ok (PFloat d) | Raise e => Raise e end
        else
          match py_int v with Ok n => Ok (PInt n) | Raise e => Raise e end in
      match converted with
      | Ok v' => <[field := v']> job_data
      | Raise _ => job_data
      end
  end.

Definition get_job (job_id : string) : M (option pydict) :=
  job_data <- redis.hgetall (JOB_PREFIX +:+ job_id) ;;
  if bool_decide (job_data = ∅) then ret None
  else ret (Some (foldl convert_field (PStr <$> job_data) numeric_fields)).

Definition update_job (job_id : string) (updates : pydict) : M bool :=
  e <- redis.exists_ (JOB_PREFIX +:+ job_id) ;;
  if e =? 0 then ret false
  else
    now <- time.int_time ;;
    let updates := <["updated_at" := PInt now]> updates in
    redis.hset (JOB_PREFIX +:+ job_id) updates ;;
    redis.expire (JOB_PREFIX +:+ job_id) JOB_EXPIRY_SECONDS ;;
    ret true.

Definition delete_job (job_id : string) : M bool :=
  result <- redis.delete (JOB_PREFIX +:+ job_id) ;;
  redis.lrem JOBS_LIST_KEY 0 job_id ;;
  ret (0 <? result).

(** ** app/services/concurrency.py *)

Module DownloadSemaphore.

Definition SEMAPHORE_KEY : string := "download:semaphore".
Definition QUEUE_KEY : string := "download:queue".
Definition count_key : string := SEMAPHORE_KEY +:+ ":count".
Definition active_key : string := SEMAPHORE_KEY +:+ ":active".

(** One round of the [while True] loop of [acquire]: [Some b] is
    [return b], [None] is the end of the round (the loop goes on). *)
Definition acquire_round (cfg : config) (job_id : string) (timeout_seconds : Z)
    (start_time : Z) : M (option bool) :=
  count <- redis.incr count_key 1 ;;
  if count <=? MAX_CONCURRENT_DOWNLOADS cfg then
    redis.sadd active_key job_id ;;
    redis.lrem QUEUE_KEY 0 job_id ;;
    ret (Some true)
  else
    redis.decr count_key 1 ;;
    queued <- redis.lfrompop QUEUE_KEY 1 0 ;;
    (if negb (truthy queued)
     then (redis.rpush QUEUE_KEY (PStr job_id) ;; ret tt)
     else ret tt) ;;
    now <- time.time ;;
    if timeout_seconds * 1000 <? now - start_time then ret (Some false)
    else (time.sleep 1000 ;; ret None).

(** The loop, for at most [fuel] rounds; [None] when the rounds are used
    up and the loop would go on. *)
Fixpoint acquire_loop (fuel : nat) (cfg : config) (job_id : string)
    (timeout_seconds : Z) (start_time : Z) : M (option bool) :=
  match fuel with
  | O => ret None
  | S fuel' =>
      r <- acquire_round cfg job_id timeout_seconds start_time ;;
      match r with
      | Some b => ret (Some b)
      | None => acquire_loop fuel' cfg job_id timeout_seconds start_time
      end
  end.

Definition acquire (fuel : nat) (cfg : config) (job_id : string)
    (timeout_seconds : Z) : M (option bool) :=
  start_time <- time.time ;;
  acquire_loop fuel cfg job_id timeout_seconds start_time.

Definition release (job_id : string) : M unit :=
  redis.srem active_key job_id ;;
  count <- redis.decr count_key 1 ;;
  if count <? 0 then redis.set_ count_key 0 else ret tt.

Definition reset : M unit :=
  redis.delete count_key ;;
  redis.delete active_key ;;
  redis.delete QUEUE_KEY ;;
  redis.set_ count_key 0.

(** The ledger, read off the store. *)
Definition active_count (w : world) : Z := redis.int_at (store w) count_key.
Definition active_set (w : world) : gset string := redis.set_at (store w) active_key.
Definition queue (w : world) : list string := redis.list_at (store w) QUEUE_KEY.

(** The dict that [get_status] returns. [active_jobs] is [list] of a set:
    its members, in an order that is not specified. *)
Record status := Status {
  active : Z;
  max : Z;
  available_slots : Z;
  queued : Z;
  active_jobs : gset string;
  queued_jobs : list string
}.

Definition get_status (cfg : config) : M status :=
  count <- redis.get count_key ;;
  active_count <- lift (py_int (py_or count (PInt 0))) ;;
  let active_count := Z.max 0 active_count in
  active_jobs <- redis.smembers active_key ;;
  queued_jobs <- redis.lrange QUEUE_KEY 0 (-1) ;;
  ret (Status active_count
              (MAX_CONCURRENT_DOWNLOADS cfg)
              (Z.max 0 (MAX_CONCURRENT_DOWNLOADS cfg - active_count))
              (Z.of_nat (length queued_jobs))
              active_jobs
              queued_jobs).


End DownloadSemaphore.

(** ** app/services/retry.py *)

Module RetryManager.

(** [new_params.get(k) if new_params else original_job.get(k)] *)
Definition param (new_params : option pydict) (original_job : pydict)
    (k : string) : pyval :=
  match new_params with
  | Some p => if bool_decide (p = ∅) then dict_get original_job k else dict_get p k
  | None => dict_get original_job k
  end.

(** The dict [job_data] of [create_retry_job]. *)
Definition retry_job_data (new_job_id original_job_id : string)
    (new_params : option pydict) (original_job : pydict) (retry_count : Z) : pydict :=
  list_to_map [
    ("job_id", PStr new_job_id);
    ("url", param new_params original_job "url");
    ("platform", param new_params original_job "platform");
    ("type", param new_params original_job "type");
    ("format", param new_params original_job "format");
    ("quality", param new_params original_job "quality");
    ("status", PStr "queued");
    ("progress", PInt 0);
    ("retry_count", PInt (retry_count + 1));
    ("parent_job_id", PStr original_job_id);
    ("file_name", PStr "");
    ("file_path", PStr "");
    ("error", PStr "")].

(** [uuid4] is the text of the identifier that [uuid.uuid4()] draws. *)
Definition create_retry_job (cfg : config) (uuid4 : string)
    (original_job_id : string) (new_params : option pydict) : M (option string) :=
  original_job <- get_job original_job_id ;;
  match original_job with
  | None => ret None
  | Some original_job =>
      retry_count <- lift (py_int (dict_get_or original_job "retry_count" (PInt 0))) ;;
      if MAX_RETRIES cfg <=? retry_count then ret None
      else
        let new_job_id := uuid4 in
        let job_data :=
          retry_job_data new_job_id original_job_id new_params original_job
                         retry_count in
        create_job job_data ;;
        update_job original_job_id {[ "child_job_id" := PStr new_job_id ]} ;;
        ret (Some new_job_id)
  end.

Definition can_retry (cfg : config) (job_id : string) : M bool :=
  job <- get_job job_id ;;
  match job with
  | None => ret false
  | Some job =>
      let status := dict_get job "status" in
      if negb (py_eqb status (PStr "error") || py_eqb status (PStr "cancelled"))
      then ret false
      else
        retry_count <- lift (py_int (dict_get_or job "retry_count" (PInt 0))) ;;
        if MAX_RETRIES cfg <=? retry_count then ret false
        else ret true
  end.

(** The two [while] loops of [get_retry_chain], for at most [fuel] rounds
    each; [None] when the rounds are used up and the loop would go on. *)
Fixpoint trace_backwards (fuel : nat) (chain : list pyval)
    (current_job : option pydict) : M (option (list pyval)) :=
  if dict_truthy current_job
     && truthy (dict_get (default ∅ current_job) "parent_job_id")
  then
    match fuel with
    | O => ret None
    | S fuel' =>
        let parent_id := dict_get (default ∅ current_job) "parent_job_id" in
        current_job <- get_job (py_str parent_id) ;;
        trace_backwards fuel' (parent_id :: chain) current_job
    end
  else ret (Some chain).

Fixpoint trace_forwards (fuel : nat) (chain : list pyval)
    (latest : option pydict) : M (option (list pyval)) :=
  if dict_truthy latest
     && truthy (dict_get (default ∅ latest) "child_job_id")
  then
    match fuel with
    | O => ret None
    | S fuel' =>
        let child_id := dict_get (default ∅ latest) "child_job_id" in
        latest <- get_job (py_str child_id) ;;
        trace_forwards fuel' (chain ++ [child_id]) latest
    end
  else ret (Some chain).

Definition get_retry_chain (fuel : nat) (job_id : string)
    : M (option (list pyval)) :=
  current_job <- get_job job_id ;;
  chain <- trace_backwards fuel [PStr job_id] current_job ;;
  match chain with
  | None => ret None
  | Some chain =>
      latest <- get_job job_id ;;
      trace_forwards fuel chain latest
  end.

(** The dict that [get_retry_info] returns for a job that exists. *)
Record retry_info := RetryInfo {
  info_job_id : string;
  info_retry_count : Z;
  info_max_retries : Z;
  info_retries_remaining : Z;
  info_can_retry : bool;
  info_parent_job_id : pyval;
  info_child_job_id : pyval
}.

(** [None] stands for the empty dict. *)
Definition get_retry_info (cfg : config) (job_id : string) : M (option retry_info) :=
  job <- get_job job_id ;;
  if negb (dict_truthy job) then ret None
  else
    let job := default ∅ job in
    retry_count <- lift (py_int (dict_get_or job "retry_count" (PInt 0))) ;;
    can_retry <- can_retry cfg job_id ;;
    ret (Some (RetryInfo job_id
                         retry_count
                         (MAX_RETRIES cfg)
                         (Z.max 0 (MAX_RETRIES cfg - retry_count))
                         can_retry
                         (dict_get job "parent_job_id")
                         (dict_get job "child_job_id"))).


End RetryManager.

(** ** app/api/history.py: POST /{job_id}/retry *)

Inductive retry_response :=
  | RetryRefused (error : string)
  | RetryQueued (job_id original_job_id : string).

Definition retry_job (cfg : config) (uuid4 : string) (job_id : string) : M retry_response :=
  ok <- RetryManager.can_retry cfg job_id ;;
  if negb ok then ret (RetryRefused "Job cannot be retried")
  else
    new_job_id <- RetryManager.create_retry_job cfg uuid4 job_id None ;;
    match new_job_id with
    | None => ret (RetryRefused "Failed to create retry job")
    | Some new_job_id =>
        if String.eqb new_job_id "" then ret (RetryRefused "Failed to create retry job")
        else ret (RetryQueued new_job_id job_id)
    end.

(** ** os and os.path (posixpath) *)

Module os.

Fixpoint split_on (sep : ascii) (s : string) : list string :=
  match s with
  | EmptyString => [""]
  | String c s' =>
      if Ascii.eqb c sep then "" :: split_on sep s'
      else match split_on sep s' with
           | x :: xs => String c x :: xs
           | [] => [String c ""]
           end
  end.

Definition isabs (path : string) : bool := String.prefix "/" path.

Fixpoint endswith_slash (s : string) : bool :=
  match s with
  | EmptyString => false
  | String c EmptyString => Ascii.eqb c "/"
  | String _ s' => endswith_slash s'
  end.

(** [os.path.join(a, b)] *)
Definition join (a b : string) : string :=
  if isabs b then b
  else if String.eqb a "" || endswith_slash a then a +:+ b
  else a +:+ "/" +:+ b.

(** The loop of [normpath] over the components. *)
Definition norm_step (initial_slashes : nat) (new_comps : list string)
    (comp : string) : list string :=
  if String.eqb comp "" || String.eqb comp "." then new_comps
  else if negb (String.eqb comp "..")
          || (bool_decide (initial_slashes = O) && bool_decide (new_comps = []))
          || bool_decide (last new_comps = Some "..")
  then new_comps ++ [comp]
  else removelast new_comps.

Definition normpath (path : string) : string :=
  if String.eqb path "" then "."
  else
    let initial_slashes : nat :=
      if String.prefix "/" path then
        if String.prefix "//" path && negb (String.prefix "///" path)
        then 2%nat else 1%nat
      else 0%nat in
    let comps := foldl (norm_step initial_slashes) [] (split_on "/" path) in
    let path := String.concat "/" comps in
    let path := match initial_slashes with
                | O => path
                | S O => "/" +:+ path
                | _ => "//" +:+ path
                end in
    if String.eqb path "" then "." else path.

(** [os.path.abspath(path)], on a disk and as a call *)
Definition abspath_on (fs : filesystem) (path : string) : string :=
  normpath (if isabs path then path else join (cwd fs) path).

Definition abspath (path : string) : M string :=
  gets (λ w, abspath_on (disk w) path).

(** The name of the node reached through the directories [stack]. *)
Definition path_of (stack : list string) : string :=
  "/" +:+ String.concat "/" stack.

Definition is_dir (fs : filesystem) (stack : list string) : bool :=
  bool_decide (stack = []) || bool_decide (path_of stack ∈ dirs fs).
Definition is_file (fs : filesystem) (stack : list string) : bool :=
  bool_decide (path_of stack ∈ files fs).

(** How the system walks a path: every component but the last has to be
    a directory. *)
Fixpoint walk (fs : filesystem) (stack : list string) (comps : list string)
    : option (list string) :=
  match comps with
  | [] => Some stack
  | comp :: rest =>
      if String.eqb comp "" || String.eqb comp "." then walk fs stack rest
      else if String.eqb comp ".." then walk fs (removelast stack) rest
      else
        let stack' := stack ++ [comp] in
        if is_dir fs stack' then walk fs stack' rest
        else if is_file fs stack' && bool_decide (rest = []) then Some stack'
        else None
  end.

Definition resolve (fs : filesystem) (path : string) : option (list string) :=
  if String.eqb path "" then None
  else walk fs [] (split_on "/" (if isabs path then path else join (cwd fs) path)).

Definition exists_ (path : string) : M bool :=
  gets (λ w, bool_decide (is_Some (resolve (disk w) path))).

Definition isfile (path : string) : M bool :=
  gets (λ w, match resolve (disk w) path with
             | Some stack => is_file (disk w) stack
             | None => false
             end).

Definition unlink (p : string) (fs : filesystem) : filesystem :=
  FileSystem (cwd fs) (files fs ∖ {[p]}) (dirs fs) (locked fs).

(** [os.remove(path)] *)
Definition remove (path : string) : M unit :=
  λ w, match resolve (disk w) path with
       | Some stack =>
           if is_file (disk w) stack then
             if bool_decide (path_of stack ∈ locked (disk w))
             then (Raise PermissionError, w)
             else (Ok tt, set_disk (unlink (path_of stack)) w)
           else (Raise OSError, w)
       | None => (Raise OSError, w)
       end.

(** [os.path.basename(path)]: what follows the last slash. *)
Definition basename (path : string) : string :=
  default "" (last (split_on "/" path)).


End os.

(** ** app/services/jobs.py: safe_delete_file *)

(** The line printed for an OSError ends with the text of the exception,
    which is left out here. *)

Definition safe_delete_file (cfg : config) (file_path : string) : M bool :=
  try_except
    (there <- os.exists_ file_path ;;
     if String.eqb file_path "" || negb there then ret true
     else
       abs_file_path <- os.abspath file_path ;;
       abs_downloads_dir <- os.abspath (DOWNLOAD_DIR cfg) ;;
       if negb (String.prefix abs_downloads_dir abs_file_path) then
         print ("Security: Blocked delete outside downloads dir: " +:+ file_path) ;;
         ret false
       else
         regular <- os.isfile abs_file_path ;;
         if negb regular then ret false
         else (os.remove abs_file_path ;; ret true))
    (λ e, match e with
          | PermissionError =>
              print ("Permission denied deleting " +:+ file_path) ;; ret false
          | OSError =>
              print ("Error deleting " +:+ file_path) ;; ret false
          | _ => raise e
          end).

(** ** main.py: DELETE /api/job/{job_id} *)

Inductive delete_response :=
  | DeleteRefused (error : string)
  | Deleted (job_id : string).

Definition delete_job_endpoint (cfg : config) (job_id : string) : M delete_response :=
  try_except
    (job <- get_job job_id ;;
     match job with
     | None => ret (DeleteRefused "Job not found")
     | Some job =>
         if py_eqb (dict_get job "status") (PStr "running")
         then ret (DeleteRefused "Cannot delete a running job")
         else
           let file_path := dict_get job "file_path" in
           (if truthy file_path
            then (safe_delete_file cfg (py_str file_path) ;; ret tt)
            else ret tt) ;;
           delete_job job_id ;;
           ret (Deleted job_id)
     end)
    (λ _, ret (DeleteRefused "Internal error")).

(** ** main.py: GET /progress/{job_id} *)

Module progress_stream.

Definition max_duration_seconds : Z := 600.
(** [poll_interval = 0.3] seconds *)
Definition poll_interval_ms : Z := 300.
(** [int(max_duration_seconds / poll_interval)] *)
Definition max_iterations : Z := 2000.

(** The [while iteration < max_iterations] loop of the generator
    [event_stream]. [remaining] is [max_iterations - iteration]; the result
    is the value of [iteration] when the loop is left, by [break] or by its
    condition. [others i] is what the other workers do to the store while
    the [i]-th round sleeps. The client is taken to read the stream to its
    end (it does not disconnect). *)
Fixpoint event_loop (remaining : nat) (others : Z → redis_db → redis_db)
    (job_id : string) (iteration : Z) (last_progress : decimal) : M Z :=
  match remaining with
  | O => ret iteration
  | S remaining' =>
      let iteration := iteration + 1 in
      read <- try_except (job <- get_job job_id ;; ret (Some job))
                         (λ _, ret None) ;;
      match read with
      | None => yield (EvError "Connection error") ;; ret iteration
      | Some None => yield (EvError "Job not found") ;; ret iteration
      | Some (Some job) =>
          current_progress <- lift (py_float (dict_get_or job "progress" (PInt 0))) ;;
          let job_status := dict_get_or job "status" (PStr "queued") in
          let error_msg := dict_get_or job "error" (PStr "") in
          let file_name := dict_get_or job "file_name" (PStr "") in
          last_progress <-
            (if negb (dec_eqb current_progress last_progress) then
               yield (EvProgress current_progress
                        (if truthy file_name && dec_geb current_progress (Dec 100 0)
                         then Some (py_str file_name) else None)) ;;
               ret current_progress
             else ret last_progress) ;;
          if truthy error_msg then
            yield (EvError (py_str error_msg)) ;; ret iteration
          else if py_eqb job_status (PStr "done") || py_eqb job_status (PStr "error")
          then ret iteration
          else if py_eqb job_status (PStr "running") && (100 <? iteration)
                  && dec_eqb current_progress (Dec 0 0)
          then
            yield (EvError "Download timed out (no progress)") ;;
            update_job job_id (list_to_map [("status", PStr "error");
                                            ("error", PStr "Timeout: no progress")]) ;;
            ret iteration
          else
            time.sleep poll_interval_ms ;;
            modify (set_store (others iteration)) ;;
            event_loop remaining' others job_id iteration last_progress
      end
  end.

Definition event_stream (others : Z → redis_db → redis_db) (job_id : string) : M unit :=
  try_except
    (iteration <- event_loop (Z.to_nat max_iterations) others job_id 0 (Dec (-1) 0) ;;
     if max_iterations <=? iteration then yield (EvError "Timeout") else ret tt)
    (λ _, yield (EvError "Streaming error")).

(** A stream in which no other worker touches the store. *)
Definition alone : Z → redis_db → redis_db := λ _ r, r.

End progress_stream.

(** ** Vocabulary of the statements *)

(** A store with no key, an empty disk, the clock at 0, nothing printed or
    sent. *)
Definition empty_db : redis_db := RedisDb ∅ ∅ ∅ ∅ ∅.
Definition fresh_world : world :=
  World empty_db (FileSystem "/" ∅ ∅ ∅) 0 [] [].

(** The settings of [Config] when the environment sets none of them; the
    download directory is [<project root>/backend/downloads]. *)
Definition default_config : config :=
  Config "/srv/mediadl/backend/downloads" 2 50 3.

(** A call of the admission controller. *)
Inductive call :=
  | Acquire (job_id : string) (timeout_seconds : Z)
  | Release (job_id : string).

(** The world after one call has returned or raised; [acquire] gets
    [S fuel] rounds. *)
Definition run_call (fuel : nat) (cfg : config) (c : call) (w : world) : world :=
  match c with
  | Acquire job_id timeout_seconds =>
      after (DownloadSemaphore.acquire (S fuel) cfg job_id timeout_seconds) w
  | Release job_id => after (DownloadSemaphore.release job_id) w
  end.

Definition run_calls (fuel : nat) (cfg : config) (calls : list call) (w : world) : world :=
  foldl (λ w c, run_call fuel cfg c w) w calls.

(** Every [acquire] is for a job that holds no slot and every [release]
    for a job that holds one. *)
Fixpoint well_matched (fuel : nat) (cfg : config) (calls : list call) (w : world) : bool :=
  match calls with
  | [] => true
  | c :: calls' =>
      match c with
      | Acquire job_id _ => bool_decide (job_id ∉ DownloadSemaphore.active_set w)
      | Release job_id => bool_decide (job_id ∈ DownloadSemaphore.active_set w)
      end && well_matched fuel cfg calls' (run_call fuel cfg c w)
  end.

(** The worlds after each of a series of [release] calls. *)
Fixpoint release_trace (job_ids : list string) (w : world) : list world :=
  match job_ids with
  | [] => []
  | job_id :: job_ids' =>
      let w' := after (DownloadSemaphore.release job_id) w in
      w' :: release_trace job_ids' w'
  end.

(** What a finished [acquire] does to the ledger. *)
Inductive acquire_spec (cfg : config) (job_id : string) (w : world)
    : result (option bool) → world → Prop :=
  | acquire_granted w' :
      DownloadSemaphore.active_count w + 1 ≤ MAX_CONCURRENT_DOWNLOADS cfg →
      DownloadSemaphore.active_count w' = DownloadSemaphore.active_count w + 1 →
      DownloadSemaphore.active_set w' = {[job_id]} ∪ DownloadSemaphore.active_set w →
      DownloadSemaphore.queue w' =
        filter (λ x, x ≠ job_id) (DownloadSemaphore.queue w) →
      acquire_spec cfg job_id w (Ok (Some true)) w'
  | acquire_raised w' :
      MAX_CONCURRENT_DOWNLOADS cfg < DownloadSemaphore.active_count w + 1 →
      DownloadSemaphore.active_count w' = DownloadSemaphore.active_count w →
      DownloadSemaphore.active_set w' = DownloadSemaphore.active_set w →
      DownloadSemaphore.queue w' = DownloadSemaphore.queue w →
      acquire_spec cfg job_id w (Raise AttributeError) w'.


(** The record that [get_job] reads from a store, and one field of it. *)
Definition decode_job (h : gmap string string) : pydict :=
  foldl convert_field (PStr <$> h) numeric_fields.

Definition read_job (r : redis_db) (job_id : string) : option pydict :=
  let h := redis.hash_at r (JOB_PREFIX +:+ job_id) in
  if bool_decide (h = ∅) then None else Some (decode_job h).

Definition field_of (w : world) (job_id field : string) : option pyval :=
  read_job (store w) job_id ≫= (λ job, job !! field).

(** The value that [get_job] makes of the text [v] of a field. *)
Definition convert_value (field : string) (v : pyval) : pyval :=
  if String.eqb field "progress" then
    match py_float v with Ok d => PFloat d | Raise _ => v end
  else
    match py_int v with Ok n => PInt n | Raise _ => v end.

Definition decode_value (field : string) (s : string) : pyval :=
  if bool_decide (field ∈ numeric_fields) then convert_value field (PStr s)
  else PStr s.


(** A job as the download endpoints create it, then brought to the given
    status and retry count. *)
Definition sample_job (job_id status : string) (retry_count : Z) : pydict :=
  list_to_map [
    ("job_id", PStr job_id);
    ("url", PStr "https://example.org/watch?v=1");
    ("platform", PStr "youtube");
    ("type", PStr "video");
    ("format", PStr "mp4");
    ("quality", PStr "720");
    ("status", PStr status);
    ("progress", PInt 0);
    ("retry_count", PInt retry_count);
    ("file_name", PStr "");
    ("file_path", PStr "");
    ("error", PStr "")].

Definition world_with_job (job_id status : string) (retry_count : Z) : world :=
  after (create_job (sample_job job_id status retry_count)) fresh_world.

(** The record of the job, as a round of the progress stream reads it, is
    that of a running job without progress: [status] is running, [progress]
    is 0 and, as for every record whose status is not error, the [error]
    message is empty. *)
Definition stalled (r : redis_db) (job_id : string) : bool :=
  match read_job r job_id with
  | Some job =>
      py_eqb (dict_get_or job "status" (PStr "queued")) (PStr "running")
      && match py_float (dict_get_or job "progress" (PInt 0)) with
         | Ok p => dec_eqb p (Dec 0 0)
         | Raise _ => false
         end
      && negb (truthy (dict_get_or job "error" (PStr "")))
  | None => false
  end.

(** A disk with the download directory of [default_config], a sibling
    directory whose name starts with the same text, and a file outside of
    both; and a finished job whose [file_path] is the given path. *)
Definition sample_disk : filesystem :=
  FileSystem "/srv/mediadl/backend"
    {[ "/srv/mediadl/backend/downloads/video_1.mp4";
       "/srv/mediadl/backend/downloads_private/secret.mp4";
       "/etc/passwd" ]}
    {[ "/srv"; "/srv/mediadl"; "/srv/mediadl/backend";
       "/srv/mediadl/backend/downloads";
       "/srv/mediadl/backend/downloads_private"; "/etc" ]}
    ∅.

Definition world_with_file_job (job_id status file_path : string) : world :=
  after (create_job (<["file_path" := PStr file_path]> (sample_job job_id status 0)))
        (World empty_db sample_disk 0 [] []).

(** ** app/services/jobs.py: queries *)

(** The loop of [list_jobs]. *)
Fixpoint list_jobs_loop (job_ids : list string) (jobs : list pydict)
    : M (list pydict) :=
  match job_ids with
  | [] => ret jobs
  | job_id :: job_ids' =>
      job <- get_job job_id ;;
      if dict_truthy job
      then list_jobs_loop job_ids' (jobs ++ [default ∅ job])
      else list_jobs_loop job_ids' jobs
  end.

Definition list_jobs (limit : Z) : M (list pydict) :=
  let limit := Z.max 1 (Z.min limit 1000) in
  job_ids <- redis.lrange JOBS_LIST_KEY 0 (limit - 1) ;;
  list_jobs_loop job_ids [].

Definition count_jobs : M Z := redis.llen JOBS_LIST_KEY.

Definition get_jobs_by_status (status : string) (limit : Z) : M (list pydict) :=
  let limit := Z.max 1 (Z.min limit 1000) in
  all_jobs <- list_jobs (limit * 3) ;;
  ret (take (Z.to_nat limit)
         (List.filter (λ j, py_eqb (dict_get j "status") (PStr status)) all_jobs)).

Definition get_jobs_by_platform (platform : string) (limit : Z) : M (list pydict) :=
  let limit := Z.max 1 (Z.min limit 1000) in
  all_jobs <- list_jobs (limit * 3) ;;
  ret (take (Z.to_nat limit)
         (List.filter (λ j, py_eqb (dict_get j "platform") (PStr platform)) all_jobs)).

(** A dict of counters, [d[k] = d.get(k, 0) + 1]: the keys in the order
    of their insertion, compared with [==]. *)
Fixpoint count_up (k : pyval) (d : list (pyval * Z)) : list (pyval * Z) :=
  match d with
  | [] => [(k, 0 + 1)]
  | (k', n) :: d' =>
      if py_eqb k' k then (k', n + 1) :: d' else (k', n) :: count_up k d'
  end.

(** The dict that [get_stats] returns. *)
Record stats_dict := Stats {
  total : Z;
  by_status : list (pyval * Z);
  by_platform : list (pyval * Z);
  by_type : list (pyval * Z);
  by_format : list (pyval * Z)
}.

(** One round of the loop of [get_stats]. *)
Definition stats_step (stats : stats_dict) (job : pydict) : stats_dict :=
  let status := dict_get_or job "status" (PStr "unknown") in
  let platform := dict_get_or job "platform" (PStr "unknown") in
  let job_type := dict_get_or job "type" (PStr "unknown") in
  let fmt := dict_get_or job "format" (PStr "unknown") in
  Stats (total stats)
        (count_up status (by_status stats))
        (count_up platform (by_platform stats))
        (count_up job_type (by_type stats))
        (count_up fmt (by_format stats)).

Definition get_stats : M stats_dict :=
  all_jobs <- list_jobs 500 ;;
  ret (foldl stats_step (Stats (Z.of_nat (length all_jobs)) [] [] [] []) all_jobs).

(** The values of the dict display are evaluated in the order in which
    they are written; [str] does not fail, so that the first of [float] and
    the three [int] to fail decides the exception. *)
Definition export_job_json (job : option pydict) : M pydict :=
  if negb (dict_truthy job) then ret ∅
  else
    let job := default ∅ job in
    progress <- lift (py_float (dict_get_or job "progress" (PInt 0))) ;;
    created_at <- lift (py_int (dict_get_or job "created_at" (PInt 0))) ;;
    updated_at <- lift (py_int (dict_get_or job "updated_at" (PInt 0))) ;;
    retry_count <- lift (py_int (dict_get_or job "retry_count" (PInt 0))) ;;
    ret (list_to_map [
      ("job_id", PStr (py_str (dict_get_or job "job_id" (PStr ""))));
      ("url", PStr (py_str (dict_get_or job "url" (PStr ""))));
      ("platform", PStr (py_str (dict_get_or job "platform" (PStr ""))));
      ("type", PStr (py_str (dict_get_or job "type" (PStr ""))));
      ("format", PStr (py_str (dict_get_or job "format" (PStr ""))));
      ("quality", PStr (py_str (dict_get_or job "quality" (PStr ""))));
      ("status", PStr (py_str (dict_get_or job "status" (PStr ""))));
      ("progress", PFloat progress);
      ("file_name", PStr (py_str (dict_get_or job "file_name" (PStr ""))));
      ("file_path", PStr (py_str (dict_get_or job "file_path" (PStr ""))));
      ("error", PStr (py_str (dict_get_or job "error" (PStr ""))));
      ("created_at", PInt created_at);
      ("updated_at", PInt updated_at);
      ("retry_count", PInt retry_count);
      ("parent_job_id", PStr (py_str (dict_get_or job "parent_job_id" (PStr ""))));
      ("child_job_id", PStr (py_str (dict_get_or job "child_job_id" (PStr ""))))]).

(** ** app/services/concurrency.py: check_queue_status *)

Definition check_queue_status (cfg : config) : M bool :=
  status <- DownloadSemaphore.get_status cfg ;;
  let total := DownloadSemaphore.active status + DownloadSemaphore.queued status in
  ret (total <? MAX_QUEUE_SIZE cfg).

(** ** app/api/history.py: the history endpoints *)

(** [[export_job_json(job) for job in jobs if job]] *)
Fixpoint serialize_jobs (jobs : list pydict) : M (list pydict) :=
  match jobs with
  | [] => ret []
  | job :: jobs' =>
      if dict_truthy (Some job) then
        item <- export_job_json (Some job) ;;
        items <- serialize_jobs jobs' ;;
        ret (item :: items)
      else serialize_jobs jobs'
  end.

(** The dict that [get_history] returns. *)
Record history_page := HistoryPage {
  items : list pydict;
  page_total : Z;
  page_limit : Z
}.

Definition get_history (limit : Z) : M history_page :=
  jobs <- list_jobs limit ;;
  serialized_jobs <- serialize_jobs jobs ;;
  ret (HistoryPage serialized_jobs (Z.of_nat (length serialized_jobs)) limit).

(** [NotFound] is the HTTPException with status 404 that [get_job_details]
    raises. *)
Inductive job_details :=
  | NotFound
  | Details (job : pydict).

Definition get_job_details (job_id : string) : M job_details :=
  job <- get_job job_id ;;
  if negb (dict_truthy job) then ret NotFound
  else
    d <- export_job_json job ;;
    ret (Details d).

(** ** main.py: the download endpoints *)

(** The dict [job_data] of [start_video] and [start_audio]: [type_] is
    video or audio and [format] mp4 or webm; [now_iso] is the text of
    [datetime.now().isoformat()]. *)
Definition start_job_data (job_id url platform type_ format quality client_ip
    now_iso : string) : pydict :=
  list_to_map [
    ("job_id", PStr job_id);
    ("url", PStr url);
    ("platform", PStr platform);
    ("type", PStr type_);
    ("format", PStr format);
    ("quality", PStr quality);
    ("status", PStr "queued");
    ("progress", PInt 0);
    ("file_name", PStr "");
    ("file_path", PStr "");
    ("error", PStr "");
    ("client_ip", PStr client_ip);
    ("created_at", PStr now_iso)].

(** What [download_file] answers: a JSON body [{"error": ...}] with a
    status code, or the file at [path] under the name [filename]. *)
Inductive download_response :=
  | JSONResponse (status_code : Z) (error : string)
  | FileResponse (path filename : string).

(** GET /download/{job_id}. Building the FileResponse does not touch the
    file. *)
Definition download_file (cfg : config) (job_id : string) : M download_response :=
  try_except
    (job <- get_job job_id ;;
     if negb (dict_truthy job) then ret (JSONResponse 404 "Job not found")
     else
       let file_path := dict_get (default ∅ job) "file_path" in
       there <- (if truthy file_path then os.exists_ (py_str file_path)
                 else ret false) ;;
       if negb (truthy file_path) || negb there
       then ret (JSONResponse 404 "File not found")
       else
         abs_file_path <- os.abspath (py_str file_path) ;;
         abs_downloads_dir <- os.abspath (DOWNLOAD_DIR cfg) ;;
         if negb (String.prefix abs_downloads_dir abs_file_path)
         then ret (JSONResponse 403 "Access denied")
         else
           let file_name := os.basename (py_str file_path) in
           ret (FileResponse (py_str file_path) file_name))
    (λ _, ret (JSONResponse 500 "Internal error")).

(** ** app/services/download_orchestrator.py: make_error_callback *)

Definition make_error_callback (job_id : string) : pyval → M unit :=
  λ error_msg,
    try_except
      (update_job job_id (list_to_map [("status", PStr "error");
                                       ("error", PStr (py_str error_msg))]) ;;
       ret tt)
      (λ _, ret tt).

(** ** app/services/cleanup.py *)

(** The end of a round of the loops of [cleanup_old_jobs] and
    [cleanup_by_count], from the comment on the file on: the file of the
    job is removed, then its record and its index entries. The result is
    the list [errors]; the text of the exception at the end of a message is
    left out. *)
Definition remove_job_and_file (job_id : string) (job : gmap string string)
    (errors : list string) : M (list string) :=
  let file_path := job !! "file_path" in
  there <- (match file_path with
            | Some p => if String.eqb p "" then ret false else os.exists_ p
            | None => ret false
            end) ;;
  errors <- (if there then
               let p := default "" file_path in
               try_except (os.remove p ;; ret errors)
                          (λ _, ret (errors ++ ["Could not delete file " +:+ p]))
             else ret errors) ;;
  redis.delete ("job:" +:+ job_id) ;;
  redis.lrem "jobs:all" 0 job_id ;;
  ret errors.

(** The loop of [cleanup_by_count]. *)
Fixpoint cleanup_by_count_loop (jobs_to_delete : list string) (deleted_count : Z)
    (errors : list string) : M (Z * list string) :=
  match jobs_to_delete with
  | [] => ret (deleted_count, errors)
  | job_id :: rest =>
      job <- redis.hgetall ("job:" +:+ job_id) ;;
      if bool_decide (job = ∅) then cleanup_by_count_loop rest deleted_count errors
      else if bool_decide (job !! "status" = Some "running")
      then cleanup_by_count_loop rest deleted_count errors
      else
        errors <- remove_job_and_file job_id job errors ;;
        cleanup_by_count_loop rest (deleted_count + 1) errors
  end.

(** What the cleanup functions report: [NoCleanupNeeded] is the dict with
    [deleted_jobs = 0] and the message "No cleanup needed". *)
Inductive cleanup_report :=
  | NoCleanupNeeded
  | Cleaned (deleted_jobs : Z) (errors : list string).

Definition cleanup_by_count (keep_count : Z) : M cleanup_report :=
  job_ids <- redis.lrange "jobs:all" 0 (-1) ;;
  if Z.of_nat (length job_ids) <=? keep_count then ret NoCleanupNeeded
  else
    let jobs_to_delete := slice_from keep_count job_ids in
    r <- cleanup_by_count_loop jobs_to_delete 0 [] ;;
    ret (Cleaned r.1 r.2).

(** The loop of [cleanup_old_jobs]; [cutoff] is in milliseconds. *)
Fixpoint cleanup_old_jobs_loop (cutoff : Z) (job_ids : list string)
    (deleted_count : Z) (errors : list string) : M (Z * list string) :=
  match job_ids with
  | [] => ret (deleted_count, errors)
  | job_id :: rest =>
      job <- redis.hgetall ("job:" +:+ job_id) ;;
      if bool_decide (job = ∅) then cleanup_old_jobs_loop cutoff rest deleted_count errors
      else if bool_decide (job !! "status" = Some "running")
      then cleanup_old_jobs_loop cutoff rest deleted_count errors
      else
        created_at <- lift (py_int (default (PInt 0) (PStr <$> job !! "created_at"))) ;;
        if cutoff <=? created_at * 1000
        then cleanup_old_jobs_loop cutoff rest deleted_count errors
        else
          errors <- remove_job_and_file job_id job errors ;;
          cleanup_old_jobs_loop cutoff rest (deleted_count + 1) errors
  end.

Definition cleanup_old_jobs (days : Z) : M cleanup_report :=
  now <- time.time ;;
  let cutoff := now - days * 86400 * 1000 in
  job_ids <- redis.lrange "jobs:all" 0 (-1) ;;
  r <- cleanup_old_jobs_loop cutoff job_ids 0 [] ;;
  ret (Cleaned r.1 r.2).

(** ** Further vocabulary of the statements *)

(** The value of a run of digits, most significant first. *)
Fixpoint uint_val (acc : Z) (u : Decimal.uint) : Z :=
  match u with
  | Decimal.Nil => acc
  | Decimal.D0 u => uint_val (10 * acc) u
  | Decimal.D1 u => uint_val (10 * acc + 1) u
  | Decimal.D2 u => uint_val (10 * acc + 2) u
  | Decimal.D3 u => uint_val (10 * acc + 3) u
  | Decimal.D4 u => uint_val (10 * acc + 4) u
  | Decimal.D5 u => uint_val (10 * acc + 5) u
  | Decimal.D6 u => uint_val (10 * acc + 6) u
  | Decimal.D7 u => uint_val (10 * acc + 7) u
  | Decimal.D8 u => uint_val (10 * acc + 8) u
  | Decimal.D9 u => uint_val (10 * acc + 9) u
  end.

(** The sum of the counters of a dict of counters. *)
Definition counts_sum (d : list (pyval * Z)) : Z :=
  foldr (λ kv acc, kv.2 + acc) 0 d.

(** The record of the job, as a round of the progress stream reads it, is
    that of a job that goes on without a change: its progress is [p], it
    has no error message, its status is neither done nor error, and it is
    not a running job without progress. *)
Definition pending (p : decimal) (r : redis_db) (job_id : string) : bool :=
  match read_job r job_id with
  | Some job =>
      let status := dict_get_or job "status" (PStr "queued") in
      match py_float (dict_get_or job "progress" (PInt 0)) with
      | Ok q => bool_decide (q = p)
      | Raise _ => false
      end
      && negb (truthy (dict_get_or job "error" (PStr "")))
      && negb (py_eqb status (PStr "done") || py_eqb status (PStr "error"))
      && negb (py_eqb status (PStr "running") && dec_eqb p (Dec 0 0))
  | None => false
  end.

(** The fields that [download_wrapper] of [create_download_wrapper] writes
    with [update_job] once it has found the downloaded file. *)
Definition done_update (file_name file_path : string) : pydict :=
  list_to_map [
    ("status", PStr "done");
    ("progress", PInt 100);
    ("file_name", PStr file_name);
    ("file_path", PStr file_path)].

(** A job that the loops of the cleanup remove when they come to it: its
    record exists and its status is not running. *)
Definition deletable (r : redis_db) (job_id : string) : bool :=
  let job := redis.hash_at r ("job:" +:+ job_id) in
  negb (bool_decide (job = ∅))
  && negb (bool_decide (job !! "status" = Some "running")).

(** The age test of [cleanup_old_jobs] on the record of a job, for a
    cutoff in milliseconds: [None] when the created_at of the record is not
    the text of an int. *)
Definition created_before (cutoff : Z) (r : redis_db) (job_id : string) : option bool :=
  match py_int (default (PInt 0)
                  (PStr <$> redis.hash_at r ("job:" +:+ job_id) !! "created_at")) with
  | Ok created_at => Some (negb (cutoff <=? created_at * 1000))
  | Raise _ => None
  end.

(** A job that the loop of [cleanup_old_jobs] removes when it comes to
    it. *)
Definition expired (cutoff : Z) (r : redis_db) (job_id : string) : bool :=
  deletable r job_id && bool_decide (created_before cutoff r job_id = Some true).


(** * Calls of several processes *)

(** [DownloadSemaphore] is "safe across multiple processes via Redis": the
    processes share the store and nothing else. The store serves one command
    at a time, to its end; between two commands of one call, commands of
    the calls of other processes may be served. Here a call is run one
    command at a time, so that calls overlap. *)

(** The commands that [acquire] and [release] send to the store and the
    readings of the clock, each with the type of its reply. *)
Inductive command : Type → Type :=
  | Time : command Z
  | Sleep (ms : Z) : command unit
  | Incr (name : string) (amount : Z) : command Z
  | Decr (name : string) (amount : Z) : command Z
  | Set_ (name : string) (value : Z) : command unit
  | Sadd (name value : string) : command Z
  | Srem (name value : string) : command Z
  | Lrem (name : string) (count : Z) (value : string) : command Z
  | Rpush (name : string) (value : pyval) : command Z
  | Lfrompop (name : string) (count numtoremove : Z) : command pyval.

(** What a command does to the world: the function of the client that it
    stands for. *)
Definition exec {X} (c : command X) : M X :=
  match c with
  | Time => time.time
  | Sleep ms => time.sleep ms
  | Incr name amount => redis.incr name amount
  | Decr name amount => redis.decr name amount
  | Set_ name value => redis.set_ name value
  | Sadd name value => redis.sadd name value
  | Srem name value => redis.srem name value
  | Lrem name count value => redis.lrem name count value
  | Rpush name value => redis.rpush name value
  | Lfrompop name count numtoremove => redis.lfrompop name count numtoremove
  end.

(** A call as far as it has got: it has returned, it has raised, or its
    next command is [c] and it goes on with [k] from the reply. *)
Inductive thread (A : Type) : Type :=
  | Returned (a : A)
  | Raised (e : exn)
  | Next {X : Type} (c : command X) (k : X → thread A).
Arguments Returned {A} a.
Arguments Raised {A} e.
Arguments Next {A X} c k.

Fixpoint then_ {A B} (t : thread A) (k : A → thread B) : thread B :=
  match t with
  | Returned a => k a
  | Raised e => Raised e
  | Next c k' => Next c (λ x, then_ (k' x) k)
  end.

Definition perform {X} (c : command X) : thread X := Next c Returned.

Declare Scope thread_scope.
Delimit Scope thread_scope with thread.
Bind Scope thread_scope with thread.
Notation "x <- t ;; k" := (then_ t (λ x, k))
  (at level 100, t at next level, right associativity) : thread_scope.
Notation "t ;; k" := (then_ t (λ _, k))
  (at level 100, right associativity) : thread_scope.

(** A call run alone, from its next command to its end. *)
Fixpoint run_thread {A} (t : thread A) : M A :=
  match t with
  | Returned a => ret a
  | Raised e => raise e
  | Next c k => x <- exec c ;; run_thread (k x)
  end.

(** One command of a call; an exception of the command ends the call
    ([acquire] and [release] catch nothing). *)
Definition step {A} (t : thread A) (w : world) : thread A * world :=
  match t with
  | Next c k =>
      match exec c w with
      | (Ok x, w') => (k x, w')
      | (Raise e, w') => (Raised e, w')
      end
  | _ => (t, w)
  end.

(** ** app/services/concurrency.py, command by command *)

Module Steps.
Import DownloadSemaphore.

Definition acquire_round (cfg : config) (job_id : string) (timeout_seconds : Z)
    (start_time : Z) : thread (option bool) :=
  (count <- perform (Incr count_key 1) ;;
   if count <=? MAX_CONCURRENT_DOWNLOADS cfg then
     perform (Sadd active_key job_id) ;;
     perform (Lrem QUEUE_KEY 0 job_id) ;;
     Returned (Some true)
   else
     perform (Decr count_key 1) ;;
     queued <- perform (Lfrompop QUEUE_KEY 1 0) ;;
     (if negb (truthy queued)
      then (perform (Rpush QUEUE_KEY (PStr job_id)) ;; Returned tt)
      else Returned tt) ;;
     now <- perform Time ;;
     if timeout_seconds * 1000 <? now - start_time then Returned (Some false)
     else (perform (Sleep 1000) ;; Returned None))%thread.

Fixpoint acquire_loop (fuel : nat) (cfg : config) (job_id : string)
    (timeout_seconds : Z) (start_time : Z) : thread (option bool) :=
  match fuel with
  | O => Returned None
  | S fuel' =>
      (r <- acquire_round cfg job_id timeout_seconds start_time ;;
       match r with
       | Some b => Returned (Some b)
       | None => acquire_loop fuel' cfg job_id timeout_seconds start_time
       end)%thread
  end.

Definition acquire (fuel : nat) (cfg : config) (job_id : string)
    (timeout_seconds : Z) : thread (option bool) :=
  (start_time <- perform Time ;;
   acquire_loop fuel cfg job_id timeout_seconds start_time)%thread.

Definition release (job_id : string) : thread unit :=
  (perform (Srem active_key job_id) ;;
   count <- perform (Decr count_key 1) ;;
   if count <? 0 then perform (Set_ count_key 0) else Returned tt)%thread.

End Steps.

(** A call in flight or over. *)
Inductive task :=
  | Acquiring (t : thread (option bool))
  | Releasing (t : thread unit).

(** The call has returned or raised. An [acquire] whose rounds are used up
    is not over: its loop would go on. *)
Definition finished (t : task) : bool :=
  match t with
  | Acquiring (Returned (Some _)) | Acquiring (Raised _) => true
  | Releasing (Returned _) | Releasing (Raised _) => true
  | _ => false
  end.

Definition step_task (t : task) (w : world) : task * world :=
  match t with
  | Acquiring t => let '(t', w') := step t w in (Acquiring t', w')
  | Releasing t => let '(t', w') := step t w in (Releasing t', w')
  end.

(** A call that a process begins; [acquire] gets [S fuel] rounds. *)
Definition begin (fuel : nat) (cfg : config) (c : call) : task :=
  match c with
  | Acquire job_id timeout_seconds =>
      Acquiring (Steps.acquire (S fuel) cfg job_id timeout_seconds)
  | Release job_id => Releasing (Steps.release job_id)
  end.

(** The shared world and the calls begun so far, in the order in which they
    began. *)
Definition processes : Type := world * list task.

(** What happens next: a process begins a call, or the call numbered [i]
    has its next command served. *)
Inductive move :=
  | Begin (c : call)
  | Advance (i : nat).

Definition run_move (fuel : nat) (cfg : config) (m : move) (s : processes)
    : processes :=
  match m with
  | Begin c => (s.1, s.2 ++ [begin fuel cfg c])
  | Advance i =>
      match s.2 !! i with
      | Some t => let '(t', w') := step_task t s.1 in (w', <[i := t']> s.2)
      | None => s
      end
  end.

Definition run_moves (fuel : nat) (cfg : config) (moves : list move)
    (s : processes) : processes :=
  foldl (λ s m, run_move fuel cfg m s) s moves.

(** A quiescent point: no call is in flight. *)
Definition quiescent (s : processes) : bool := forallb finished s.2.

(** The next command of the call adds to a set a value that is not in it,
    or removes from a set a value that is in it, or is another command. *)
Definition matched_next {A} (t : thread A) (w : world) : bool :=
  match t with
  | Next c _ =>
      match c with
      | Sadd name value => bool_decide (value ∉ redis.set_at (store w) name)
      | Srem name value => bool_decide (value ∈ redis.set_at (store w) name)
      | _ => true
      end
  | _ => true
  end.

Definition matched_task (t : task) (w : world) : bool :=
  match t with
  | Acquiring t => matched_next t w
  | Releasing t => matched_next t w
  end.

(** Every SADD served adds a job that is not in the active set and every
    SREM served removes one that is in it. *)
Fixpoint matched_moves (fuel : nat) (cfg : config) (moves : list move)
    (s : processes) : bool :=
  match moves with
  | [] => true
  | m :: moves' =>
      match m with
      | Begin _ => true
      | Advance i =>
          match s.2 !! i with
          | Some t => matched_task t s.1
          | None => true
          end
      end && matched_moves fuel cfg moves' (run_move fuel cfg m s)
  end.

(** The calls whose next command is a DECRBY, a SADD or a SET. *)
Definition decr_next {A} (t : thread A) : nat :=
  match t with
  | Next c _ => match c with Decr _ _ => 1 | _ => 0 end
  | _ => 0
  end.

Definition sadd_next {A} (t : thread A) : nat :=
  match t with
  | Next c _ => match c with Sadd _ _ => 1 | _ => 0 end
  | _ => 0
  end.

Definition set_next {A} (t : thread A) : bool :=
  match t with
  | Next c _ => match c with Set_ _ _ => true | _ => false end
  | _ => false
  end.

Definition owed (t : task) : nat :=
  match t with Acquiring t => decr_next t | Releasing t => decr_next t end.
Definition due (t : task) : nat :=
  match t with Acquiring t => sadd_next t | Releasing t => sadd_next t end.
Definition clamping (t : task) : bool :=
  match t with Acquiring t => set_next t | Releasing t => set_next t end.

(** The places of [acquire] and [release] at which a call can be. After
    the DECRBY of a round of [acquire] comes [redis.lfrompop], which ends
    the call. *)
Inductive form (cfg : config) : task → Prop :=
  | form_acquire fuel job_id timeout_seconds :
      form cfg (Acquiring (Steps.acquire (S fuel) cfg job_id timeout_seconds))
  | form_loop fuel job_id timeout_seconds start_time :
      form cfg (Acquiring (Steps.acquire_loop (S fuel) cfg job_id
                             timeout_seconds start_time))
  | form_granted job_id :
      form cfg (Acquiring (perform (Sadd DownloadSemaphore.active_key job_id) ;;
                           perform (Lrem DownloadSemaphore.QUEUE_KEY 0 job_id) ;;
                           Returned (Some true))%thread)
  | form_dequeue job_id :
      form cfg (Acquiring (perform (Lrem DownloadSemaphore.QUEUE_KEY 0 job_id) ;;
                           Returned (Some true))%thread)
  | form_rejected k :
      (∀ x, ∃ k', k x = Next (Lfrompop DownloadSemaphore.QUEUE_KEY 1 0) k') →
      form cfg (Acquiring (Next (Decr DownloadSemaphore.count_key 1) k))
  | form_enqueue k :
      form cfg (Acquiring (Next (Lfrompop DownloadSemaphore.QUEUE_KEY 1 0) k))
  | form_acquired :
      form cfg (Acquiring (Returned (Some true)))
  | form_refused e :
      form cfg (Acquiring (Raised e))
  | form_release job_id :
      form cfg (Releasing (Steps.release job_id))
  | form_decrement :
      form cfg (Releasing
        (count <- perform (Decr DownloadSemaphore.count_key 1) ;;
         if count <? 0 then perform (Set_ DownloadSemaphore.count_key 0)
         else Returned tt)%thread)
  | form_clamp :
      form cfg (Releasing (perform (Set_ DownloadSemaphore.count_key 0)))
  | form_released :
      form cfg (Releasing (Returned tt)).

(** The counter, less the DECRBYs that are about to be served, is within
    the limit. *)
Definition bounded (cfg : config) (s : processes) : Prop :=
  Forall (form cfg) s.2
  ∧ DownloadSemaphore.active_count s.1 - Z.of_nat (sum_list_with owed s.2)
      ≤ MAX_CONCURRENT_DOWNLOADS cfg.

(** The counter is the size of the active set, plus the DECRBYs and the
    SADDs that are about to be served; no call is about to set the counter
    to 0. *)
Definition balanced (cfg : config) (s : processes) : Prop :=
  Forall (form cfg) s.2
  ∧ Forall (λ t, clamping t = false) s.2
  ∧ DownloadSemaphore.active_count s.1
      = Z.of_nat (size (DownloadSemaphore.active_set s.1))
        + Z.of_nat (sum_list_with owed s.2) + Z.of_nat (sum_list_with due s.2).
(** * Proofs *)

(** Runs of the monad, unfolded. *)
Ltac run_py :=
  unfold outcome, after, bind, ret, raise, lift, gets, modify, try_except in *;
  cbn [fst snd] in *.

(** Projections of a store through its updates. *)
Ltac db_simpl :=
  unfold DownloadSemaphore.active_count, DownloadSemaphore.active_set,
         DownloadSemaphore.queue,
         redis.hash_at, redis.list_at, redis.set_at, redis.int_at in *;
  cbn [store disk clock stdout sent set_store set_disk set_clock set_stdout set_sent
       hashes lists sets ints ttls set_hashes set_lists set_sets set_ints set_ttls
       redis.drop_key fst snd] in *.

Ltac map_simpl :=
  repeat first
    [ rewrite lookup_insert_eq
    | rewrite lookup_delete_eq
    | rewrite lookup_insert_ne by done
    | rewrite lookup_delete_ne by done ];
  cbn [default from_option id] in *.

(** ** The helpers on concrete inputs *)

Module examples.

Example int_of_text_ok :
  int_of_text "2" = Some 2 ∧ int_of_text " -12 " = Some (-12)
  ∧ int_of_text "+7" = Some 7 ∧ int_of_text "007" = Some 7.
Proof. repeat split. Qed.

Example int_of_text_refused :
  int_of_text "" = None ∧ int_of_text "2.0" = None
  ∧ int_of_text "-" = None ∧ int_of_text "1 2" = None.
Proof. repeat split. Qed.

Example float_of_text_ok :
  float_of_text "0" = Some (Dec 0 0) ∧ float_of_text "0.0" = Some (Dec 0 0)
  ∧ float_of_text "50.50" = Some (Dec 505 1) ∧ float_of_text ".5" = Some (Dec 5 1)
  ∧ float_of_text "5." = Some (Dec 5 0) ∧ float_of_text "-12.3" = Some (Dec (-123) 1).
Proof. repeat split. Qed.

Example float_of_text_refused :
  float_of_text "" = None ∧ float_of_text "." = None ∧ float_of_text "abc" = None.
Proof. repeat split. Qed.

Example repr_of_float_ok :
  repr_of_float (Dec 505 1) = "50.5" ∧ repr_of_float (Dec 0 0) = "0.0"
  ∧ repr_of_float (Dec 1000 1) = "100.0" ∧ repr_of_float (Dec (-5) 2) = "-0.05".
Proof. repeat split. Qed.

Example str_of_int_ok :
  str_of_int 0 = "0" ∧ str_of_int 1700000000 = "1700000000" ∧ str_of_int (-3) = "-3".
Proof. repeat split. Qed.

Example normpath_ok :
  os.normpath "/srv/app/../downloads//a.mp4" = "/srv/downloads/a.mp4"
  ∧ os.normpath "a/./b/../../.." = ".."
  ∧ os.normpath "//x/" = "//x" ∧ os.normpath "///x" = "/x"
  ∧ os.normpath "/.." = "/" ∧ os.normpath "" = ".".
Proof. repeat split. Qed.

Example join_ok :
  os.join "/srv/app" "x/y" = "/srv/app/x/y" ∧ os.join "/srv/app/" "x" = "/srv/app/x"
  ∧ os.join "/srv/app" "/etc" = "/etc" ∧ os.join "" "x" = "x".
Proof. repeat split. Qed.

Example lrem_list_ok :
  redis.lrem_list 0 "a" ["a"; "b"; "a"; "c"] = ["b"; "c"]
  ∧ redis.lrem_list 1 "a" ["a"; "b"; "a"; "c"] = ["b"; "a"; "c"]
  ∧ redis.lrem_list (-1) "a" ["a"; "b"; "a"; "c"] = ["a"; "b"; "c"].
Proof. repeat split. Qed.

(** A job made by [create_job] and read back by [get_job]. *)
Example create_then_get :
  let w := after (create_job {[ "job_id" := PStr "j1" ]})
                 (set_clock (λ _, 1700000000123) fresh_world) in
  field_of w "j1" "job_id" = Some (PStr "j1")
  ∧ field_of w "j1" "status" = Some (PStr "queued")
  ∧ field_of w "j1" "progress" = Some (PFloat (Dec 0 0))
  ∧ field_of w "j1" "retry_count" = Some (PInt 0)
  ∧ field_of w "j1" "created_at" = Some (PInt 1700000000)
  ∧ redis.list_at (store w) JOBS_LIST_KEY = ["j1"]
  ∧ ttls (store w) !! "job:j1" = Some (1700000000 + 86400).
Proof. vm_compute. repeat split. Qed.

(** A retry from a record without its request fields sends None to Redis:
    DataError. *)
Example retry_without_request_fields :
  let w := after (create_job (list_to_map [("job_id", PStr "j1");
                                           ("status", PStr "error")]))
                 fresh_world in
  outcome (RetryManager.create_retry_job default_config "j2" "j1" None) w
    = Raise DataError.
Proof. vm_compute. reflexivity. Qed.

(** The same job acquired twice takes two slots of the counter and one
    member of the active set. *)
Example acquire_twice :
  let w := run_calls 0 default_config [Acquire "A" 300; Acquire "A" 300]
             (after DownloadSemaphore.reset fresh_world) in
  DownloadSemaphore.active_count w = 2
  ∧ size (DownloadSemaphore.active_set w) = 1%nat.
Proof. vm_compute. repeat split. Qed.

End examples.

(** ** The admission controller *)

Module semaphore_facts.
Import DownloadSemaphore.

Lemma acquire_run fuel cfg job_id timeout w :
  acquire_spec cfg job_id w (outcome (acquire (S fuel) cfg job_id timeout) w)
                            (after (acquire (S fuel) cfg job_id timeout) w).
Proof.
  unfold acquire, acquire_loop, acquire_round, time.time.
  unfold redis.incr, redis.sadd, redis.lrem, redis.decr, redis.lfrompop.
  run_py. db_simpl.
  destruct (_ <=? MAX_CONCURRENT_DOWNLOADS cfg) eqn:E; cbn [fst snd].
  - apply Z.leb_le in E. apply acquire_granted; db_simpl; map_simpl; done.
  - apply Z.leb_gt in E. apply acquire_raised; db_simpl; map_simpl; try done; lia.
Qed.

(** [acquire] never uses up its rounds: one round returns or raises. *)
Lemma acquire_finishes fuel cfg job_id timeout w :
  outcome (acquire (S fuel) cfg job_id timeout) w ≠ Ok None.
Proof. by destruct (acquire_run fuel cfg job_id timeout w). Qed.

(** With every slot taken, [acquire] raises whatever its timeout is: it
    does not return False and does not put the job in the queue. *)
Lemma acquire_full_raises fuel cfg job_id timeout w :
  MAX_CONCURRENT_DOWNLOADS cfg ≤ active_count w →
  outcome (acquire (S fuel) cfg job_id timeout) w = Raise AttributeError
  ∧ queue (after (acquire (S fuel) cfg job_id timeout) w) = queue w.
Proof.
  intros Hfull.
  destruct (acquire_run fuel cfg job_id timeout w) as [w' ? _ _ _|w' _ _ _ Hq];
    [lia|done].
Qed.

(** [acquire] never returns False. *)
Lemma acquire_never_false fuel cfg job_id timeout w :
  outcome (acquire fuel cfg job_id timeout) w ≠ Ok (Some false).
Proof.
  destruct fuel as [|fuel]; [done|].
  by destruct (acquire_run fuel cfg job_id timeout w).
Qed.

Lemma release_run job_id w :
  let w' := after (release job_id) w in
  outcome (release job_id) w = Ok tt ∧
  active_count w' = Z.max 0 (active_count w - 1) ∧
  active_set w' = active_set w ∖ {[job_id]} ∧
  queue w' = queue w.
Proof.
  unfold release, redis.srem, redis.decr, redis.set_. run_py. db_simpl. map_simpl.
  destruct (default 0 (ints (store w) !! count_key) - 1 <? 0) eqn:E; cbn [fst snd].
  - apply Z.ltb_lt in E. db_simpl. map_simpl. repeat split; try done. lia.
  - apply Z.ltb_ge in E. db_simpl. map_simpl. repeat split; try done. lia.
Qed.

Lemma reset_run w :
  active_count (after reset w) = 0 ∧ active_set (after reset w) = ∅
  ∧ queue (after reset w) = [].
Proof.
  unfold reset, redis.delete, redis.set_. run_py. db_simpl. by map_simpl.
Qed.

(** The counter stays between 0 and the limit. *)
Lemma bound_step fuel cfg c w :
  0 ≤ active_count w ≤ MAX_CONCURRENT_DOWNLOADS cfg →
  0 ≤ active_count (run_call fuel cfg c w) ≤ MAX_CONCURRENT_DOWNLOADS cfg.
Proof.
  intros Hb. destruct c as [job_id timeout|job_id]; cbn [run_call].
  - destruct (acquire_run fuel cfg job_id timeout w) as [w' ? -> _ _|w' ? -> _ _]; lia.
  - destruct (release_run job_id w) as (_ & -> & _). lia.
Qed.

Lemma bound_run fuel cfg calls w :
  0 ≤ active_count w ≤ MAX_CONCURRENT_DOWNLOADS cfg →
  0 ≤ active_count (run_calls fuel cfg calls w) ≤ MAX_CONCURRENT_DOWNLOADS cfg.
Proof.
  revert w. induction calls as [|c calls IH]; intros w Hb; [done|].
  apply IH, bound_step, Hb.
Qed.

(** On matched calls the counter is the size of the active set. *)
Lemma matched_step fuel cfg c w :
  active_count w = Z.of_nat (size (active_set w)) →
  well_matched fuel cfg [c] w = true →
  active_count (run_call fuel cfg c w)
    = Z.of_nat (size (active_set (run_call fuel cfg c w))).
Proof.
  intros Hc Hm. cbn [well_matched] in Hm. rewrite andb_true_r in Hm.
  destruct c as [job_id timeout|job_id]; cbn [run_call];
    apply bool_decide_eq_true in Hm.
  - destruct (acquire_run fuel cfg job_id timeout w) as [w' ? -> -> _|w' ? -> -> _];
      [|done].
    rewrite size_union by set_solver. rewrite size_singleton. lia.
  - destruct (release_run job_id w) as (_ & -> & -> & _).
    rewrite size_difference by set_solver. rewrite size_singleton.
    assert (size (active_set w) ≠ 0%nat).
    { intros H0. apply size_empty_inv in H0. set_solver. }
    lia.
Qed.

Lemma matched_run fuel cfg calls w :
  active_count w = Z.of_nat (size (active_set w)) →
  well_matched fuel cfg calls w = true →
  active_count (run_calls fuel cfg calls w)
    = Z.of_nat (size (active_set (run_calls fuel cfg calls w))).
Proof.
  revert w. induction calls as [|c calls IH]; intros w Hc Hm; [done|].
  cbn [well_matched] in Hm. apply andb_true_iff in Hm as [Hm1 Hm2].
  apply IH; [|done]. apply matched_step; [done|].
  cbn [well_matched]. by rewrite Hm1.
Qed.

Lemma well_matched_take fuel cfg k calls w :
  well_matched fuel cfg calls w = true →
  well_matched fuel cfg (take k calls) w = true.
Proof.
  revert k w. induction calls as [|c calls IH]; intros [|k] w Hm; try done.
  cbn [take well_matched] in *. apply andb_true_iff in Hm as [-> Hm2].
  by apply IH.
Qed.

End semaphore_facts.

(** ** The admission controller under overlapping calls *)

Module process_facts.
Import DownloadSemaphore.

Lemma run_then {A B} (t : thread A) (k : A → thread B) w :
  run_thread (then_ t k) w = bind (run_thread t) (λ a, run_thread (k a)) w.
Proof.
  revert w. induction t as [a|e|X c k' IH]; intros w; cbn [then_ run_thread].
  - reflexivity.
  - reflexivity.
  - unfold bind. destruct (exec c w) as [[x|e] w']; [|reflexivity].
    rewrite IH. reflexivity.
Qed.

Lemma run_perform {X} (c : command X) w : run_thread (perform c) w = exec c w.
Proof.
  unfold perform. cbn [run_thread]. unfold bind, ret.
  by destruct (exec c w) as [[x|e] w'].
Qed.

Lemma bind_cong {A B} (m m' : M A) (k k' : A → M B) w :
  (∀ w, m w = m' w) → (∀ a w', k a w' = k' a w') → bind m k w = bind m' k' w.
Proof.
  intros Hm Hk. unfold bind. rewrite Hm.
  destruct (m' w) as [[a|e] w']; [apply Hk|done].
Qed.

Ltac run_alone :=
  repeat (intros; cbv beta;
    first [ reflexivity
          | apply run_perform
          | rewrite run_then; apply bind_cong
          | match goal with
            | |- context [if ?b then _ else _] => destruct b
            end ]).

Lemma acquire_round_alone cfg job_id timeout start w :
  run_thread (Steps.acquire_round cfg job_id timeout start) w
    = acquire_round cfg job_id timeout start w.
Proof. unfold Steps.acquire_round, acquire_round. run_alone. Qed.

Lemma acquire_loop_alone fuel cfg job_id timeout start w :
  run_thread (Steps.acquire_loop fuel cfg job_id timeout start) w
    = acquire_loop fuel cfg job_id timeout start w.
Proof.
  revert w. induction fuel as [|fuel IH]; intros w; [reflexivity|].
  cbn [Steps.acquire_loop acquire_loop]. rewrite run_then.
  apply bind_cong; [apply acquire_round_alone|].
  intros [b|] w'; [reflexivity|apply IH].
Qed.

(** A call run alone, command after command, is the call of the class. *)
Lemma acquire_alone fuel cfg job_id timeout w :
  run_thread (Steps.acquire fuel cfg job_id timeout) w
    = acquire fuel cfg job_id timeout w.
Proof.
  unfold Steps.acquire, acquire. rewrite run_then.
  apply bind_cong; [apply run_perform|]. intros start w'. apply acquire_loop_alone.
Qed.

Lemma release_alone job_id w :
  run_thread (Steps.release job_id) w = release job_id w.
Proof. unfold Steps.release, release. run_alone. Qed.

(** The commands of a call served without a break: the call run alone. *)
Lemma steps_alone {A} (t : thread A) w :
  ∃ n, Nat.iter n (λ s, step s.1 s.2) (t, w)
       = (match outcome (run_thread t) w with
          | Ok a => Returned a
          | Raise e => Raised e
          end, after (run_thread t) w).
Proof.
  revert w. induction t as [a|e|X c k IH]; intros w.
  - by exists 0%nat.
  - by exists 0%nat.
  - destruct (exec c w) as [[x|e] w1] eqn:E.
    + destruct (IH x w1) as [n Hn]. exists (S n).
      rewrite Nat.iter_succ_r. cbn [step fst snd]. rewrite E, Hn.
      unfold outcome, after. cbn [run_thread]. unfold bind. by rewrite E.
    + exists 1%nat. cbn [Nat.iter nat_rect step fst snd]. rewrite E.
      unfold outcome, after. cbn [run_thread]. unfold bind. by rewrite E.
Qed.

Lemma advance_alone fuel cfg n i pool w t :
  pool !! i = Some t →
  run_moves fuel cfg (replicate n (Advance i)) (w, pool)
    = ((Nat.iter n (λ s, step_task s.1 s.2) (t, w)).2,
       <[i := (Nat.iter n (λ s, step_task s.1 s.2) (t, w)).1]> pool).
Proof.
  revert pool w t. induction n as [|n IH]; intros pool w t Hi.
  - cbn [replicate run_moves foldl Nat.iter nat_rect fst snd].
    by rewrite list_insert_id.
  - rewrite Nat.iter_succ_r. cbn [replicate run_moves foldl run_move fst snd].
    rewrite Hi. destruct (step_task t w) as [t1 w1] eqn:E.
    fold (run_moves fuel cfg (replicate n (Advance i)) (w1, <[i := t1]> pool)).
    rewrite (IH _ w1 t1).
    + by rewrite list_insert_insert_eq.
    + apply list_lookup_insert_eq. by eapply lookup_lt_Some.
Qed.

Lemma acquiring_alone n (t : thread (option bool)) w :
  Nat.iter n (λ s, step_task s.1 s.2) (Acquiring t, w)
    = (Acquiring (Nat.iter n (λ s, step s.1 s.2) (t, w)).1,
       (Nat.iter n (λ s, step s.1 s.2) (t, w)).2).
Proof.
  induction n as [|n IH]; [done|]. rewrite !Nat.iter_succ, IH.
  cbn [fst snd step_task]. by destruct (step _ _).
Qed.

Lemma releasing_alone n (t : thread unit) w :
  Nat.iter n (λ s, step_task s.1 s.2) (Releasing t, w)
    = (Releasing (Nat.iter n (λ s, step s.1 s.2) (t, w)).1,
       (Nat.iter n (λ s, step s.1 s.2) (t, w)).2).
Proof.
  induction n as [|n IH]; [done|]. rewrite !Nat.iter_succ, IH.
  cbn [fst snd step_task]. by destruct (step _ _).
Qed.

(** A call begun and run to its end while no other command is served does
    what the call of the class does. *)
Lemma call_alone fuel cfg c w pool :
  ∃ n t,
    run_moves fuel cfg (Begin c :: replicate n (Advance (length pool))) (w, pool)
      = (run_call fuel cfg c w, pool ++ [t])
    ∧ finished t = true.
Proof.
  assert (Hi : ∀ t : task, (pool ++ [t]) !! length pool = Some t).
  { intros t. rewrite lookup_app_r by lia. by rewrite Nat.sub_diag. }
  assert (Hin : ∀ t t' : task, <[length pool := t']> (pool ++ [t]) = pool ++ [t']).
  { intros t t'. rewrite insert_app_r_alt by lia. by rewrite Nat.sub_diag. }
  destruct c as [job_id timeout|job_id]; cbn [run_call].
  - destruct (steps_alone (Steps.acquire (S fuel) cfg job_id timeout) w)
      as [n Hn].
    exists n. eexists. split.
    + cbn [run_moves foldl run_move begin fst snd].
      fold (run_moves fuel cfg (replicate n (Advance (length pool)))
              (w, pool ++ [Acquiring (Steps.acquire (S fuel) cfg job_id timeout)])).
      rewrite (advance_alone _ _ _ _ _ _ _ (Hi _)), acquiring_alone, Hn.
      cbn [fst snd]. rewrite Hin. unfold after. by rewrite acquire_alone.
    + unfold outcome. rewrite acquire_alone.
      pose proof (semaphore_facts.acquire_finishes fuel cfg job_id timeout w)
        as Hfin.
      unfold outcome in Hfin.
      by destruct (acquire (S fuel) cfg job_id timeout w).1 as [[b|]|e].
  - destruct (steps_alone (Steps.release job_id) w) as [n Hn].
    exists n. eexists. split.
    + cbn [run_moves foldl run_move begin fst snd].
      fold (run_moves fuel cfg (replicate n (Advance (length pool)))
              (w, pool ++ [Releasing (Steps.release job_id)])).
      rewrite (advance_alone _ _ _ _ _ _ _ (Hi _)), releasing_alone, Hn.
      cbn [fst snd]. rewrite Hin. unfold after. by rewrite release_alone.
    + by destruct (outcome _ _).
Qed.

(** Calls made in turn are among the overlapping ones: some moves take the
    world where [run_calls] takes it, through quiescent points. *)
Lemma calls_in_turn fuel cfg calls w pool :
  quiescent (w, pool) = true →
  ∃ moves pool',
    run_moves fuel cfg moves (w, pool) = (run_calls fuel cfg calls w, pool')
    ∧ quiescent (run_calls fuel cfg calls w, pool') = true.
Proof.
  revert w pool. induction calls as [|c calls IH]; intros w pool Hq.
  - by exists [], pool.
  - destruct (call_alone fuel cfg c w pool) as (n & t & Hrun & Hfin).
    destruct (IH (run_call fuel cfg c w) (pool ++ [t])) as (moves & pool' & Hr & Hq').
    { unfold quiescent in *. cbn [snd] in *. rewrite forallb_app, Hq.
      cbn [forallb]. by rewrite Hfin. }
    exists ((Begin c :: replicate n (Advance (length pool))) ++ moves), pool'.
    split; [|done]. unfold run_moves in *. by rewrite foldl_app, Hrun, Hr.
Qed.

(** One command of one call. *)
Ltac serve :=
  unfold Steps.acquire, Steps.release;
  cbn [step_task step then_ perform exec Steps.acquire_loop Steps.acquire_round
       owed due clamping decr_next sadd_next set_next matched_task matched_next];
  unfold time.time, time.sleep, redis.incr, redis.decr, redis.set_, redis.sadd,
         redis.srem, redis.lrem, redis.lfrompop, gets, modify, raise.

Lemma form_step cfg t w :
  form cfg t → form cfg (step_task t w).1.
Proof.
  intros Hf. destruct Hf as [fuel j tm|fuel j tm st|j|j|k Hk|k| |e|j| | |]; serve;
    cbn [fst]; try by constructor.
  - destruct (_ <=? _); [apply form_granted|].
    apply form_rejected. intros x. eexists. reflexivity.
  - destruct (Hk (redis.int_at (store w) count_key - 1)) as [k' ->].
    apply form_enqueue.
  - destruct (_ <? _); [apply form_clamp|apply form_released].
Qed.

(** What one command does to the counter, with the DECRBY that the call is
    about to send. *)
Lemma counter_step cfg t w :
  0 ≤ MAX_CONCURRENT_DOWNLOADS cfg →
  form cfg t →
  let t' := (step_task t w).1 in
  let w' := (step_task t w).2 in
  active_count w' - Z.of_nat (owed t') ≤ active_count w - Z.of_nat (owed t)
  ∨ (active_count w' ≤ MAX_CONCURRENT_DOWNLOADS cfg ∧ owed t' = 0%nat).
Proof.
  intros HN Hf. destruct Hf as [fuel j tm|fuel j tm st|j|j|k Hk|k| |e|j| | |];
    serve; cbn [fst snd]; db_simpl; map_simpl; try (left; cbn; lia).
  - destruct (_ <=? _) eqn:E; cbn [then_ owed decr_next].
    + apply Z.leb_le in E. by right.
    + left. lia.
  - by right.
Qed.

(** What one matched command does to the counter and the active set, with
    the DECRBY or the SADD that the call is about to send. *)
Lemma balance_step cfg t w :
  form cfg t →
  matched_task t w = true →
  clamping t = false →
  Z.of_nat (owed t) ≤ active_count w →
  let t' := (step_task t w).1 in
  let w' := (step_task t w).2 in
  clamping t' = false
  ∧ active_count w' - Z.of_nat (size (active_set w'))
      - Z.of_nat (owed t') - Z.of_nat (due t')
    = active_count w - Z.of_nat (size (active_set w))
      - Z.of_nat (owed t) - Z.of_nat (due t).
Proof.
  intros Hf. destruct Hf as [fuel j tm|fuel j tm st|j|j|k Hk|k| |e|j| | |];
    serve; cbn [fst snd]; db_simpl; map_simpl; intros Hm Hc Hp;
    try (split; [done|cbn; lia]).
  - destruct (_ <=? _);
      cbn [then_ clamping owed due set_next decr_next sadd_next];
      (split; [done|lia]).
  - apply bool_decide_eq_true in Hm. split; [done|].
    rewrite size_union by set_solver. rewrite size_singleton.
    cbn [owed due decr_next sadd_next]. lia.
  - destruct (Hk (default 0 (ints (store w) !! count_key) - 1)) as [k' ->].
    cbn [clamping owed due set_next decr_next sadd_next]. split; [done|lia].
  - apply bool_decide_eq_true in Hm. split; [done|].
    rewrite size_difference by set_solver. rewrite size_singleton.
    assert (size (default ∅ (sets (store w) !! active_key)) ≠ 0%nat).
    { intros H0. apply size_empty_inv in H0. set_solver. }
    cbn [owed due decr_next sadd_next]. lia.
  - destruct (_ <? _) eqn:E; [apply Z.ltb_lt in E; cbn in Hp; lia|].
    cbn [then_ clamping owed due set_next decr_next sadd_next].
    split; [done|lia].
Qed.

(** The calls in a pool, counted. *)
Lemma sum_insert {A} (f : A → nat) (l : list A) i t t' :
  l !! i = Some t →
  (sum_list_with f (<[i := t']> l) + f t = sum_list_with f l + f t')%nat.
Proof.
  revert i. induction l as [|a l IH]; intros [|i] Hi; try done.
  - simpl in Hi. injection Hi as ->. simpl. lia.
  - simpl in *. specialize (IH i Hi). lia.
Qed.

Lemma sum_lookup {A} (f : A → nat) (l : list A) i t :
  l !! i = Some t → (f t ≤ sum_list_with f l)%nat.
Proof.
  revert i. induction l as [|a l IH]; intros [|i] Hi; try done.
  - simpl in Hi. injection Hi as ->. simpl. lia.
  - simpl in *. specialize (IH i Hi). lia.
Qed.

Lemma sum_finished (f : task → nat) (l : list task) :
  (∀ t, finished t = true → f t = 0%nat) →
  forallb finished l = true → sum_list_with f l = 0%nat.
Proof.
  intros Hf. induction l as [|t l IH]; [done|]. cbn [forallb sum_list_with].
  intros [Ht Hl]%andb_true_iff. rewrite (Hf t Ht), IH; done.
Qed.

Lemma finished_owed t : finished t = true → owed t = 0%nat.
Proof. by destruct t as [[| |]|[| |]]. Qed.

Lemma finished_due t : finished t = true → due t = 0%nat.
Proof. by destruct t as [[| |]|[| |]]. Qed.

Lemma form_begin fuel cfg c : form cfg (begin fuel cfg c).
Proof. destruct c; constructor. Qed.

Lemma begin_weights fuel cfg c :
  owed (begin fuel cfg c) = 0%nat ∧ due (begin fuel cfg c) = 0%nat
  ∧ clamping (begin fuel cfg c) = false.
Proof. by destruct c. Qed.

(** The counter under overlapping calls: it is within the limit whenever
    no corrective DECRBY is about to be served. *)
Lemma bounded_move fuel cfg m s :
  0 ≤ MAX_CONCURRENT_DOWNLOADS cfg →
  bounded cfg s → bounded cfg (run_move fuel cfg m s).
Proof.
  intros HN [Hf Hb]. destruct s as [w pool]. cbn [fst snd] in *.
  destruct m as [c|i]; cbn [run_move fst snd].
  - split; cbn [fst snd].
    + apply Forall_app. split; [done|]. apply Forall_singleton, form_begin.
    + rewrite sum_list_with_app. cbn [sum_list_with].
      destruct (begin_weights fuel cfg c) as (-> & _). lia.
  - destruct (pool !! i) as [t|] eqn:Hi; [|by split].
    assert (Ht : form cfg t) by (eapply Forall_lookup_1; done).
    pose proof (form_step cfg t w Ht) as Hf'.
    pose proof (counter_step cfg t w HN Ht) as Hs.
    pose proof (sum_insert owed pool i t (step_task t w).1 Hi) as Hsum.
    destruct (step_task t w) as [t' w']. cbn [fst snd] in *.
    split; cbn [fst snd].
    + by apply Forall_insert.
    + lia.
Qed.

Lemma bounded_run fuel cfg moves s :
  0 ≤ MAX_CONCURRENT_DOWNLOADS cfg →
  bounded cfg s → bounded cfg (run_moves fuel cfg moves s).
Proof.
  intros HN. revert s. induction moves as [|m moves IH]; intros s Hs; [done|].
  apply IH, bounded_move; done.
Qed.

(** On matched commands the counter is the size of the active set, plus
    the calls that are between their two commands on the ledger. *)
Lemma balanced_move fuel cfg m s :
  balanced cfg s → matched_moves fuel cfg [m] s = true →
  balanced cfg (run_move fuel cfg m s).
Proof.
  intros (Hf & Hc & Hb) Hm. destruct s as [w pool]. cbn [fst snd] in *.
  cbn [matched_moves] in Hm. rewrite andb_true_r in Hm.
  destruct m as [c|i]; cbn [run_move fst snd] in *.
  - destruct (begin_weights fuel cfg c) as (Ho & Hd & Hcl).
    split; [|split]; cbn [fst snd].
    + apply Forall_app. split; [done|]. apply Forall_singleton, form_begin.
    + apply Forall_app. split; [done|]. by apply Forall_singleton.
    + rewrite !sum_list_with_app. cbn [sum_list_with]. rewrite Ho, Hd. lia.
  - destruct (pool !! i) as [t|] eqn:Hi; [|by repeat split].
    assert (Ht : form cfg t) by (eapply Forall_lookup_1; done).
    assert (Hct : clamping t = false)
      by (eapply (Forall_lookup_1 (λ t, clamping t = false)); done).
    pose proof (form_step cfg t w Ht) as Hf'.
    pose proof (sum_lookup owed pool i t Hi) as Hle.
    assert (Hp : Z.of_nat (owed t) ≤ active_count w) by lia.
    pose proof (balance_step cfg t w Ht Hm Hct Hp) as [Hc' Hs].
    pose proof (sum_insert owed pool i t (step_task t w).1 Hi) as Hso.
    pose proof (sum_insert due pool i t (step_task t w).1 Hi) as Hsd.
    destruct (step_task t w) as [t' w']. cbn [fst snd] in *.
    split; [|split]; cbn [fst snd].
    + by apply Forall_insert.
    + by apply Forall_insert.
    + lia.
Qed.

Lemma balanced_run fuel cfg moves s :
  balanced cfg s → matched_moves fuel cfg moves s = true →
  balanced cfg (run_moves fuel cfg moves s).
Proof.
  revert s. induction moves as [|m moves IH]; intros s Hs Hm; [done|].
  cbn [matched_moves] in Hm. apply andb_true_iff in Hm as [Hm1 Hm2].
  apply IH; [|done]. apply balanced_move; [done|].
  cbn [matched_moves]. by rewrite Hm1.
Qed.

(** Overlapping calls take the counter below 0: with both slots held by A
    and B, [acquire("C")] has its INCRBY served (3); three [release] calls
    run to their ends (2, 1, 0, none of them below 0); then the DECRBY of
    [acquire("C")] is served. Every call is over and the counter is -1. *)
Lemma overlap_below_zero :
  let w0 := after DownloadSemaphore.reset fresh_world in
  let moves :=
    [Begin (Acquire "A" 300); Advance 0; Advance 0; Advance 0; Advance 0;
     Begin (Acquire "B" 300); Advance 1; Advance 1; Advance 1; Advance 1;
     Begin (Acquire "C" 300); Advance 2; Advance 2;
     Begin (Release "A"); Advance 3; Advance 3;
     Begin (Release "B"); Advance 4; Advance 4;
     Begin (Release "X"); Advance 5; Advance 5;
     Advance 2; Advance 2] in
  let s := run_moves 0 default_config moves (w0, []) in
  quiescent s = true
  ∧ s.2 = [Acquiring (Returned (Some true)); Acquiring (Returned (Some true));
           Acquiring (Raised AttributeError);
           Releasing (Returned tt); Releasing (Returned tt);
           Releasing (Returned tt)]
  ∧ active_count s.1 = -1
  ∧ active_set s.1 = ∅.
Proof. vm_compute. repeat split. Qed.

End process_facts.

(** C1, as amended. Calls of [acquire] and [release] that overlap in any
    way, their commands served one at a time, from a ledger whose counter
    is at most the limit N (N not below 0): at every quiescent point (every
    call begun so far has returned or raised) the counter [active_count] is
    at most N; and it equals the size of the active set when it did so at
    the start and, up to that point, every SADD served added a job that was
    not in the active set and every SREM served removed one that was in
    it. *)
Theorem C1_admission_bound fuel cfg moves w0 k :
  0 ≤ MAX_CONCURRENT_DOWNLOADS cfg →
  DownloadSemaphore.active_count w0 ≤ MAX_CONCURRENT_DOWNLOADS cfg →
  let s := run_moves fuel cfg (take k moves) (w0, []) in
  quiescent s = true →
  DownloadSemaphore.active_count s.1 ≤ MAX_CONCURRENT_DOWNLOADS cfg
  ∧ (DownloadSemaphore.active_count w0
       = Z.of_nat (size (DownloadSemaphore.active_set w0)) →
     matched_moves fuel cfg (take k moves) (w0, []) = true →
     DownloadSemaphore.active_count s.1
       = Z.of_nat (size (DownloadSemaphore.active_set s.1))).
Proof.
  intros HN Hb s Hq. split.
  - destruct (process_facts.bounded_run fuel cfg (take k moves) (w0, []) HN)
      as [_ Hs].
    { split; [by apply Forall_nil|]. cbn [fst snd sum_list_with]. lia. }
    fold s in Hs.
    rewrite (process_facts.sum_finished owed s.2 process_facts.finished_owed Hq)
      in Hs.
    lia.
  - intros Hc Hm.
    destruct (process_facts.balanced_run fuel cfg (take k moves) (w0, []))
      as (_ & _ & Hs); [|done|].
    { split; [by apply Forall_nil|]. split; [by apply Forall_nil|].
      cbn [fst snd sum_list_with]. lia. }
    fold s in Hs.
    rewrite (process_facts.sum_finished owed s.2 process_facts.finished_owed Hq),
            (process_facts.sum_finished due s.2 process_facts.finished_due Hq)
      in Hs.
    lia.
Qed.

Lemma C1_admission_bound_witness :
  let w0 := after DownloadSemaphore.reset fresh_world in
  let moves :=
    [Begin (Acquire "A" 300); Begin (Acquire "B" 300); Begin (Acquire "C" 0);
     Advance 0; Advance 1; Advance 2;
     Advance 0; Advance 1; Advance 2;
     Advance 1; Advance 0; Advance 2;
     Advance 0; Advance 2; Advance 1;
     Begin (Release "A"); Advance 3;
     Begin (Acquire "D" 300); Advance 4; Advance 4;
     Advance 3; Advance 4; Advance 4;
     Begin (Release "B")] in
  let s := run_moves 0 default_config (take 23 moves) (w0, []) in
  (0 ≤ 2
   ∧ DownloadSemaphore.active_count w0 ≤ 2
   ∧ quiescent s = true
   ∧ DownloadSemaphore.active_count w0
       = Z.of_nat (size (DownloadSemaphore.active_set w0))
   ∧ matched_moves 0 default_config (take 23 moves) (w0, []) = true)
  ∧ DownloadSemaphore.active_count s.1 ≤ 2
  ∧ DownloadSemaphore.active_count s.1
      = Z.of_nat (size (DownloadSemaphore.active_set s.1)).
Proof.
  intros w0 moves s.
  assert (H0 : 0 ≤ MAX_CONCURRENT_DOWNLOADS default_config)
    by (vm_compute; discriminate).
  assert (H1 : DownloadSemaphore.active_count w0
                 ≤ MAX_CONCURRENT_DOWNLOADS default_config)
    by (vm_compute; discriminate).
  assert (H2 : quiescent s = true) by (vm_compute; reflexivity).
  assert (H3 : DownloadSemaphore.active_count w0
                 = Z.of_nat (size (DownloadSemaphore.active_set w0)))
    by (vm_compute; reflexivity).
  assert (H4 : matched_moves 0 default_config (take 23 moves) (w0, []) = true)
    by (vm_compute; reflexivity).
  split; [by repeat split|].
  destruct (C1_admission_bound 0 default_config moves w0 23 H0 H1 H2)
    as [Hb He].
  split; [exact Hb|exact (He H3 H4)].
Defined.

(** C1, as stated, fails: after [acquire("A")] and a [release("B")] of a job
    that holds no slot, the counter is 0 while the active set still has one
    member. *)
Lemma C1_counterexample :
  let w := run_calls 0 default_config [Acquire "A" 300; Release "B"]
             (after DownloadSemaphore.reset fresh_world) in
  ¬ (DownloadSemaphore.active_count w ≤ 2
     ∧ DownloadSemaphore.active_count w
         = Z.of_nat (size (DownloadSemaphore.active_set w))).
Proof. intros w [_ H]. vm_compute in H. discriminate H. Qed.

(** C2, on the code. With limit 2 and the slots held by A and B,
    [acquire("C", 0)] ends its first round by raising AttributeError, at the
    call of [redis.lfrompop]: it returns nothing, the counter is back at 2 and
    C is not in the queue. After [release("A")] the counter is 1 and
    [acquire("C")] is granted. *)
Theorem C2_scenario_A_acquire_raises :
  let cfg := default_config in
  let w0 := after DownloadSemaphore.reset fresh_world in
  let wA := after (DownloadSemaphore.acquire 300 cfg "A" 300) w0 in
  let wB := after (DownloadSemaphore.acquire 300 cfg "B" 300) wA in
  let wC := after (DownloadSemaphore.acquire 300 cfg "C" 0) wB in
  let wR := after (DownloadSemaphore.release "A") wC in
  MAX_CONCURRENT_DOWNLOADS cfg = 2
  ∧ outcome (DownloadSemaphore.acquire 300 cfg "A" 300) w0 = Ok (Some true)
  ∧ outcome (DownloadSemaphore.acquire 300 cfg "B" 300) wA = Ok (Some true)
  ∧ DownloadSemaphore.active_count wB = 2
  ∧ outcome (DownloadSemaphore.acquire 300 cfg "C" 0) wB = Raise AttributeError
  ∧ DownloadSemaphore.active_count wC = 2
  ∧ DownloadSemaphore.queue wC = []
  ∧ DownloadSemaphore.active_count wR = 1
  ∧ outcome (DownloadSemaphore.acquire 300 cfg "C" 300) wR = Ok (Some true).
Proof. vm_compute. repeat split. Qed.

(** C5. After every one of any number of [release] calls, from any ledger,
    the stored counter is at least 0: a [release] leaves the counter at
    [max 0 (counter - 1)], so a value that would be negative is put back to
    zero. *)
Theorem C5_no_negative_ledger (w : world) (job_ids : list string) :
  Forall (λ w', 0 ≤ DownloadSemaphore.active_count w') (release_trace job_ids w)
  ∧ ∀ job_id,
      DownloadSemaphore.active_count (after (DownloadSemaphore.release job_id) w)
        = Z.max 0 (DownloadSemaphore.active_count w - 1).
Proof.
  split.
  - revert w. induction job_ids as [|job_id job_ids IH]; intros w; cbn [release_trace].
    + constructor.
    + constructor; [|apply IH].
      destruct (semaphore_facts.release_run job_id w) as (_ & -> & _). lia.
  - intros job_id. by destruct (semaphore_facts.release_run job_id w) as (_ & -> & _).
Qed.

(** ** The job store *)

Module job_facts.

Lemma convert_field_alter job_data field :
  convert_field job_data field = alter (convert_value field) field job_data.
Proof.
  apply map_eq. intros f. unfold convert_field, convert_value.
  rewrite lookup_alter.
  destruct (job_data !! field) as [v|] eqn:Hv.
  - destruct (String.eqb field "progress").
    + destruct (py_float v) eqn:E; case_decide; subst; rewrite ?Hv; cbn;
        rewrite ?lookup_insert_eq, ?lookup_insert_ne, ?E by done; done.
    + destruct (py_int v) eqn:E; case_decide; subst; rewrite ?Hv; cbn;
        rewrite ?lookup_insert_eq, ?lookup_insert_ne, ?E by done; done.
  - case_decide; subst; by rewrite ?Hv.
Qed.

Lemma decode_job_lookup h f :
  decode_job h !! f = decode_value f <$> h !! f.
Proof.
  unfold decode_job, numeric_fields. cbn [foldl].
  rewrite !convert_field_alter. unfold decode_value, numeric_fields.
  destruct (decide (f = "retry_count")) as [->|?];
    [by rewrite lookup_alter_eq, !lookup_alter_ne, lookup_fmap, <- option_fmap_compose by done|].
  rewrite lookup_alter_ne by done.
  destruct (decide (f = "updated_at")) as [->|?];
    [by rewrite lookup_alter_eq, !lookup_alter_ne, lookup_fmap, <- option_fmap_compose by done|].
  rewrite lookup_alter_ne by done.
  destruct (decide (f = "created_at")) as [->|?];
    [by rewrite lookup_alter_eq, !lookup_alter_ne, lookup_fmap, <- option_fmap_compose by done|].
  rewrite lookup_alter_ne by done.
  destruct (decide (f = "progress")) as [->|?];
    [by rewrite lookup_alter_eq, lookup_fmap, <- option_fmap_compose by done|].
  rewrite lookup_alter_ne, lookup_fmap by done.
  rewrite bool_decide_eq_false_2; [done|]. intros H.
  repeat (apply elem_of_cons in H as [?|H]; [done|]). by apply elem_of_nil in H.
Qed.

Lemma get_job_run job_id w :
  get_job job_id w = (Ok (read_job (store w) job_id), w).
Proof.
  unfold get_job, read_job, redis.hgetall. run_py.
  by destruct (bool_decide _).
Qed.

Lemma key_exists_hash r name :
  redis.hash_at r name ≠ ∅ → redis.key_exists r name = true.
Proof.
  intros H. unfold redis.key_exists. by rewrite (bool_decide_eq_true_2 _ H).
Qed.

Lemma key_exists_no_hash r name :
  redis.key_exists r name = false → redis.hash_at r name = ∅.
Proof.
  unfold redis.key_exists. intros H.
  destruct (decide (redis.hash_at r name = ∅)) as [|Hne]; [done|].
  by rewrite (bool_decide_eq_true_2 _ Hne) in H.
Qed.

Lemma read_job_None r job_id :
  redis.key_exists r (JOB_PREFIX +:+ job_id) = false → read_job r job_id = None.
Proof.
  intros H. unfold read_job. by rewrite (key_exists_no_hash _ _ H).
Qed.

(** [update_job] on a key that does not exist. *)
Lemma update_job_absent job_id updates w :
  redis.key_exists (store w) (JOB_PREFIX +:+ job_id) = false →
  update_job job_id updates w = (Ok false, w).
Proof.
  intros H. unfold update_job, redis.exists_. run_py. by rewrite H.
Qed.

(** [update_job] on a key that exists, with values that can be sent. *)
Lemma update_job_present job_id updates w :
  redis.key_exists (store w) (JOB_PREFIX +:+ job_id) = true →
  map_Forall (λ _ v, v ≠ PNone) updates →
  ∃ w', update_job job_id updates w = (Ok true, w')
    ∧ hashes (store w') =
        <[JOB_PREFIX +:+ job_id :=
            (py_str <$> <["updated_at" := PInt (Z.quot (clock w) 1000)]> updates)
            ∪ redis.hash_at (store w) (JOB_PREFIX +:+ job_id)]> (hashes (store w))
    ∧ lists (store w') = lists (store w)
    ∧ sets (store w') = sets (store w)
    ∧ ints (store w') = ints (store w)
    ∧ disk w' = disk w ∧ clock w' = clock w
    ∧ stdout w' = stdout w ∧ sent w' = sent w.
Proof.
  intros H Hup. unfold update_job, redis.exists_, time.int_time, redis.hset, redis.expire.
  run_py. rewrite H. cbn [Z.eqb]. unfold redis.encode_mapping.
  rewrite bool_decide_eq_true_2 by (by apply map_Forall_insert_2). cbn [fst snd].
  destruct (redis.key_exists (store (set_store _ _)) _);
    eexists; (split; [reflexivity|]); db_simpl; done.
Qed.

Lemma delete_job_run job_id w :
  ∃ w', delete_job job_id w
          = (Ok (redis.key_exists (store w) (JOB_PREFIX +:+ job_id)), w')
    ∧ hashes (store w') = delete (JOB_PREFIX +:+ job_id) (hashes (store w))
    ∧ redis.list_at (store w') JOBS_LIST_KEY
        = filter (λ x, x ≠ job_id) (redis.list_at (store w) JOBS_LIST_KEY)
    ∧ redis.key_exists (store w') (JOB_PREFIX +:+ job_id) = false
    ∧ disk w' = disk w ∧ clock w' = clock w
    ∧ stdout w' = stdout w ∧ sent w' = sent w.
Proof.
  unfold delete_job, redis.delete, redis.lrem. run_py. eexists. split.
  - by destruct (redis.key_exists _ _).
  - unfold redis.key_exists. db_simpl. map_simpl. repeat split; done.
Qed.

End job_facts.

(** C7. [update_job] on an id with no key in the store returns False and
    leaves the whole world as it was: nothing is created, [get_job] still
    finds no record. *)
Theorem C7_update_absent_no_upsert (job_id : string) (updates : pydict) (w : world) :
  redis.key_exists (store w) (JOB_PREFIX +:+ job_id) = false →
  update_job job_id updates w = (Ok false, w)
  ∧ outcome (get_job job_id) (after (update_job job_id updates) w) = Ok None.
Proof.
  intros H. unfold outcome, after.
  rewrite (job_facts.update_job_absent _ _ _ H). split; [done|].
  cbn [snd]. rewrite job_facts.get_job_run. cbn [fst].
  by rewrite (job_facts.read_job_None _ _ H).
Qed.

Lemma C7_update_absent_no_upsert_witness :
  redis.key_exists (store fresh_world) (JOB_PREFIX +:+ "ghost") = false
  ∧ update_job "ghost" {[ "progress" := PInt 50 ]} fresh_world = (Ok false, fresh_world)
  ∧ outcome (get_job "ghost")
      (after (update_job "ghost" {[ "progress" := PInt 50 ]}) fresh_world) = Ok None.
Proof.
  split; [reflexivity|].
  apply (C7_update_absent_no_upsert "ghost" {[ "progress" := PInt 50 ]} fresh_world).
  reflexivity.
Defined.

(** C10. [delete_job] takes every occurrence of the id out of the recency
    index [jobs:all] whether a record exists or not; it returns whether the
    key existed, so False when there was no record; afterwards the id is not
    in the index and no record is left. *)
Theorem C10_delete_job_cleans_index (job_id : string) (w : world) :
  let w' := after (delete_job job_id) w in
  outcome (delete_job job_id) w
    = Ok (redis.key_exists (store w) (JOB_PREFIX +:+ job_id))
  ∧ redis.list_at (store w') JOBS_LIST_KEY
      = filter (λ x, x ≠ job_id) (redis.list_at (store w) JOBS_LIST_KEY)
  ∧ (job_id ∉ redis.list_at (store w') JOBS_LIST_KEY)
  ∧ read_job (store w') job_id = None.
Proof.
  intros w'. subst w'. unfold outcome, after.
  destruct (job_facts.delete_job_run job_id w) as (w' & -> & _ & Hl & Hk & _).
  cbn [fst snd]. repeat split; try done.
  - rewrite Hl. intros Hin%list_elem_of_filter. by destruct Hin.
  - by apply job_facts.read_job_None.
Qed.

Module update_facts.

Lemma decode_job_delete f h :
  delete f (decode_job h) = decode_job (delete f h).
Proof.
  apply map_eq. intros g. rewrite job_facts.decode_job_lookup.
  destruct (decide (f = g)) as [->|Hne].
  - by rewrite !lookup_delete_eq.
  - by rewrite !lookup_delete_ne, job_facts.decode_job_lookup.
Qed.

(** The fields that a second [update_job] with the same values writes
    are, [updated_at] apart, the fields that are there. *)
Lemma same_update_twice (updates : pydict) (t1 t2 : Z) (h : gmap string string) :
  let m1 := py_str <$> <["updated_at" := PInt t1]> updates in
  let m2 := py_str <$> <["updated_at" := PInt t2]> updates in
  delete "updated_at" (m2 ∪ (m1 ∪ h)) = delete "updated_at" (m1 ∪ h).
Proof.
  intros m1 m2. apply map_eq. intros f.
  destruct (decide ("updated_at" = f)) as [<-|Hne].
  - by rewrite !lookup_delete_eq.
  - rewrite !lookup_delete_ne, !lookup_union by done. subst m1 m2.
    rewrite !lookup_fmap, !lookup_insert_ne by done.
    by destruct (updates !! f), (h !! f).
Qed.

Lemma updated_non_empty (updates : pydict) (t : Z) (h : gmap string string) :
  (py_str <$> <["updated_at" := PInt t]> updates) ∪ h ≠ ∅.
Proof.
  apply map_positive_l_alt. rewrite fmap_insert. apply insert_non_empty.
Qed.

Lemma read_job_present r job_id h :
  redis.hash_at r (JOB_PREFIX +:+ job_id) = h → h ≠ ∅ →
  read_job r job_id = Some (decode_job h).
Proof.
  intros <- Hne. unfold read_job. by rewrite bool_decide_eq_false_2.
Qed.

End update_facts.

(** C9. [update_job(id, progress=50)] called twice, whatever the clock shows
    at the second call: the second call returns what the first returned, and
    after it the record that [get_job] reads, and the stored hash, are those
    after the first call in every field except [updated_at]; no other key of
    the store is touched. *)
Theorem C9_update_idempotent (job_id : string) (w : world) (t : Z) :
  let update := update_job job_id {[ "progress" := PInt 50 ]} in
  let w1 := after update w in
  let w2 := after update (set_clock (λ _, t) w1) in
  outcome update (set_clock (λ _, t) w1) = outcome update w
  ∧ delete "updated_at" <$> read_job (store w2) job_id
      = delete "updated_at" <$> read_job (store w1) job_id
  ∧ delete "updated_at" (redis.hash_at (store w2) (JOB_PREFIX +:+ job_id))
      = delete "updated_at" (redis.hash_at (store w1) (JOB_PREFIX +:+ job_id))
  ∧ delete (JOB_PREFIX +:+ job_id) (hashes (store w2))
      = delete (JOB_PREFIX +:+ job_id) (hashes (store w1))
  ∧ lists (store w2) = lists (store w1)
  ∧ sets (store w2) = sets (store w1)
  ∧ ints (store w2) = ints (store w1).
Proof.
  intros update w1 w2. subst update w1 w2. unfold outcome, after.
  destruct (redis.key_exists (store w) (JOB_PREFIX +:+ job_id)) eqn:Hk.
  - destruct (job_facts.update_job_present job_id {[ "progress" := PInt 50 ]} w Hk)
      as (w1 & -> & Hh1 & Hl1 & Hs1 & Hi1 & _).
    { by apply map_Forall_singleton. }
    cbn [fst snd].
    assert (Hat1 : redis.hash_at (store w1) (JOB_PREFIX +:+ job_id)
              = (py_str <$> <["updated_at" := PInt (Z.quot (clock w) 1000)]>
                   {[ "progress" := PInt 50 ]})
                ∪ redis.hash_at (store w) (JOB_PREFIX +:+ job_id)).
    { unfold redis.hash_at at 1. rewrite Hh1. by map_simpl. }
    assert (Hk1 : redis.key_exists (store (set_clock (λ _, t) w1))
                    (JOB_PREFIX +:+ job_id) = true).
    { apply job_facts.key_exists_hash. cbn [store set_clock]. rewrite Hat1.
      apply update_facts.updated_non_empty. }
    destruct (job_facts.update_job_present job_id {[ "progress" := PInt 50 ]} _ Hk1)
      as (w2 & -> & Hh2 & Hl2 & Hs2 & Hi2 & _).
    { by apply map_Forall_singleton. }
    cbn [fst snd store set_clock clock] in *.
    assert (Hat2 : redis.hash_at (store w2) (JOB_PREFIX +:+ job_id)
              = (py_str <$> <["updated_at" := PInt (Z.quot t 1000)]>
                   {[ "progress" := PInt 50 ]})
                ∪ redis.hash_at (store w1) (JOB_PREFIX +:+ job_id)).
    { unfold redis.hash_at at 1. rewrite Hh2. by map_simpl. }
    assert (Hdel : delete "updated_at" (redis.hash_at (store w2) (JOB_PREFIX +:+ job_id))
              = delete "updated_at" (redis.hash_at (store w1) (JOB_PREFIX +:+ job_id))).
    { rewrite Hat2, Hat1. apply update_facts.same_update_twice. }
    repeat split; try congruence.
    + rewrite (update_facts.read_job_present _ _ _ Hat2)
        by apply update_facts.updated_non_empty.
      rewrite (update_facts.read_job_present _ _ _ Hat1)
        by apply update_facts.updated_non_empty.
      cbn [fmap option_fmap option_map]. f_equal.
      rewrite !update_facts.decode_job_delete. rewrite <- Hat1, <- Hat2.
      by rewrite Hdel.
    + rewrite Hh2, Hh1. by rewrite !delete_insert_eq.
  - rewrite (job_facts.update_job_absent _ _ _ Hk). cbn [fst snd].
    rewrite (job_facts.update_job_absent _ _ (set_clock _ w)) by done.
    cbn [fst snd store set_clock]. done.
Qed.

(** ** The retry tracker *)

Module retry_facts.
Import RetryManager.

Lemma list_to_map_sendable (l : list (string * pyval)) :
  Forall (λ kv, kv.2 ≠ PNone) l →
  map_Forall (λ _ v, v ≠ PNone) (list_to_map l : pydict).
Proof.
  induction 1 as [|[k v] l Hv _ IH]; cbn [list_to_map foldr].
  - apply map_Forall_empty.
  - by apply map_Forall_insert_2.
Qed.

Lemma union_sendable (m1 m2 : pydict) :
  map_Forall (λ _ v, v ≠ PNone) m1 → map_Forall (λ _ v, v ≠ PNone) m2 →
  map_Forall (λ _ v, v ≠ PNone) (m1 ∪ m2).
Proof.
  intros H1 H2 k v [Hk|[_ Hk]]%lookup_union_Some_raw; eauto.
Qed.

Lemma job_defaults_sendable c u :
  map_Forall (λ _ v, v ≠ PNone) (job_defaults c u).
Proof. apply list_to_map_sendable. repeat constructor; done. Qed.

Lemma retry_job_data_lookup new orig params job n :
  let d := retry_job_data new orig params job n in
  d !! "job_id" = Some (PStr new)
  ∧ d !! "retry_count" = Some (PInt (n + 1))
  ∧ d !! "parent_job_id" = Some (PStr orig).
Proof. repeat split. Qed.

Lemma create_job_run job_data new w :
  job_data !! "job_id" = Some (PStr new) →
  map_Forall (λ _ v, v ≠ PNone) job_data →
  let now := Z.quot (clock w) 1000 in
  ∃ w', create_job job_data w = (Ok (PStr new), w')
    ∧ hashes (store w') =
        <[JOB_PREFIX +:+ new :=
            (py_str <$> (job_data ∪ job_defaults now now))
            ∪ redis.hash_at (store w) (JOB_PREFIX +:+ new)]> (hashes (store w))
    ∧ lists (store w') =
        <[JOBS_LIST_KEY := new :: redis.list_at (store w) JOBS_LIST_KEY]>
          (lists (store w))
    ∧ sets (store w') = sets (store w)
    ∧ ints (store w') = ints (store w)
    ∧ disk w' = disk w ∧ clock w' = clock w
    ∧ stdout w' = stdout w ∧ sent w' = sent w.
Proof.
  intros Hid Hok now. unfold create_job. rewrite Hid.
  unfold time.int_time, redis.hset, redis.lpush, redis.expire, redis.encode_mapping.
  run_py. fold now.
  rewrite bool_decide_eq_true_2
    by (apply union_sendable; [done|apply job_defaults_sendable]).
  cbn [fst snd redis_encode py_str].
  destruct (redis.key_exists (store (set_store _ _)) _);
    eexists; (split; [reflexivity|]); db_simpl; done.
Qed.


Lemma job_key_ne (a b : string) : a ≠ b → JOB_PREFIX +:+ a ≠ JOB_PREFIX +:+ b.
Proof. intros Hne [=]. done. Qed.

Lemma hash_at_other (r r' : redis_db) k k' h :
  hashes r' = <[k := h]> (hashes r) → k ≠ k' →
  redis.hash_at r' k' = redis.hash_at r k'.
Proof. intros Hh Hne. unfold redis.hash_at. by rewrite Hh, lookup_insert_ne. Qed.

Lemma hash_at_same (r r' : redis_db) k h :
  hashes r' = <[k := h]> (hashes r) → redis.hash_at r' k = h.
Proof. intros Hh. unfold redis.hash_at. by rewrite Hh, lookup_insert_eq. Qed.

Lemma read_job_Some r job_id job :
  read_job r job_id = Some job →
  redis.hash_at r (JOB_PREFIX +:+ job_id) ≠ ∅
  ∧ job = decode_job (redis.hash_at r (JOB_PREFIX +:+ job_id)).
Proof.
  unfold read_job. case_bool_decide; [done|]. by intros [= <-].
Qed.

(** A retry that goes through: what it returns and what it writes. *)
Lemma create_retry_job_success cfg uuid4 job_id params w job n :
  read_job (store w) job_id = Some job →
  py_int (dict_get_or job "retry_count" (PInt 0)) = Ok n →
  n < MAX_RETRIES cfg →
  map_Forall (λ _ v, v ≠ PNone) (retry_job_data uuid4 job_id params job n) →
  uuid4 ≠ job_id →
  let now := Z.quot (clock w) 1000 in
  ∃ w', create_retry_job cfg uuid4 job_id params w = (Ok (Some uuid4), w')
    ∧ redis.hash_at (store w') (JOB_PREFIX +:+ uuid4) =
        (py_str <$> (retry_job_data uuid4 job_id params job n ∪ job_defaults now now))
        ∪ redis.hash_at (store w) (JOB_PREFIX +:+ uuid4)
    ∧ redis.hash_at (store w') (JOB_PREFIX +:+ job_id) =
        (py_str <$> <["updated_at" := PInt now]> {[ "child_job_id" := PStr uuid4 ]})
        ∪ redis.hash_at (store w) (JOB_PREFIX +:+ job_id)
    ∧ redis.list_at (store w') JOBS_LIST_KEY
        = uuid4 :: redis.list_at (store w) JOBS_LIST_KEY.
Proof.
  intros Hjob Hn Hlt Hok Hne now. unfold create_retry_job. unfold bind at 1.
  rewrite job_facts.get_job_run, Hjob. unfold bind at 1, lift. rewrite Hn.
  rewrite (proj2 (Z.leb_gt _ _) Hlt).
  destruct (create_job_run _ uuid4 w (proj1 (retry_job_data_lookup _ _ _ _ _)) Hok)
    as (w1 & Hrun1 & Hh1 & Hl1 & _ & _ & _ & Hc1 & _).
  unfold bind at 1. rewrite Hrun1.
  pose proof (job_key_ne _ _ Hne) as Hk.
  destruct (read_job_Some _ _ _ Hjob) as [Hne0 _].
  destruct (job_facts.update_job_present job_id {[ "child_job_id" := PStr uuid4 ]} w1)
    as (w2 & Hrun2 & Hh2 & Hl2 & _).
  { apply job_facts.key_exists_hash. by rewrite (hash_at_other _ _ _ _ _ Hh1 Hk). }
  { by apply map_Forall_singleton. }
  unfold bind at 1. rewrite Hrun2. eexists. split; [reflexivity|].
  assert (Hk' : JOB_PREFIX +:+ job_id ≠ JOB_PREFIX +:+ uuid4) by (apply job_key_ne; congruence).
  split; [|split].
  - rewrite (hash_at_other _ _ _ _ _ Hh2 Hk'). apply (hash_at_same _ _ _ _ Hh1).
  - rewrite (hash_at_same _ _ _ _ Hh2), Hc1.
    by rewrite (hash_at_other _ _ _ _ _ Hh1 Hk).
  - unfold redis.list_at. rewrite Hl2, Hl1. by rewrite lookup_insert_eq.
Qed.


Lemma create_retry_job_exhausted cfg uuid4 job_id params w job n :
  read_job (store w) job_id = Some job →
  py_int (dict_get_or job "retry_count" (PInt 0)) = Ok n →
  MAX_RETRIES cfg ≤ n →
  create_retry_job cfg uuid4 job_id params w = (Ok None, w).
Proof.
  intros Hjob Hn Hge. unfold create_retry_job. unfold bind at 1.
  rewrite job_facts.get_job_run, Hjob. unfold bind at 1, lift. rewrite Hn.
  by rewrite (proj2 (Z.leb_le _ _) Hge).
Qed.

End retry_facts.

Module lineage_facts.
Import RetryManager.

Lemma decode_value_sendable f s : decode_value f s ≠ PNone.
Proof.
  unfold decode_value, convert_value.
  destruct (bool_decide _); [|done].
  destruct (String.eqb f "progress"); cbn [py_float py_int].
  - by destruct (float_of_text s).
  - by destruct (int_of_text s).
Qed.

Lemma read_job_field r job_id job f :
  read_job r job_id = Some job →
  job !! f = decode_value f <$> redis.hash_at r (JOB_PREFIX +:+ job_id) !! f.
Proof.
  intros [_ ->]%retry_facts.read_job_Some. apply job_facts.decode_job_lookup.
Qed.

Lemma read_job_sendable r job_id job f :
  read_job r job_id = Some job → is_Some (job !! f) → dict_get job f ≠ PNone.
Proof.
  intros Hjob [v Hv]. unfold dict_get. rewrite Hv. cbn [default from_option id].
  rewrite (read_job_field _ _ _ f Hjob) in Hv.
  destruct (redis.hash_at r _ !! f) as [s|]; [|done].
  injection Hv as <-. apply decode_value_sendable.
Qed.

Lemma field_of_hash w job_id f h :
  redis.hash_at (store w) (JOB_PREFIX +:+ job_id) = h → h ≠ ∅ →
  field_of w job_id f = decode_value f <$> h !! f.
Proof.
  intros Hh Hne. unfold field_of.
  rewrite (update_facts.read_job_present _ _ _ Hh Hne). cbn [mbind option_bind].
  apply job_facts.decode_job_lookup.
Qed.

Lemma lookup_non_empty (m : gmap string string) k v : m !! k = Some v → m ≠ ∅.
Proof. intros Hk ->. by rewrite lookup_empty in Hk. Qed.

End lineage_facts.

(** C4. For a record read with [status = error] and [retry_count = 2], with
    its five request fields, under [MAX_RETRIES = 3] and a fresh identifier
    [uuid4]: [can_retry] is True; [create_retry_job] returns the new id; the
    new record has [retry_count = 3] and [parent_job_id] the original id; the
    original record has [child_job_id] the new id and keeps its [status] and
    [error]; and [create_retry_job] on the new record returns None and
    writes nothing. *)
Theorem C4_retry_scenario_B (cfg : config) (uuid4 uuid5 job_id : string) (w : world) :
  MAX_RETRIES cfg = 3 →
  field_of w job_id "status" = Some (PStr "error") →
  field_of w job_id "retry_count" = Some (PInt 2) →
  Forall (λ f, is_Some (field_of w job_id f))
         ["url"; "platform"; "type"; "format"; "quality"] →
  uuid4 ≠ job_id →
  let retry := RetryManager.create_retry_job cfg uuid4 job_id None in
  let w' := after retry w in
  RetryManager.can_retry cfg job_id w = (Ok true, w)
  ∧ outcome retry w = Ok (Some uuid4)
  ∧ field_of w' uuid4 "retry_count" = Some (PInt 3)
  ∧ field_of w' uuid4 "parent_job_id" = Some (PStr job_id)
  ∧ field_of w' job_id "child_job_id" = Some (PStr uuid4)
  ∧ field_of w' job_id "status" = field_of w job_id "status"
  ∧ field_of w' job_id "error" = field_of w job_id "error"
  ∧ RetryManager.create_retry_job cfg uuid5 uuid4 None w' = (Ok None, w').
Proof.
  intros Hmax Hst Hrc Hreq Hne retry w'. subst retry w'.
  unfold field_of in Hst, Hrc, Hreq.
  destruct (read_job (store w) job_id) as [job|] eqn:Hjob; [|done].
  cbn [mbind option_bind] in Hst, Hrc, Hreq.
  assert (Hint : py_int (dict_get_or job "retry_count" (PInt 0)) = Ok 2).
  { unfold dict_get_or. by rewrite Hrc. }
  split.
  { unfold RetryManager.can_retry. unfold bind at 1.
    rewrite job_facts.get_job_run, Hjob. unfold dict_get. rewrite Hst.
    cbn [default from_option id negb]. unfold bind, lift. rewrite Hint, Hmax.
    reflexivity. }
  assert (Hok : map_Forall (λ _ v, v ≠ PNone)
                  (RetryManager.retry_job_data uuid4 job_id None job 2)).
  { apply retry_facts.list_to_map_sendable.
    repeat (apply Forall_cons in Hreq as [? Hreq]).
    repeat (apply Forall_cons; split); cbn [snd RetryManager.param];
      try (by apply (lineage_facts.read_job_sendable _ _ _ _ Hjob));
      try done. }
  destruct (retry_facts.create_retry_job_success cfg uuid4 job_id None w job 2
              Hjob Hint ltac:(lia) Hok Hne) as (w' & Hrun & Hnew & Horig & _).
  unfold outcome, after. rewrite Hrun. cbn [fst snd]. clear Hrun Hok Hreq.
  destruct (retry_facts.read_job_Some _ _ _ Hjob) as [Hne0 Hdec].
  set (now := Z.quot (clock w) 1000) in *.
  assert (Hnew_ne : (py_str <$> (RetryManager.retry_job_data uuid4 job_id None job 2
                                   ∪ job_defaults now now))
                    ∪ redis.hash_at (store w) (JOB_PREFIX +:+ uuid4) ≠ ∅).
  { apply map_positive_l_alt.
    apply (lineage_facts.lookup_non_empty _ "job_id" uuid4).
    rewrite lookup_fmap.
    by rewrite (lookup_union_Some_l _ _ _ (PStr uuid4)) by reflexivity. }
  assert (Hnew_rc : field_of w' uuid4 "retry_count" = Some (PInt 3)).
  { rewrite (lineage_facts.field_of_hash _ _ _ _ Hnew Hnew_ne).
    rewrite (lookup_union_Some_l _ _ _ "3"); [reflexivity|].
    rewrite lookup_fmap.
    by rewrite (lookup_union_Some_l _ _ _ (PInt (2 + 1))) by reflexivity. }
  split; [reflexivity|]. split; [exact Hnew_rc|]. split.
  { rewrite (lineage_facts.field_of_hash _ _ _ _ Hnew Hnew_ne).
    rewrite (lookup_union_Some_l _ _ _ job_id); [reflexivity|].
    rewrite lookup_fmap.
    by rewrite (lookup_union_Some_l _ _ _ (PStr job_id)) by reflexivity. }
  pose proof (update_facts.updated_non_empty {[ "child_job_id" := PStr uuid4 ]} now
                (redis.hash_at (store w) (JOB_PREFIX +:+ job_id))) as Horig_ne.
  split.
  { rewrite (lineage_facts.field_of_hash _ _ _ _ Horig Horig_ne).
    rewrite (lookup_union_Some_l _ _ _ uuid4); [reflexivity|].
    rewrite lookup_fmap, lookup_insert_ne by done.
    by rewrite lookup_singleton_eq. }
  split.
  { rewrite (lineage_facts.field_of_hash _ _ _ _ Horig Horig_ne).
    rewrite (lineage_facts.field_of_hash _ _ _ _ eq_refl Hne0).
    rewrite lookup_union_r; [done|].
    rewrite lookup_fmap, lookup_insert_ne by done.
    by rewrite lookup_singleton_ne. }
  split.
  { rewrite (lineage_facts.field_of_hash _ _ _ _ Horig Horig_ne).
    rewrite (lineage_facts.field_of_hash _ _ _ _ eq_refl Hne0).
    rewrite lookup_union_r; [done|].
    rewrite lookup_fmap, lookup_insert_ne by done.
    by rewrite lookup_singleton_ne. }
  unfold field_of in Hnew_rc.
  destruct (read_job (store w') uuid4) as [job'|] eqn:Hjob'; [|done].
  cbn [mbind option_bind] in Hnew_rc.
  apply (retry_facts.create_retry_job_exhausted cfg uuid5 uuid4 None w' job' 3 Hjob').
  - unfold dict_get_or. by rewrite Hnew_rc.
  - lia.
Qed.

Lemma C4_retry_scenario_B_witness :
  let w := world_with_job "j1" "error" 2 in
  let retry := RetryManager.create_retry_job default_config "j2" "j1" None in
  let w' := after retry w in
  (MAX_RETRIES default_config = 3
   ∧ field_of w "j1" "status" = Some (PStr "error")
   ∧ field_of w "j1" "retry_count" = Some (PInt 2)
   ∧ Forall (λ f, is_Some (field_of w "j1" f))
            ["url"; "platform"; "type"; "format"; "quality"]
   ∧ "j2" ≠ "j1")
  ∧ RetryManager.can_retry default_config "j1" w = (Ok true, w)
  ∧ outcome retry w = Ok (Some "j2")
  ∧ field_of w' "j2" "retry_count" = Some (PInt 3)
  ∧ field_of w' "j2" "parent_job_id" = Some (PStr "j1")
  ∧ field_of w' "j1" "child_job_id" = Some (PStr "j2")
  ∧ field_of w' "j1" "status" = field_of w "j1" "status"
  ∧ field_of w' "j1" "error" = field_of w "j1" "error"
  ∧ RetryManager.create_retry_job default_config "j3" "j2" None w' = (Ok None, w').
Proof.
  intros w retry w'.
  assert (H1 : MAX_RETRIES default_config = 3) by reflexivity.
  assert (H2 : field_of w "j1" "status" = Some (PStr "error")) by (vm_compute; reflexivity).
  assert (H3 : field_of w "j1" "retry_count" = Some (PInt 2)) by (vm_compute; reflexivity).
  assert (H4 : Forall (λ f, is_Some (field_of w "j1" f))
                 ["url"; "platform"; "type"; "format"; "quality"]).
  { repeat constructor; vm_compute; eexists; reflexivity. }
  assert (H5 : "j2" ≠ "j1") by discriminate.
  split; [by repeat split|].
  exact (C4_retry_scenario_B default_config "j2" "j3" "j1" w H1 H2 H3 H4 H5).
Defined.

Module refusal_facts.
Import RetryManager.

(** [can_retry] only reads. *)
Lemma can_retry_reads cfg job_id w :
  after (can_retry cfg job_id) w = w.
Proof.
  unfold after, can_retry. unfold bind at 1. rewrite job_facts.get_job_run.
  destruct (read_job (store w) job_id) as [job|]; [|done].
  destruct (negb _); [done|]. unfold bind, lift.
  destruct (py_int _); [|done]. by destruct (_ <=? _).
Qed.


End refusal_facts.




(** ** The progress stream *)

Module stream_facts.
Import progress_stream.

Lemma py_eqb_str v s : py_eqb v (PStr s) = true → v = PStr s.
Proof.
  destruct v as [|t|n|d]; cbn [py_eqb]; try done.
  by intros ->%String.eqb_eq.
Qed.

Lemma dnorm_go_zero k m : mant (dnorm_go k m) = 0 → dnorm_go k m = Dec 0 0.
Proof.
  revert m. induction k as [|k IH]; intros m; cbn [dnorm_go].
  - cbn [mant]. by intros ->.
  - destruct (m mod 10 =? 0) eqn:E; [apply IH|].
    cbn [mant]. intros ->. done.
Qed.

Lemma unsigned_decimal_zero cs p :
  unsigned_decimal cs = Some p → mant p = 0 → p = Dec 0 0.
Proof.
  unfold unsigned_decimal. destruct (span_digits cs) as [ip rest].
  destruct rest as [|c fr].
  - case_bool_decide; [done|]. destruct (digits_val 0 ip); [|done].
    cbn. intros [= <-]. cbn [mant]. by intros ->.
  - destruct (Ascii.eqb_spec c ".") as [->|Hc].
    + destruct (span_digits fr) as [fp rest']. destruct rest'; [|done].
      case_bool_decide; [done|]. destruct (digits_val 0 (ip ++ fp)); [|done].
      cbn. intros [= <-]. apply dnorm_go_zero.
    + destruct c as [[] [] [] [] [] [] [] []]; try done.
Qed.

Lemma float_of_text_zero s p :
  float_of_text s = Some p → mant p = 0 → p = Dec 0 0.
Proof.
  unfold float_of_text, with_sign.
  destruct (strip _) as [|c cs]; [apply unsigned_decimal_zero|].
  destruct (Ascii.eqb_spec c "-") as [->|Hm].
  - destruct (unsigned_decimal cs) as [q|] eqn:Hq; [|done]. cbn.
    intros [= <-]. cbn [dec_opp mant]. intros Hz.
    rewrite (unsigned_decimal_zero cs q Hq) by lia. done.
  - destruct (Ascii.eqb_spec c "+") as [->|Hp]; [apply unsigned_decimal_zero|].
    assert (match c with
            | "-"%char => dec_opp <$> unsigned_decimal cs
            | "+"%char => unsigned_decimal cs
            | _ => unsigned_decimal (c :: cs)
            end = unsigned_decimal (c :: cs)) as ->.
    { destruct c as [[] [] [] [] [] [] [] []]; done. }
    apply unsigned_decimal_zero.
Qed.

Lemma dec_eqb_zero p : dec_eqb p (Dec 0 0) = true → mant p = 0.
Proof.
  unfold dec_eqb, dec_cmp. cbn [mant scale].
  destruct (_ ?= _) eqn:E; try done. apply Z.compare_eq in E. lia.
Qed.

Lemma decode_progress s :
  decode_value "progress" s
    = match float_of_text s with Some d => PFloat d | None => PStr s end.
Proof.
  change (decode_value "progress" s)
    with (match py_float (PStr s) with Ok d => PFloat d | Raise _ => PStr s end).
  cbn [py_float]. by destruct (float_of_text s).
Qed.

(** The progress that a stream computes from a record is a parsed text
    or the default: when it is zero it is [Dec 0 0]. *)
Lemma progress_zero r job_id job p :
  read_job r job_id = Some job →
  py_float (dict_get_or job "progress" (PInt 0)) = Ok p →
  dec_eqb p (Dec 0 0) = true → p = Dec 0 0.
Proof.
  intros Hjob Hp Hz%dec_eqb_zero. unfold dict_get_or in Hp.
  rewrite (lineage_facts.read_job_field _ _ _ "progress" Hjob) in Hp.
  destruct (redis.hash_at r _ !! "progress") as [s|];
    cbn [fmap option_fmap option_map default from_option id] in Hp.
  - rewrite decode_progress in Hp.
    destruct (float_of_text s) as [d|] eqn:Hd; cbn [py_float] in Hp.
    + injection Hp as <-. by apply (float_of_text_zero s).
    + by rewrite Hd in Hp.
  - by injection Hp as <-.
Qed.

Lemma stalled_inv r job_id :
  stalled r job_id = true →
  ∃ job, read_job r job_id = Some job
    ∧ dict_get_or job "status" (PStr "queued") = PStr "running"
    ∧ py_float (dict_get_or job "progress" (PInt 0)) = Ok (Dec 0 0)
    ∧ truthy (dict_get_or job "error" (PStr "")) = false.
Proof.
  unfold stalled. destruct (read_job r job_id) as [job|] eqn:Hjob; [|done].
  intros [[Hst Hp]%andb_true_iff Herr%negb_true_iff]%andb_true_iff.
  exists job. split; [done|]. split; [by apply py_eqb_str|]. split; [|done].
  destruct (py_float _) as [p|] eqn:Hpf; [|done].
  by rewrite (progress_zero _ _ _ _ Hjob Hpf Hp).
Qed.

Ltac run_round :=
  cbn [event_loop];
  unfold bind, try_except, ret, lift, yield, time.sleep, modify;
  rewrite ?job_facts.get_job_run.

(** A round on a stalled record within the stall window: the progress is
    sent if it was not yet, then the round sleeps. *)
Lemma round_sleeps rem others job_id i lp w :
  stalled (store w) job_id = true → i + 1 ≤ 100 →
  event_loop (S rem) others job_id i lp w =
    event_loop rem others job_id (i + 1)
      (if dec_eqb (Dec 0 0) lp then lp else Dec 0 0)
      (set_store (others (i + 1))
         (set_clock (λ t, t + poll_interval_ms)
            (if dec_eqb (Dec 0 0) lp then w
             else set_sent (λ l, l ++ [EvProgress (Dec 0 0) None]) w))).
Proof.
  intros (job & Hjob & Hst & Hp & Herr)%stalled_inv Hi. run_round.
  rewrite Hjob, Hp, Hst, Herr.
  change (dec_geb (Dec 0 0) (Dec 100 0)) with false. rewrite andb_false_r.
  change (py_eqb (PStr "running") (PStr "done")
          || py_eqb (PStr "running") (PStr "error")) with false.
  change (py_eqb (PStr "running") (PStr "running")) with true.
  rewrite (proj2 (Z.ltb_ge _ _) Hi). cbn [andb].
  by destruct (dec_eqb (Dec 0 0) lp).
Qed.

(** A round on a stalled record after the stall window: the error event,
    the write of the error status, and the loop is left. *)
Lemma round_fires rem others job_id i w :
  stalled (store w) job_id = true → 100 < i + 1 →
  event_loop (S rem) others job_id i (Dec 0 0) w =
    (bind (update_job job_id (list_to_map [("status", PStr "error");
                                           ("error", PStr "Timeout: no progress")]))
          (λ _, ret (i + 1)))
      (set_sent (λ l, l ++ [EvError "Download timed out (no progress)"]) w).
Proof.
  intros (job & Hjob & Hst & Hp & Herr)%stalled_inv Hi. run_round.
  rewrite Hjob, Hp, Hst, Herr.
  change (py_eqb (PStr "running") (PStr "done")
          || py_eqb (PStr "running") (PStr "error")) with false.
  change (py_eqb (PStr "running") (PStr "running")) with true.
  rewrite (proj2 (Z.ltb_lt _ _) Hi).
  change (dec_eqb (Dec 0 0) (Dec 0 0)) with true. cbn [negb andb].
  reflexivity.
Qed.


(** Rounds on a stalled record whose progress was already sent: they
    only sleep. *)
Lemma quiet_rounds (n : nat) rem others job_id i w :
  stalled (store w) job_id = true →
  (∀ k r, stalled r job_id = true → stalled (others k r) job_id = true) →
  i + Z.of_nat n ≤ 100 →
  ∃ w', stalled (store w') job_id = true
    ∧ sent w' = sent w
    ∧ clock w' = clock w + poll_interval_ms * Z.of_nat n
    ∧ event_loop (n + rem) others job_id i (Dec 0 0) w
        = event_loop rem others job_id (i + Z.of_nat n) (Dec 0 0) w'.
Proof.
  intros Hst Henv. revert i w Hst.
  induction n as [|n IH]; intros i w Hst Hi.
  - exists w. repeat split; [done|lia|]. by rewrite Z.add_0_r.
  - cbn [Nat.add]. rewrite (round_sleeps _ _ _ _ _ _ Hst) by lia.
    change (dec_eqb (Dec 0 0) (Dec 0 0)) with true. cbn match.
    destruct (IH (i + 1) (set_store (others (i + 1))
                   (set_clock (λ t, t + poll_interval_ms) w)))
      as (w' & Hst' & Hsent & Hclock & Hrun).
    { cbn [store set_store set_clock]. by apply Henv. }
    { lia. }
    exists w'. split; [done|]. split; [done|]. split.
    + rewrite Hclock. cbn [clock set_store set_clock]. lia.
    + rewrite Hrun. f_equal. lia.
Qed.

(** The first round on a record with an error message and no progress:
    the progress, the error, and the loop is left. *)
Lemma round_error rem others job_id w job msg :
  read_job (store w) job_id = Some job →
  py_float (dict_get_or job "progress" (PInt 0)) = Ok (Dec 0 0) →
  dict_get_or job "error" (PStr "") = PStr msg →
  msg ≠ "" →
  event_loop (S rem) others job_id 0 (Dec (-1) 0) w =
    (Ok 1, set_sent (λ l, l ++ [EvError msg])
             (set_sent (λ l, l ++ [EvProgress (Dec 0 0) None]) w)).
Proof.
  intros Hjob Hp Herr Hmsg. run_round. rewrite Hjob, Hp, Herr.
  change (dec_geb (Dec 0 0) (Dec 100 0)) with false. rewrite andb_false_r.
  change (dec_eqb (Dec 0 0) (Dec (-1) 0)) with false. cbn [negb truthy py_str].
  by rewrite (proj2 (String.eqb_neq _ _) Hmsg).
Qed.

Lemma stall_updates_sendable :
  map_Forall (λ _ v, v ≠ PNone)
    (list_to_map [("status", PStr "error");
                  ("error", PStr "Timeout: no progress")] : pydict).
Proof. apply retry_facts.list_to_map_sendable. repeat constructor; done. Qed.

End stream_facts.

(** C6. Let the record of a job be read, at every round of a progress
    stream, as running with progress 0 and no error message (whatever else
    the other workers do to the store meanwhile). Then the stream sends the
    progress once, sleeps through 100 rounds, and at round 101 sends
    [data:ERROR:Download timed out (no progress)], writes [status = error]
    and [error = Timeout: no progress] onto the record and ends. A second
    stream on the same job afterwards sends the progress and
    [data:ERROR:Timeout: no progress] and ends in its first round, without
    sleeping. *)
Theorem C6_stall_guard (others others2 : Z → redis_db → redis_db)
    (job_id : string) (w : world) :
  stalled (store w) job_id = true →
  (∀ i r, stalled r job_id = true → stalled (others i r) job_id = true) →
  let w' := after (progress_stream.event_stream others job_id) w in
  let w'' := after (progress_stream.event_stream others2 job_id) w' in
  outcome (progress_stream.event_stream others job_id) w = Ok tt
  ∧ sent w' = sent w ++ [EvProgress (Dec 0 0) None;
                         EvError "Download timed out (no progress)"]
  ∧ clock w' = clock w + 100 * progress_stream.poll_interval_ms
  ∧ field_of w' job_id "status" = Some (PStr "error")
  ∧ field_of w' job_id "error" = Some (PStr "Timeout: no progress")
  ∧ outcome (progress_stream.event_stream others2 job_id) w' = Ok tt
  ∧ sent w'' = sent w' ++ [EvProgress (Dec 0 0) None;
                           EvError "Timeout: no progress"]
  ∧ clock w'' = clock w'.
Proof.
  intros Hst Henv.
  (* the first round sends the progress *)
  pose proof (stream_facts.round_sleeps (99 + S 1899) others job_id 0 (Dec (-1) 0) w Hst
                ltac:(lia)) as Hfirst.
  change (dec_eqb (Dec 0 0) (Dec (-1) 0)) with false in Hfirst. cbn match in Hfirst.
  set (w1 := set_store (others (0 + 1)) _) in Hfirst.
  assert (Hst1 : stalled (store w1) job_id = true).
  { subst w1. cbn [store set_store set_clock set_sent]. by apply Henv. }
  (* 99 rounds that only sleep *)
  destruct (stream_facts.quiet_rounds 99 (S 1899) others job_id (0 + 1) w1 Hst1 Henv
              ltac:(lia)) as (w100 & Hst100 & Hsent100 & Hclock100 & Hquiet).
  (* round 101 *)
  pose proof (stream_facts.round_fires 1899 others job_id (0 + 1 + Z.of_nat 99) w100
                Hst100 ltac:(lia))
    as Hfire.
  set (ws := set_sent _ w100) in Hfire.
  destruct (stream_facts.stalled_inv _ _ Hst100) as (job & Hjob & _ & Hp & _).
  destruct (retry_facts.read_job_Some _ _ _ Hjob) as [Hne100 _].
  destruct (job_facts.update_job_present job_id
              (list_to_map [("status", PStr "error");
                            ("error", PStr "Timeout: no progress")]) ws)
    as (wf & Hupd & Hh & _ & _ & _ & _ & Hclockf & _ & Hsentf).
  { by apply job_facts.key_exists_hash. }
  { apply stream_facts.stall_updates_sendable. }
  unfold bind in Hfire. rewrite Hupd in Hfire.
  assert (Hrun : progress_stream.event_stream others job_id w = (Ok tt, wf)).
  { unfold progress_stream.event_stream, try_except. unfold bind at 1.
    change (Z.to_nat progress_stream.max_iterations) with (S (99 + S 1899))%nat.
    by rewrite Hfirst, Hquiet, Hfire. }
  (* the record after the first stream *)
  pose proof (retry_facts.hash_at_same _ _ _ _ Hh) as Hhf.
  cbn [store clock set_sent] in Hhf.
  set (now := Z.quot (clock ws) 1000) in *.
  pose proof (update_facts.updated_non_empty
                (list_to_map [("status", PStr "error");
                              ("error", PStr "Timeout: no progress")]) now
                (redis.hash_at (store w100) (JOB_PREFIX +:+ job_id))) as Hnef.
  assert (Hstatus : field_of wf job_id "status" = Some (PStr "error")).
  { rewrite (lineage_facts.field_of_hash _ _ _ _ Hhf Hnef).
    rewrite (lookup_union_Some_l _ _ _ "error"); [reflexivity|].
    rewrite lookup_fmap, lookup_insert_ne by done. reflexivity. }
  assert (Herror : field_of wf job_id "error" = Some (PStr "Timeout: no progress")).
  { rewrite (lineage_facts.field_of_hash _ _ _ _ Hhf Hnef).
    rewrite (lookup_union_Some_l _ _ _ "Timeout: no progress"); [reflexivity|].
    rewrite lookup_fmap, lookup_insert_ne by done. reflexivity. }
  assert (Hprogress : field_of wf job_id "progress"
                      = job !! "progress").
  { rewrite (lineage_facts.field_of_hash _ _ _ _ Hhf Hnef).
    rewrite (lineage_facts.read_job_field _ _ _ "progress" Hjob).
    rewrite lookup_union_r; [done|].
    rewrite lookup_fmap, lookup_insert_ne by done. reflexivity. }
  (* the second stream *)
  unfold field_of in Hstatus, Herror, Hprogress.
  destruct (read_job (store wf) job_id) as [jobf|] eqn:Hjobf; [|done].
  cbn [mbind option_bind] in Hstatus, Herror, Hprogress.
  assert (Hrun2 : progress_stream.event_stream others2 job_id wf
            = (Ok tt, set_sent (λ l, l ++ [EvError "Timeout: no progress"])
                        (set_sent (λ l, l ++ [EvProgress (Dec 0 0) None]) wf))).
  { unfold progress_stream.event_stream, try_except. unfold bind at 1.
    change (Z.to_nat progress_stream.max_iterations) with (S 1999)%nat.
    rewrite (stream_facts.round_error _ _ _ _ jobf "Timeout: no progress" Hjobf);
      [done| | |done].
    - unfold dict_get_or in *. by rewrite Hprogress.
    - unfold dict_get_or. by rewrite Herror. }
  intros w' w''. subst w' w''. unfold outcome, after. rewrite Hrun. cbn [fst snd].
  rewrite Hrun2. cbn [fst snd sent clock set_sent].
  unfold field_of. rewrite Hjobf. cbn [mbind option_bind].
  repeat split; try done.
  - rewrite Hsentf. subst ws. cbn [sent set_sent]. rewrite Hsent100.
    subst w1. cbn [sent set_store set_clock set_sent]. by rewrite <- app_assoc.
  - rewrite Hclockf. subst ws. cbn [clock set_sent]. rewrite Hclock100.
    subst w1. cbn [clock set_store set_clock set_sent]. lia.
  - by rewrite <- app_assoc.
Qed.

Lemma C6_stall_guard_witness :
  let w := world_with_job "j1" "running" 0 in
  let w' := after (progress_stream.event_stream progress_stream.alone "j1") w in
  let w'' := after (progress_stream.event_stream progress_stream.alone "j1") w' in
  (stalled (store w) "j1" = true
   ∧ ∀ i r, stalled r "j1" = true → stalled (progress_stream.alone i r) "j1" = true)
  ∧ outcome (progress_stream.event_stream progress_stream.alone "j1") w = Ok tt
  ∧ sent w' = sent w ++ [EvProgress (Dec 0 0) None;
                         EvError "Download timed out (no progress)"]
  ∧ clock w' = clock w + 100 * progress_stream.poll_interval_ms
  ∧ field_of w' "j1" "status" = Some (PStr "error")
  ∧ field_of w' "j1" "error" = Some (PStr "Timeout: no progress")
  ∧ outcome (progress_stream.event_stream progress_stream.alone "j1") w' = Ok tt
  ∧ sent w'' = sent w' ++ [EvProgress (Dec 0 0) None;
                           EvError "Timeout: no progress"]
  ∧ clock w'' = clock w'.
Proof.
  intros w w' w''.
  assert (H1 : stalled (store w) "j1" = true) by (vm_compute; reflexivity).
  assert (H2 : ∀ i r, stalled r "j1" = true
                 → stalled (progress_stream.alone i r) "j1" = true)
    by (intros i r H; exact H).
  split; [by split|].
  exact (C6_stall_guard progress_stream.alone progress_stream.alone "j1" w H1 H2).
Defined.

(** ** Deleting a job *)

Module delete_facts.

(** The endpoint refuses a running job and touches nothing. *)
Lemma running_job_refused cfg job_id w :
  field_of w job_id "status" = Some (PStr "running") →
  delete_job_endpoint cfg job_id w
    = (Ok (DeleteRefused "Cannot delete a running job"), w).
Proof.
  unfold field_of. destruct (read_job (store w) job_id) as [job|] eqn:Hjob; [|done].
  cbn [mbind option_bind]. intros Hst.
  unfold delete_job_endpoint, try_except. unfold bind at 1.
  rewrite job_facts.get_job_run, Hjob. unfold dict_get. by rewrite Hst.
Qed.

End delete_facts.

Module deletion_check_facts.

(** A path that is empty or leads nowhere counts as already gone. *)
Lemma safe_delete_file_gone cfg file_path w :
  os.resolve (disk w) file_path = None →
  safe_delete_file cfg file_path w = (Ok true, w).
Proof.
  intros Hres. unfold safe_delete_file, try_except, os.exists_. run_py.
  rewrite Hres. rewrite bool_decide_eq_false_2 by (by intros [? ?]).
  cbn [negb]. by rewrite orb_true_r.
Qed.

(** An existing path whose absolute form does not start with the text of
    the download directory is refused: False, a line on stdout, the disk
    as it was. *)
Lemma safe_delete_file_blocked cfg file_path w :
  is_Some (os.resolve (disk w) file_path) →
  String.prefix (os.abspath_on (disk w) (DOWNLOAD_DIR cfg))
                (os.abspath_on (disk w) file_path) = false →
  safe_delete_file cfg file_path w
    = (Ok false,
       set_stdout (λ l, l ++ ["Security: Blocked delete outside downloads dir: "
                              +:+ file_path]) w).
Proof.
  intros Hres Hpre. unfold safe_delete_file, try_except, os.exists_. run_py.
  rewrite (bool_decide_eq_true_2 _ Hres). cbn [negb].
  assert (String.eqb file_path "" = false) as ->.
  { apply String.eqb_neq. intros ->. by destruct Hres. }
  cbn [orb]. unfold os.abspath, print. run_py. by rewrite Hpre.
Qed.

End deletion_check_facts.

(** C8, on the code. With the download directory
    [/srv/mediadl/backend/downloads], a finished job whose [file_path] is
    [/srv/mediadl/backend/downloads_private/secret.mp4] (a sibling directory
    whose name starts with the same text): the file is not inside the
    download directory, yet [safe_delete_file] returns True, removes it and
    prints nothing, and the endpoint answers "deleted". A path that shares no
    prefix, [/etc/passwd], is refused by [safe_delete_file] (False, a
    "Security:" line, the file stays), while the endpoint still answers
    "deleted". A running job is refused and nothing changes. *)
Theorem C8_sibling_prefix_file_deleted :
  let cfg := default_config in
  let sibling := "/srv/mediadl/backend/downloads_private/secret.mp4" in
  let w := world_with_file_job "j1" "done" sibling in
  let wp := world_with_file_job "j2" "done" "/etc/passwd" in
  let wr := world_with_file_job "j3" "running" sibling in
  String.prefix (DOWNLOAD_DIR cfg +:+ "/") sibling = false
  ∧ sibling ∈ files (disk w)
  ∧ outcome (safe_delete_file cfg sibling) w = Ok true
  ∧ (sibling ∉ files (disk (after (safe_delete_file cfg sibling) w)))
  ∧ stdout (after (safe_delete_file cfg sibling) w) = []
  ∧ outcome (delete_job_endpoint cfg "j1") w = Ok (Deleted "j1")
  ∧ (sibling ∉ files (disk (after (delete_job_endpoint cfg "j1") w)))
  ∧ outcome (safe_delete_file cfg "/etc/passwd") wp = Ok false
  ∧ stdout (after (safe_delete_file cfg "/etc/passwd") wp)
      = ["Security: Blocked delete outside downloads dir: /etc/passwd"]
  ∧ "/etc/passwd" ∈ files (disk (after (delete_job_endpoint cfg "j2") wp))
  ∧ outcome (delete_job_endpoint cfg "j2") wp = Ok (Deleted "j2")
  ∧ delete_job_endpoint cfg "j3" wr
      = (Ok (DeleteRefused "Cannot delete a running job"), wr).
Proof.
  intros cfg sibling w wp wr.
  split; [reflexivity|]. split; [by vm_compute|].
  split; [by vm_compute|]. split; [by vm_compute|].
  split; [by vm_compute|]. split; [by vm_compute|].
  split; [by vm_compute|]. split; [by vm_compute|].
  split; [by vm_compute|]. split; [by vm_compute|].
  split; [by vm_compute|].
  apply delete_facts.running_job_refused. by vm_compute.
Qed.
(** * Further properties of the code *)

(** ** Numbers and their text *)

Module text_facts.

Lemma digits_val_uint acc u :
  digits_val acc (String.list_ascii_of_string (NilEmpty.string_of_uint u))
    = Some (uint_val acc u).
Proof.
  revert acc. induction u; intros acc; cbn [NilEmpty.string_of_uint
    String.list_ascii_of_string digits_val uint_val]; [done|..];
    match goal with
    | |- context [is_digit ?c] =>
        change (is_digit c) with true;
        let v := eval vm_compute in (digit_val c) in change (digit_val c) with v
    end; cbn match; rewrite IHu; f_equal; f_equal; lia.
Qed.

Lemma of_uint_acc_val u p :
  Z.pos (Pos.of_uint_acc u p) = uint_val (Z.pos p) u.
Proof.
  revert p. induction u; intros p; cbn [Pos.of_uint_acc uint_val]; [done|..];
    rewrite IHu; f_equal; lia.
Qed.

Lemma of_uint_val u : Z.of_N (Pos.of_uint u) = uint_val 0 u.
Proof.
  induction u; cbn [Pos.of_uint uint_val]; [done|by rewrite IHu|..];
    cbn [Z.of_N]; by rewrite of_uint_acc_val.
Qed.

Lemma uint_digits u :
  Forall (λ c, is_digit c = true)
    (String.list_ascii_of_string (NilEmpty.string_of_uint u)).
Proof.
  induction u; cbn [NilEmpty.string_of_uint String.list_ascii_of_string];
    constructor; done.
Qed.

Lemma digit_not_blank c : is_digit c = true → is_blank c = false.
Proof. destruct c as [[] [] [] [] [] [] [] []]; vm_compute; congruence. Qed.

Lemma digit_no_sign {A} (neg : A → A) p c cs :
  is_digit c = true → with_sign neg p (c :: cs) = p (c :: cs).
Proof. destruct c as [[] [] [] [] [] [] [] []]; vm_compute; congruence. Qed.

Lemma lstrip_no_blank cs :
  Forall (λ c, is_blank c = false) cs → lstrip cs = cs.
Proof. destruct 1 as [|c cs Hc _]; cbn [lstrip]; [done|by rewrite Hc]. Qed.

Lemma strip_no_blank cs :
  Forall (λ c, is_blank c = false) cs → strip cs = cs.
Proof.
  intros H. unfold strip. rewrite (lstrip_no_blank cs H).
  rewrite lstrip_no_blank by (by apply Forall_rev). apply rev_involutive.
Qed.

Lemma uint_text_nonempty u :
  u ≠ Decimal.Nil →
  String.list_ascii_of_string (NilEmpty.string_of_uint u) ≠ [].
Proof. destruct u; done. Qed.

Lemma unsigned_int_uint u :
  u ≠ Decimal.Nil →
  unsigned_int (String.list_ascii_of_string (NilEmpty.string_of_uint u))
    = Some (uint_val 0 u).
Proof.
  intros Hu. pose proof (digits_val_uint 0 u) as H. unfold unsigned_int.
  destruct (String.list_ascii_of_string (NilEmpty.string_of_uint u)) eqn:E; [|done].
  by destruct (uint_text_nonempty u Hu).
Qed.

Lemma pos_uint_val p : uint_val 0 (Pos.to_uint p) = Z.pos p.
Proof. by rewrite <- of_uint_val, DecimalPos.Unsigned.of_to. Qed.

(** [int(str(n)) == n] *)
Lemma int_of_text_str_of_int n : int_of_text (str_of_int n) = Some n.
Proof.
  destruct n as [|p|p]; [done|..]; unfold int_of_text, str_of_int;
    cbn [Z.to_int NilZero.string_of_int];
    pose proof (DecimalPos.Unsigned.to_uint_nonnil p) as Hnil;
    pose proof (uint_digits (Pos.to_uint p)) as Hd;
    pose proof (unsigned_int_uint _ Hnil) as Hv;
    rewrite pos_uint_val in Hv;
    replace (NilZero.string_of_uint (Pos.to_uint p))
      with (NilEmpty.string_of_uint (Pos.to_uint p))
      by (by destruct (Pos.to_uint p)).
  - rewrite strip_no_blank
      by (eapply Forall_impl; [exact Hd|]; apply digit_not_blank).
    destruct (String.list_ascii_of_string _) as [|c cs] eqn:E; [done|].
    rewrite digit_no_sign by (by inversion Hd). exact Hv.
  - cbn [String.list_ascii_of_string].
    rewrite strip_no_blank
      by (constructor; [done|];
          eapply Forall_impl; [exact Hd|]; apply digit_not_blank).
    cbn [with_sign]. by rewrite Hv.
Qed.

Lemma py_int_str_of_int n : py_int (PStr (str_of_int n)) = Ok n.
Proof. cbn [py_int]. by rewrite int_of_text_str_of_int. Qed.

End text_facts.

(** ** The queries of the job store *)

Module query_facts.

Lemma lrange_all l : redis.lrange_list 0 (-1) l = l.
Proof.
  unfold redis.lrange_list. change (0 <? 0) with false. change (-1 <? 0) with true.
  cbn match. rewrite Z.min_id.
  destruct (Z.ltb_spec (Z.of_nat (length l) - 1) 0) as [Hlt|Hge].
  - destruct l; [done|]. cbn [length] in Hlt. exfalso. lia.
  - change (Z.to_nat 0) with 0%nat; rewrite drop_0. rewrite firstn_all2; [done|]. lia.
Qed.

Lemma lrange_prefix n l :
  1 ≤ n → redis.lrange_list 0 (n - 1) l = take (Z.to_nat n) l.
Proof.
  intros Hn. unfold redis.lrange_list. change (0 <? 0) with false.
  rewrite (proj2 (Z.ltb_ge (n - 1) 0)) by lia. cbn match.
  destruct (Z.ltb_spec (Z.min (n - 1) (Z.of_nat (length l) - 1)) 0) as [Hlt|Hge].
  - destruct l; [by destruct (Z.to_nat n)|]. cbn [length] in Hlt. exfalso. lia.
  - change (Z.to_nat 0) with 0%nat; rewrite drop_0.
    destruct (Z.le_gt_cases n (Z.of_nat (length l))) as [Hle|Hgt].
    + rewrite Z.min_l by lia. f_equal. lia.
    + rewrite Z.min_r by lia.
      rewrite !firstn_all2; [done|lia|lia].
Qed.

Lemma decode_job_non_empty h : h ≠ ∅ → decode_job h ≠ ∅.
Proof.
  intros [k [v Hk]]%map_choose He.
  pose proof (job_facts.decode_job_lookup h k) as H.
  rewrite He, Hk, lookup_empty in H. done.
Qed.

Lemma read_job_non_empty r job_id job :
  read_job r job_id = Some job → job ≠ ∅.
Proof.
  intros [Hne ->]%retry_facts.read_job_Some. by apply decode_job_non_empty.
Qed.

Lemma read_job_truthy r job_id :
  dict_truthy (read_job r job_id) = bool_decide (is_Some (read_job r job_id)).
Proof.
  destruct (read_job r job_id) as [job|] eqn:E; cbn [dict_truthy].
  - rewrite (bool_decide_eq_false_2 _ (read_job_non_empty _ _ _ E)).
    by rewrite bool_decide_eq_true_2.
  - rewrite bool_decide_eq_false_2; [done|]. by intros [? ?].
Qed.

Lemma list_jobs_loop_run job_ids jobs w :
  list_jobs_loop job_ids jobs w
    = (Ok (jobs ++ omap (read_job (store w)) job_ids), w).
Proof.
  revert jobs. induction job_ids as [|job_id job_ids IH]; intros jobs.
  - cbn [list_jobs_loop omap list_omap]. by rewrite app_nil_r.
  - cbn [list_jobs_loop]. unfold bind at 1. rewrite job_facts.get_job_run.
    rewrite read_job_truthy. cbn [omap list_omap].
    destruct (read_job (store w) job_id) as [job|] eqn:E.
    + rewrite bool_decide_eq_true_2 by done. rewrite IH. cbn [default from_option id].
      by rewrite <- app_assoc.
    + rewrite bool_decide_eq_false_2 by (by intros [? ?]). by rewrite IH.
Qed.

Lemma list_jobs_run limit w :
  list_jobs limit w
    = (Ok (omap (read_job (store w))
             (take (Z.to_nat (Z.max 1 (Z.min limit 1000)))
                   (redis.list_at (store w) JOBS_LIST_KEY))), w).
Proof.
  unfold list_jobs, redis.lrange. unfold bind at 1, gets.
  rewrite list_jobs_loop_run. by rewrite lrange_prefix by lia.
Qed.

Lemma omap_length {A B} (f : A → option B) l :
  (length (omap f l) ≤ length l)%nat.
Proof.
  induction l as [|x l IH]; cbn [omap list_omap length]; [done|].
  destruct (f x); cbn [length]; lia.
Qed.

Lemma list_jobs_bounds limit w jobs :
  jobs = omap (read_job (store w))
           (take (Z.to_nat (Z.max 1 (Z.min limit 1000)))
                 (redis.list_at (store w) JOBS_LIST_KEY)) →
  Z.of_nat (length jobs) ≤ Z.max 1 (Z.min limit 1000)
  ∧ Forall (λ job, job ≠ ∅) jobs.
Proof.
  intros ->. split.
  - pose proof (omap_length (read_job (store w))
      (take (Z.to_nat (Z.max 1 (Z.min limit 1000)))
            (redis.list_at (store w) JOBS_LIST_KEY))) as H.
    rewrite length_take in H. lia.
  - apply Forall_forall. intros job (id & _ & Hjob)%list_elem_of_omap.
    by eapply read_job_non_empty.
Qed.

End query_facts.

(** X4. [list_jobs(limit)] returns the records of the first
    max(1, min(limit, 1000)) entries of the index [jobs:all], in the order
    of the index and without the entries whose record is gone. It returns
    at most that many jobs, so never more than 1000, none of them an empty
    dict, and it changes nothing. *)
Theorem X4_list_jobs_reads_index_prefix (limit : Z) (w : world) :
  let n := Z.max 1 (Z.min limit 1000) in
  let jobs := omap (read_job (store w))
                (take (Z.to_nat n) (redis.list_at (store w) JOBS_LIST_KEY)) in
  list_jobs limit w = (Ok jobs, w)
  ∧ Z.of_nat (length jobs) ≤ n ≤ 1000
  ∧ Forall (λ job, job ≠ ∅) jobs.
Proof.
  intros n jobs. split; [apply query_facts.list_jobs_run|].
  destruct (query_facts.list_jobs_bounds limit w jobs eq_refl) as [H1 H2].
  repeat split; [exact H1|lia|exact H2].
Qed.

Module filter_facts.

Lemma filter_status_sound (f : string) (v : string) (jobs : list pydict) n :
  let found := take n (List.filter (λ j, py_eqb (dict_get j f) (PStr v)) jobs) in
  Forall (λ j, dict_get j f = PStr v) found
  ∧ (length found ≤ n)%nat
  ∧ found `sublist_of` jobs.
Proof.
  intros found. repeat split.
  - apply Forall_forall. intros j Hj.
    apply stream_facts.py_eqb_str.
    assert (Hin : j ∈ List.filter (λ j, py_eqb (dict_get j f) (PStr v)) jobs).
    { eapply elem_of_sublist; [exact Hj|apply sublist_take]. }
    apply list_elem_of_In, List.filter_In in Hin. apply Hin.
  - unfold found. rewrite length_take. lia.
  - etransitivity; [apply sublist_take|].
    clear. induction jobs as [|j jobs IH]; cbn [List.filter]; [done|].
    destruct (py_eqb _ _); by constructor.
Qed.

End filter_facts.

(** X5. [get_jobs_by_status(status, limit)] looks at the jobs that
    [list_jobs] returns for 3 * max(1, min(limit, 1000)), that is at no
    more than the first 1000 entries of the index, and returns, in their
    order, the first max(1, min(limit, 1000)) of them whose status is the
    given one: every job returned has that status, there are at most that
    many, and nothing is changed. [get_jobs_by_platform] does the same with
    the field platform. *)
Theorem X5_get_jobs_by_field_sound (value : string) (limit : Z) (w : world) :
  let n := Z.max 1 (Z.min limit 1000) in
  let all_jobs := omap (read_job (store w))
                    (take (Z.to_nat (Z.min (3 * n) 1000))
                          (redis.list_at (store w) JOBS_LIST_KEY)) in
  (∃ jobs, get_jobs_by_status value limit w = (Ok jobs, w)
     ∧ jobs = take (Z.to_nat n)
                (List.filter (λ j, py_eqb (dict_get j "status") (PStr value)) all_jobs)
     ∧ Forall (λ j, dict_get j "status" = PStr value) jobs
     ∧ Z.of_nat (length jobs) ≤ n
     ∧ jobs `sublist_of` all_jobs)
  ∧ (∃ jobs, get_jobs_by_platform value limit w = (Ok jobs, w)
     ∧ jobs = take (Z.to_nat n)
                (List.filter (λ j, py_eqb (dict_get j "platform") (PStr value)) all_jobs)
     ∧ Forall (λ j, dict_get j "platform" = PStr value) jobs
     ∧ Z.of_nat (length jobs) ≤ n
     ∧ jobs `sublist_of` all_jobs).
Proof.
  intros n all_jobs.
  assert (E : Z.max 1 (Z.min (Z.max 1 (Z.min limit 1000) * 3) 1000)
              = Z.min (3 * Z.max 1 (Z.min limit 1000)) 1000) by lia.
  split; (eexists; split; [|split; [reflexivity|]]).
  - unfold get_jobs_by_status. unfold bind at 1. rewrite query_facts.list_jobs_run.
    unfold ret, all_jobs, n. by rewrite E.
  - destruct (filter_facts.filter_status_sound "status" value all_jobs (Z.to_nat n))
      as (H1 & H2 & H3).
    repeat split; [exact H1|lia|exact H3].
  - unfold get_jobs_by_platform. unfold bind at 1. rewrite query_facts.list_jobs_run.
    unfold ret, all_jobs, n. by rewrite E.
  - destruct (filter_facts.filter_status_sound "platform" value all_jobs (Z.to_nat n))
      as (H1 & H2 & H3).
    repeat split; [exact H1|lia|exact H3].
Qed.

Module stats_facts.

Lemma count_up_sum k d : counts_sum (count_up k d) = counts_sum d + 1.
Proof.
  induction d as [|[k' n] d IH]; cbn [count_up counts_sum foldr snd]; [lia|].
  destruct (py_eqb k' k); unfold counts_sum in *; cbn [foldr snd] in *; lia.
Qed.

Lemma count_up_positive k d :
  Forall (λ kv, 1 ≤ kv.2) d → Forall (λ kv, 1 ≤ kv.2) (count_up k d).
Proof.
  induction 1 as [|[k' n] d Hn Hd IH]; cbn [count_up].
  - by repeat constructor.
  - cbn [snd] in Hn. destruct (py_eqb k' k); constructor; cbn [snd]; try done; lia.
Qed.

Lemma stats_fold s jobs :
  let s' := foldl stats_step s jobs in
  total s' = total s
  ∧ counts_sum (by_status s') = counts_sum (by_status s) + Z.of_nat (length jobs)
  ∧ counts_sum (by_platform s') = counts_sum (by_platform s) + Z.of_nat (length jobs)
  ∧ counts_sum (by_type s') = counts_sum (by_type s) + Z.of_nat (length jobs)
  ∧ counts_sum (by_format s') = counts_sum (by_format s) + Z.of_nat (length jobs).
Proof.
  revert s. induction jobs as [|job jobs IH]; intros s; cbn [foldl length].
  - repeat split; lia.
  - destruct (IH (stats_step s job)) as (H0 & H1 & H2 & H3 & H4).
    cbn zeta. rewrite H0, H1, H2, H3, H4.
    unfold stats_step; cbn [total by_status by_platform by_type by_format].
    rewrite !count_up_sum. repeat split; lia.
Qed.

Lemma stats_fold_positive s jobs :
  Forall (λ kv, 1 ≤ kv.2) (by_status s) →
  Forall (λ kv, 1 ≤ kv.2) (by_status (foldl stats_step s jobs)).
Proof.
  revert s. induction jobs as [|job jobs IH]; intros s Hs; cbn [foldl]; [done|].
  apply IH. unfold stats_step; cbn [by_status]. by apply count_up_positive.
Qed.

End stats_facts.

(** X6. [get_stats] counts the jobs that [list_jobs(500)] returns: [total]
    is their number, at most 500; each job is counted once under every one
    of the four headings, so that the counters of [by_status], of
    [by_platform], of [by_type] and of [by_format] each add up to [total];
    no key of [by_status] is kept with a counter below 1; nothing is
    changed. *)
Theorem X6_get_stats_totals (w : world) :
  ∃ s, get_stats w = (Ok s, w)
    ∧ total s = Z.of_nat (length (omap (read_job (store w))
                   (take 500 (redis.list_at (store w) JOBS_LIST_KEY))))
    ∧ 0 ≤ total s ≤ 500
    ∧ counts_sum (by_status s) = total s
    ∧ counts_sum (by_platform s) = total s
    ∧ counts_sum (by_type s) = total s
    ∧ counts_sum (by_format s) = total s
    ∧ Forall (λ kv, 1 ≤ kv.2) (by_status s).
Proof.
  eexists. split.
  - unfold get_stats. unfold bind at 1. rewrite query_facts.list_jobs_run.
    unfold ret. reflexivity.
  - change (Z.to_nat (Z.max 1 (Z.min 500 1000))) with 500%nat.
    set (jobs := omap _ _).
    destruct (stats_facts.stats_fold (Stats (Z.of_nat (length jobs)) [] [] [] []) jobs)
      as (H0 & H1 & H2 & H3 & H4).
    cbn zeta in *. cbn [total by_status by_platform by_type by_format counts_sum foldr] in *.
    rewrite H0, H1, H2, H3, H4.
    assert (length jobs ≤ 500)%nat.
    { etransitivity; [apply query_facts.omap_length|]. rewrite length_take. lia. }
    repeat split; try lia.
    apply stats_facts.stats_fold_positive. constructor.
Qed.

(** ** A record written and read back *)

Module round_trip_facts.

Lemma decode_text f s : f ∉ numeric_fields → decode_value f s = PStr s.
Proof. intros H. unfold decode_value. by rewrite bool_decide_eq_false_2. Qed.

Lemma decode_int f n :
  f ∈ ["created_at"; "updated_at"; "retry_count"] →
  decode_value f (str_of_int n) = PInt n.
Proof.
  intros H. unfold decode_value, convert_value.
  repeat (apply elem_of_cons in H as [->|H];
          [by rewrite bool_decide_eq_true_2, text_facts.py_int_str_of_int
             by (unfold numeric_fields; repeat constructor)|]).
  by apply elem_of_nil in H.
Qed.

(** What [get_job] makes of the text of a default of [create_job] is the
    default. *)
Lemma decode_default c u f v :
  job_defaults c u !! f = Some v → decode_value f (py_str v) = v.
Proof.
  unfold job_defaults. cbn [list_to_map foldr fst snd].
  intros H.
  repeat (apply lookup_insert_Some in H as [[<- <-]|[_ H]];
          [first [ apply decode_int; repeat constructor
                 | reflexivity ]|]).
  by rewrite lookup_empty in H.
Qed.

Lemma written_field (data : pydict) (h : gmap string string) f v :
  data !! f = Some v → ((py_str <$> data) ∪ h) !! f = Some (py_str v).
Proof.
  intros H. apply lookup_union_Some_l. by rewrite lookup_fmap, H.
Qed.

Lemma written_non_empty (data : pydict) (h : gmap string string) f v :
  data !! f = Some v → (py_str <$> data) ∪ h ≠ ∅.
Proof.
  intros H. eapply lineage_facts.lookup_non_empty. by eapply written_field.
Qed.

Lemma create_job_expiry job_data new w :
  job_data !! "job_id" = Some (PStr new) →
  map_Forall (λ _ v, v ≠ PNone) job_data →
  ttls (store (after (create_job job_data) w)) !! (JOB_PREFIX +:+ new)
    = Some (Z.quot (clock w) 1000 + JOB_EXPIRY_SECONDS).
Proof.
  intros Hid Hok. unfold create_job. rewrite Hid.
  unfold time.int_time, redis.hset, redis.lpush, redis.expire, redis.encode_mapping.
  run_py.
  rewrite bool_decide_eq_true_2
    by (apply retry_facts.union_sendable; [done|apply retry_facts.job_defaults_sendable]).
  cbn [fst snd redis_encode py_str].
  rewrite job_facts.key_exists_hash.
  - db_simpl. by rewrite lookup_insert_eq.
  - db_simpl. rewrite lookup_insert_eq. cbn [default from_option id].
    eapply written_non_empty.
    apply lookup_union_Some_l. exact Hid.
Qed.

End round_trip_facts.

(** X1. A record written by [create_job] and read back by [get_job]: for
    a dict with a str [job_id] and no None among its values, [create_job]
    returns the id, puts it at the head of the index and lets the record
    expire 86400 seconds later; [get_job] then finds a record in which a
    str given for a field that is not numeric comes back as it was given,
    an int given for created_at, updated_at or retry_count comes back as
    that int, and every field that was not given holds its default (the
    time of the call for created_at and updated_at, "queued", the float 0.0,
    the int 0, the empty str) with the type of the default. *)
Theorem X1_create_job_round_trip (job_data : pydict) (new : string) (w : world) :
  job_data !! "job_id" = Some (PStr new) →
  map_Forall (λ _ v, v ≠ PNone) job_data →
  let now := Z.quot (clock w) 1000 in
  let w' := after (create_job job_data) w in
  outcome (create_job job_data) w = Ok (PStr new)
  ∧ (∃ job, get_job new w' = (Ok (Some job), w')
       ∧ (∀ f s, f ∉ numeric_fields →
            job_data !! f = Some (PStr s) → job !! f = Some (PStr s))
       ∧ (∀ f n, f ∈ ["created_at"; "updated_at"; "retry_count"] →
            job_data !! f = Some (PInt n) → job !! f = Some (PInt n))
       ∧ (∀ f v, job_data !! f = None →
            job_defaults now now !! f = Some v → job !! f = Some v))
  ∧ redis.list_at (store w') JOBS_LIST_KEY
      = new :: redis.list_at (store w) JOBS_LIST_KEY
  ∧ ttls (store w') !! (JOB_PREFIX +:+ new) = Some (now + JOB_EXPIRY_SECONDS).
Proof.
  intros Hid Hok now w'.
  destruct (retry_facts.create_job_run job_data new w Hid Hok)
    as (w1 & Hrun & Hh & Hl & _).
  assert (Hw : w' = w1) by (unfold w', after; by rewrite Hrun).
  split; [unfold outcome; by rewrite Hrun|].
  split; [|split].
  - pose proof (retry_facts.hash_at_same _ _ _ _ Hh) as Hhash. fold now in Hhash.
    rewrite <- Hw in Hhash.
    eexists. split.
    { rewrite job_facts.get_job_run.
      rewrite (update_facts.read_job_present _ _ _ Hhash); [reflexivity|].
      eapply round_trip_facts.written_non_empty.
      apply lookup_union_Some_l. exact Hid. }
    split; [|split].
    + intros f s Hf Hv. rewrite job_facts.decode_job_lookup.
      erewrite round_trip_facts.written_field
        by (apply lookup_union_Some_l; exact Hv).
      cbn [fmap option_fmap option_map py_str].
      by rewrite round_trip_facts.decode_text.
    + intros f n Hf Hv. rewrite job_facts.decode_job_lookup.
      erewrite round_trip_facts.written_field
        by (apply lookup_union_Some_l; exact Hv).
      cbn [fmap option_fmap option_map py_str].
      by rewrite round_trip_facts.decode_int.
    + intros f v Hnone Hv. rewrite job_facts.decode_job_lookup.
      erewrite round_trip_facts.written_field
        by (rewrite lookup_union_r; [exact Hv|exact Hnone]).
      cbn [fmap option_fmap option_map].
      by rewrite (round_trip_facts.decode_default now now f v Hv).
  - rewrite Hw. unfold redis.list_at. by rewrite Hl, lookup_insert_eq.
  - apply round_trip_facts.create_job_expiry; done.
Qed.

Lemma X1_create_job_round_trip_witness :
  let job_data : pydict :=
    list_to_map [("job_id", PStr "j1"); ("url", PStr "https://example.org/v");
                 ("retry_count", PInt 2)] in
  let w' := after (create_job job_data) fresh_world in
  outcome (create_job job_data) fresh_world = Ok (PStr "j1")
  ∧ (∃ job, get_job "j1" w' = (Ok (Some job), w')
       ∧ (∀ f s, f ∉ numeric_fields →
            job_data !! f = Some (PStr s) → job !! f = Some (PStr s))
       ∧ (∀ f n, f ∈ ["created_at"; "updated_at"; "retry_count"] →
            job_data !! f = Some (PInt n) → job !! f = Some (PInt n))
       ∧ (∀ f v, job_data !! f = None →
            job_defaults 0 0 !! f = Some v → job !! f = Some v))
  ∧ redis.list_at (store w') JOBS_LIST_KEY = ["j1"]
  ∧ ttls (store w') !! (JOB_PREFIX +:+ "j1") = Some 86400.
Proof.
  intros job_data w'.
  apply (X1_create_job_round_trip job_data "j1" fresh_world).
  - reflexivity.
  - apply retry_facts.list_to_map_sendable. repeat constructor; done.
Defined.

Module atomic_facts.

Lemma not_sendable (m : pydict) :
  ¬ map_Forall (λ _ v, v ≠ PNone) m → ∃ k, m !! k = Some PNone.
Proof.
  intros H. apply map_not_Forall in H; [|apply _].
  destruct H as (k & v & Hk & Hv). exists k.
  destruct (decide (v = PNone)) as [->|Hne]; [done|]. by destruct Hv.
Qed.

End atomic_facts.

(** X2. A call of [create_job] that raises has written nothing: the
    record, the index and the rest of the world are as before. It raises
    ValueError when the dict has no [job_id] and DataError when it has one
    and one of its values is None; in every other case it returns the
    [job_id] of the dict. *)
Theorem X2_create_job_failure_leaves_no_trace (job_data : pydict) (w : world) :
  match outcome (create_job job_data) w with
  | Raise e =>
      after (create_job job_data) w = w
      ∧ (e = ValueError ∧ job_data !! "job_id" = None
         ∨ e = DataError ∧ is_Some (job_data !! "job_id")
           ∧ ∃ k, job_data !! k = Some PNone)
  | Ok job_id =>
      job_data !! "job_id" = Some job_id
      ∧ map_Forall (λ _ v, v ≠ PNone) job_data
  end.
Proof.
  unfold create_job.
  destruct (job_data !! "job_id") as [job_id|] eqn:Hid.
  - unfold time.int_time, redis.hset, redis.lpush, redis.expire, redis.encode_mapping.
    run_py.
    destruct (decide (map_Forall (λ _ v, v ≠ PNone)
                (job_data ∪ job_defaults (Z.quot (clock w) 1000) (Z.quot (clock w) 1000))))
      as [Hok|Hbad].
    + rewrite (bool_decide_eq_true_2 _ Hok). cbn [fst snd].
      assert (Hj : job_id ≠ PNone).
      { apply (Hok "job_id"). by apply lookup_union_Some_l. }
      assert (Hdata : map_Forall (λ _ v, v ≠ PNone) job_data).
      { intros k v Hk. apply (Hok k). by apply lookup_union_Some_l. }
      destruct job_id; [done|..]; cbn [redis_encode fst snd];
        destruct (redis.key_exists _ _); cbn [fst snd]; done.
    + rewrite (bool_decide_eq_false_2 _ Hbad). cbn [fst snd].
      split; [done|]. right. split; [done|]. split; [done|].
      destruct (atomic_facts.not_sendable _ Hbad) as (k & Hk).
      exists k. apply lookup_union_Some_raw in Hk as [Hk|[_ Hk]]; [done|].
      by destruct (retry_facts.job_defaults_sendable _ _ k PNone Hk).
  - run_py. split; [done|]. by left.
Qed.

Module merge_facts.

Lemma updated_field (updates : pydict) (h : gmap string string) f v :
  updates !! f = Some v → f ≠ "updated_at" → ∀ now,
  ((py_str <$> <["updated_at" := PInt now]> updates) ∪ h) !! f = Some (py_str v).
Proof.
  intros Hv Hf now. apply round_trip_facts.written_field.
  by rewrite lookup_insert_ne.
Qed.

Lemma kept_field (updates : pydict) (h : gmap string string) f :
  updates !! f = None → f ≠ "updated_at" → ∀ now,
  ((py_str <$> <["updated_at" := PInt now]> updates) ∪ h) !! f = h !! f.
Proof.
  intros Hv Hf now. apply lookup_union_r.
  by rewrite lookup_fmap, lookup_insert_ne, Hv.
Qed.

Lemma update_job_expiry job_id updates w :
  redis.key_exists (store w) (JOB_PREFIX +:+ job_id) = true →
  map_Forall (λ _ v, v ≠ PNone) updates →
  ttls (store (after (update_job job_id updates) w)) !! (JOB_PREFIX +:+ job_id)
    = Some (Z.quot (clock w) 1000 + JOB_EXPIRY_SECONDS).
Proof.
  intros H Hup. unfold update_job, redis.exists_, time.int_time, redis.hset, redis.expire.
  run_py. rewrite H. cbn [Z.eqb]. unfold redis.encode_mapping.
  rewrite bool_decide_eq_true_2 by (by apply map_Forall_insert_2). cbn [fst snd].
  rewrite job_facts.key_exists_hash.
  - db_simpl. by rewrite lookup_insert_eq.
  - db_simpl. rewrite lookup_insert_eq. cbn [default from_option id].
    apply update_facts.updated_non_empty.
Qed.

End merge_facts.

(** X3. [update_job] on a job that exists, with values none of which is
    None, returns True and merges: a field that is given reads back as what
    [get_job] makes of the text of the new value, a field that is not given
    keeps what it held, updated_at becomes the time of the call, the record
    expires 86400 seconds after the call, and the records of the other
    jobs and the index are as before. *)
Theorem X3_update_job_merges (job_id : string) (updates : pydict) (w : world)
    (job : pydict) :
  read_job (store w) job_id = Some job →
  map_Forall (λ _ v, v ≠ PNone) updates →
  let now := Z.quot (clock w) 1000 in
  let w' := after (update_job job_id updates) w in
  outcome (update_job job_id updates) w = Ok true
  ∧ (∃ job', read_job (store w') job_id = Some job'
       ∧ (∀ f v, f ≠ "updated_at" → updates !! f = Some v →
            job' !! f = Some (decode_value f (py_str v)))
       ∧ (∀ f, f ≠ "updated_at" → updates !! f = None → job' !! f = job !! f)
       ∧ job' !! "updated_at" = Some (PInt now))
  ∧ ttls (store w') !! (JOB_PREFIX +:+ job_id) = Some (now + JOB_EXPIRY_SECONDS)
  ∧ (∀ other, other ≠ job_id → read_job (store w') other = read_job (store w) other)
  ∧ redis.list_at (store w') JOBS_LIST_KEY = redis.list_at (store w) JOBS_LIST_KEY.
Proof.
  intros Hjob Hok now w'.
  destruct (retry_facts.read_job_Some _ _ _ Hjob) as [Hne ->].
  pose proof (job_facts.key_exists_hash _ _ Hne) as Hex.
  destruct (job_facts.update_job_present job_id updates w Hex Hok)
    as (w1 & Hrun & Hh & Hl & _).
  assert (Hw : w' = w1) by (unfold w', after; by rewrite Hrun).
  split; [unfold outcome; by rewrite Hrun|].
  pose proof (retry_facts.hash_at_same _ _ _ _ Hh) as Hhash. fold now in Hhash.
  rewrite <- Hw in Hhash, Hh, Hl.
  split; [|split; [|split]].
  - eexists. split.
    { apply (update_facts.read_job_present _ _ _ Hhash).
      apply update_facts.updated_non_empty. }
    split; [|split].
    + intros f v Hf Hv. rewrite job_facts.decode_job_lookup.
      by rewrite (merge_facts.updated_field _ _ _ _ Hv Hf).
    + intros f Hf Hv. rewrite !job_facts.decode_job_lookup.
      by rewrite (merge_facts.kept_field _ _ _ Hv Hf).
    + rewrite job_facts.decode_job_lookup.
      erewrite round_trip_facts.written_field by apply lookup_insert_eq.
      cbn [fmap option_fmap option_map py_str].
      by rewrite round_trip_facts.decode_int by (repeat constructor).
  - by apply merge_facts.update_job_expiry.
  - intros other Hother. unfold read_job.
    rewrite (retry_facts.hash_at_other _ _ _ _ _ Hh); [done|].
    apply retry_facts.job_key_ne. congruence.
  - unfold redis.list_at. by rewrite Hl.
Qed.

Lemma X3_update_job_merges_witness :
  let w := world_with_job "j1" "running" 0 in
  let updates : pydict := {[ "progress" := PInt 50 ]} in
  let w' := after (update_job "j1" updates) w in
  outcome (update_job "j1" updates) w = Ok true
  ∧ (∃ job', read_job (store w') "j1" = Some job'
       ∧ (∀ f v, f ≠ "updated_at" → updates !! f = Some v →
            job' !! f = Some (decode_value f (py_str v)))
       ∧ (∀ f, f ≠ "updated_at" → updates !! f = None →
            job' !! f = decode_job (redis.hash_at (store w) (JOB_PREFIX +:+ "j1")) !! f)
       ∧ job' !! "updated_at" = Some (PInt 0))
  ∧ ttls (store w') !! (JOB_PREFIX +:+ "j1") = Some 86400
  ∧ (∀ other, other ≠ "j1" → read_job (store w') other = read_job (store w) other)
  ∧ redis.list_at (store w') JOBS_LIST_KEY = redis.list_at (store w) JOBS_LIST_KEY.
Proof.
  intros w updates w'.
  apply (X3_update_job_merges "j1" updates w
           (decode_job (redis.hash_at (store w) (JOB_PREFIX +:+ "j1")))).
  - apply update_facts.read_job_present; [reflexivity|].
    apply (lineage_facts.lookup_non_empty _ "job_id" "j1"). vm_compute. reflexivity.
  - by apply map_Forall_singleton.
Defined.

(** ** Jobs as the download endpoints create them *)

Module iso_facts.

Lemma with_sign_cases {A} (neg : A → A) p c cs :
  with_sign neg p (c :: cs) =
    if Ascii.eqb c "-" then neg <$> p cs
    else if Ascii.eqb c "+" then p cs
    else p (c :: cs).
Proof. by destruct c as [[] [] [] [] [] [] [] []]. Qed.

Lemma lstrip_keeps c cs : is_blank c = false → c ∈ cs → c ∈ lstrip cs.
Proof.
  intros Hc. induction cs as [|x cs IH]; [done|]. cbn [lstrip].
  destruct (is_blank x) eqn:Hx; [|done].
  intros [->|H]%elem_of_cons; [congruence|by apply IH].
Qed.

Lemma elem_of_rev (c : ascii) cs : c ∈ cs → c ∈ rev cs.
Proof. rewrite !list_elem_of_In. apply in_rev. Qed.

Lemma strip_keeps c cs : is_blank c = false → c ∈ cs → c ∈ strip cs.
Proof.
  intros Hc H. unfold strip. apply elem_of_rev, lstrip_keeps; [done|].
  by apply elem_of_rev, lstrip_keeps.
Qed.

Lemma digits_val_letter c cs acc :
  is_digit c = false → c ∈ cs → digits_val acc cs = None.
Proof.
  intros Hc H. revert acc. induction cs as [|x cs IH]; intros acc.
  - by apply elem_of_nil in H.
  - cbn [digits_val]. destruct (is_digit x) eqn:Hx; [|done].
    apply elem_of_cons in H as [->|H]; [congruence|by apply IH].
Qed.

Lemma unsigned_int_letter c cs :
  is_digit c = false → c ∈ cs → unsigned_int cs = None.
Proof.
  intros Hc H. unfold unsigned_int. destruct cs; [done|].
  by eapply digits_val_letter.
Qed.

(** [int(s)] raises ValueError for a text in which the letter T occurs. *)
Lemma int_of_text_T s :
  "T"%char ∈ String.list_ascii_of_string s → int_of_text s = None.
Proof.
  intros H. unfold int_of_text.
  apply (strip_keeps "T" _ eq_refl) in H.
  destruct (strip _) as [|c cs]; [by apply elem_of_nil in H|].
  rewrite with_sign_cases.
  destruct (Ascii.eqb_spec c "-") as [->|Hm];
    [|destruct (Ascii.eqb_spec c "+") as [->|Hp]].
  - apply elem_of_cons in H as [?|H]; [done|].
    by rewrite (unsigned_int_letter "T" cs eq_refl H).
  - apply elem_of_cons in H as [?|H]; [done|].
    by rewrite (unsigned_int_letter "T" cs eq_refl H).
  - by rewrite (unsigned_int_letter "T" (c :: cs) eq_refl H).
Qed.

Lemma start_job_data_sendable job_id url platform type_ format quality client_ip now_iso :
  map_Forall (λ _ v, v ≠ PNone)
    (start_job_data job_id url platform type_ format quality client_ip now_iso).
Proof. apply retry_facts.list_to_map_sendable. repeat constructor; done. Qed.

(** The record of a job that a download endpoint has just created: it is
    at the head of the index, its created_at is the ISO text, which
    [get_job] leaves as it is, it is queued and its progress is 0. *)
Lemma started_job job_id url platform type_ format quality client_ip now_iso w :
  "T"%char ∈ String.list_ascii_of_string now_iso →
  let job_data :=
    start_job_data job_id url platform type_ format quality client_ip now_iso in
  let w' := after (create_job job_data) w in
  outcome (create_job job_data) w = Ok (PStr job_id)
  ∧ redis.list_at (store w') JOBS_LIST_KEY
      = job_id :: redis.list_at (store w) JOBS_LIST_KEY
  ∧ redis.hash_at (store w') (JOB_PREFIX +:+ job_id) !! "created_at" = Some now_iso
  ∧ redis.hash_at (store w') (JOB_PREFIX +:+ job_id) !! "status" = Some "queued"
  ∧ redis.hash_at (store w') (JOB_PREFIX +:+ job_id) !! "progress" = Some "0"
  ∧ ∃ job, read_job (store w') job_id = Some job
      ∧ job !! "created_at" = Some (PStr now_iso)
      ∧ job !! "progress" = Some (PFloat (Dec 0 0)).
Proof.
  intros HT job_data w'.
  destruct (retry_facts.create_job_run job_data job_id w eq_refl
              (start_job_data_sendable _ _ _ _ _ _ _ _))
    as (w1 & Hrun & Hh & Hl & _).
  assert (Hw : w' = w1) by (unfold w', after; by rewrite Hrun).
  pose proof (retry_facts.hash_at_same _ _ _ _ Hh) as Hhash.
  rewrite <- Hw in Hhash, Hl.
  assert (Hf : ∀ f v, job_data !! f = Some v →
            redis.hash_at (store w') (JOB_PREFIX +:+ job_id) !! f = Some (py_str v)).
  { intros f v Hv. rewrite Hhash. apply round_trip_facts.written_field.
    by apply lookup_union_Some_l. }
  split; [unfold outcome; by rewrite Hrun|].
  split; [unfold redis.list_at; by rewrite Hl, lookup_insert_eq|].
  pose proof (Hf "created_at" (PStr now_iso) eq_refl) as Hc.
  pose proof (Hf "status" (PStr "queued") eq_refl) as Hs.
  pose proof (Hf "progress" (PInt 0) eq_refl) as Hp.
  cbn [py_str] in Hc, Hs. change (py_str (PInt 0)) with "0" in Hp.
  repeat (split; [assumption|]).
  eexists. split.
  { apply update_facts.read_job_present; [reflexivity|].
    by apply (lineage_facts.lookup_non_empty _ _ _ Hc). }
  split.
  - rewrite job_facts.decode_job_lookup, Hc. cbn [fmap option_fmap option_map].
    unfold decode_value, convert_value.
    rewrite bool_decide_eq_true_2 by (repeat constructor).
    cbn [String.eqb Ascii.eqb Bool.eqb py_int]. by rewrite (int_of_text_T _ HT).
  - by rewrite job_facts.decode_job_lookup, Hp.
Qed.

End iso_facts.

Module export_facts.

Lemma export_job_json_created_at job s p :
  job !! "created_at" = Some (PStr s) →
  job !! "progress" = Some (PFloat p) →
  int_of_text s = None →
  ∀ w, export_job_json (Some job) w = (Raise ValueError, w).
Proof.
  intros Hc Hp Hs w. unfold export_job_json.
  assert (Hne : job ≠ ∅) by (intros ->; by rewrite lookup_empty in Hc).
  cbn [dict_truthy]. rewrite (bool_decide_eq_false_2 _ Hne).
  cbn [negb default from_option id]. unfold dict_get_or. rewrite Hc, Hp.
  cbn [default from_option id py_float py_int]. rewrite Hs. reflexivity.
Qed.

End export_facts.

(** X7. The history endpoints fail on the jobs that the download
    endpoints create. [start_video] and [start_audio] give [create_job] a
    [created_at] that is the text of [datetime.now().isoformat()], in which
    the letter T separates the date and the time; [create_job] stores it
    in place of its own integer default, [get_job] cannot make an int of it
    and leaves the text, and [export_job_json] calls [int] on it. So once
    such a job is created, [get_job_details] for it raises ValueError, and
    so does [get_history] for every limit, the job being at the head of
    the index. *)
Theorem X7_started_job_breaks_history
    (job_id url platform type_ format quality client_ip now_iso : string)
    (limit : Z) (w : world) :
  "T"%char ∈ String.list_ascii_of_string now_iso →
  let job_data :=
    start_job_data job_id url platform type_ format quality client_ip now_iso in
  let w' := after (create_job job_data) w in
  outcome (create_job job_data) w = Ok (PStr job_id)
  ∧ field_of w' job_id "created_at" = Some (PStr now_iso)
  ∧ get_job_details job_id w' = (Raise ValueError, w')
  ∧ get_history limit w' = (Raise ValueError, w').
Proof.
  intros HT job_data w'.
  destruct (iso_facts.started_job job_id url platform type_ format quality
              client_ip now_iso w HT)
    as (Hrun & Hl & _ & _ & _ & job & Hjob & Hc & Hp).
  fold job_data in Hrun, Hl, Hjob. fold w' in Hl, Hjob.
  pose proof (export_facts.export_job_json_created_at job now_iso _ Hc Hp
                (iso_facts.int_of_text_T _ HT)) as Hex.
  pose proof (query_facts.read_job_non_empty _ _ _ Hjob) as Hne.
  split; [exact Hrun|]. split; [|split].
  - unfold field_of. rewrite Hjob. exact Hc.
  - unfold get_job_details. unfold bind at 1. rewrite job_facts.get_job_run, Hjob.
    cbn [dict_truthy]. rewrite (bool_decide_eq_false_2 _ Hne). cbn [negb].
    unfold bind. by rewrite Hex.
  - unfold get_history. unfold bind at 1. rewrite query_facts.list_jobs_run, Hl.
    destruct (Z.to_nat (Z.max 1 (Z.min limit 1000))) as [|k] eqn:Hk; [lia|].
    cbn [take firstn omap list_omap]. rewrite Hjob.
    cbn [serialize_jobs dict_truthy]. rewrite (bool_decide_eq_false_2 _ Hne).
    cbn [negb]. unfold bind. by rewrite Hex.
Qed.

Lemma X7_started_job_breaks_history_witness :
  let job_data :=
    start_job_data "j1" "https://youtu.be/x" "youtube" "video" "mp4" "720"
                   "127.0.0.1" "2024-05-01T10:00:00.000001" in
  let w' := after (create_job job_data) fresh_world in
  outcome (create_job job_data) fresh_world = Ok (PStr "j1")
  ∧ field_of w' "j1" "created_at" = Some (PStr "2024-05-01T10:00:00.000001")
  ∧ get_job_details "j1" w' = (Raise ValueError, w')
  ∧ get_history 50 w' = (Raise ValueError, w').
Proof.
  apply (X7_started_job_breaks_history "j1" "https://youtu.be/x" "youtube" "video"
           "mp4" "720" "127.0.0.1" "2024-05-01T10:00:00.000001" 50 fresh_world).
  apply (bool_decide_unpack _). vm_compute. exact I.
Defined.

(** X8. [cleanup_old_jobs] fails on the jobs that the download endpoints
    create: for such a job, which is queued and so not passed over as
    running, it calls [int] on the ISO text of created_at. Once such a job
    is at the head of the index the call raises ValueError, whatever the
    number of days, and has removed nothing. *)
Theorem X8_started_job_breaks_cleanup_old_jobs
    (job_id url platform type_ format quality client_ip now_iso : string)
    (days : Z) (w : world) :
  "T"%char ∈ String.list_ascii_of_string now_iso →
  let job_data :=
    start_job_data job_id url platform type_ format quality client_ip now_iso in
  let w' := after (create_job job_data) w in
  cleanup_old_jobs days w' = (Raise ValueError, w').
Proof.
  intros HT job_data w'.
  destruct (iso_facts.started_job job_id url platform type_ format quality
              client_ip now_iso w HT)
    as (_ & Hl & Hc & Hs & _ & _).
  fold job_data in Hl, Hc, Hs. fold w' in Hl, Hc, Hs.
  unfold cleanup_old_jobs, time.time, redis.lrange. unfold bind at 1, gets.
  unfold bind at 1. rewrite query_facts.lrange_all.
  change "jobs:all" with JOBS_LIST_KEY. rewrite Hl.
  unfold bind at 1. cbn [cleanup_old_jobs_loop].
  unfold bind at 1, redis.hgetall, gets.
  change ("job:" +:+ job_id) with (JOB_PREFIX +:+ job_id).
  rewrite bool_decide_eq_false_2
    by (by apply (lineage_facts.lookup_non_empty _ _ _ Hc)).
  rewrite Hs, Hc. rewrite bool_decide_eq_false_2 by (by intros [=]).
  cbn [fmap option_fmap option_map default from_option id py_int].
  rewrite (iso_facts.int_of_text_T _ HT). reflexivity.
Qed.

Lemma X8_started_job_breaks_cleanup_old_jobs_witness :
  let job_data :=
    start_job_data "j1" "https://youtu.be/x" "youtube" "video" "mp4" "720"
                   "127.0.0.1" "2024-05-01T10:00:00.000001" in
  let w' := after (create_job job_data) fresh_world in
  cleanup_old_jobs 7 w' = (Raise ValueError, w').
Proof.
  apply (X8_started_job_breaks_cleanup_old_jobs "j1" "https://youtu.be/x" "youtube"
           "video" "mp4" "720" "127.0.0.1" "2024-05-01T10:00:00.000001" 7 fresh_world).
  apply (bool_decide_unpack _). vm_compute. exact I.
Defined.

(** ** What the admission controller reports *)

Module status_facts.
Import DownloadSemaphore.

Lemma str_of_int_truthy n : truthy (PStr (str_of_int n)) = true.
Proof.
  cbn [truthy]. unfold str_of_int.
  destruct n as [|p|p]; cbn [Z.to_int NilZero.string_of_int]; [done|..];
    pose proof (DecimalPos.Unsigned.to_uint_nonnil p);
    by destruct (Pos.to_uint p).
Qed.

Lemma get_status_run cfg w :
  get_status cfg w =
    (Ok (Status (Z.max 0 (active_count w))
                (MAX_CONCURRENT_DOWNLOADS cfg)
                (Z.max 0 (MAX_CONCURRENT_DOWNLOADS cfg - Z.max 0 (active_count w)))
                (Z.of_nat (length (queue w)))
                (active_set w)
                (queue w)), w).
Proof.
  unfold get_status, redis.get, redis.smembers, redis.lrange.
  unfold active_count, active_set, queue, redis.int_at.
  run_py. rewrite query_facts.lrange_all.
  destruct (ints (store w) !! count_key) as [n|]; cbn [default from_option id].
  - unfold py_or. rewrite str_of_int_truthy, text_facts.py_int_str_of_int.
    reflexivity.
  - reflexivity.
Qed.

Lemma queue_step fuel cfg c w : queue w = [] → queue (run_call fuel cfg c w) = [].
Proof.
  intros Hq. destruct c as [job_id timeout|job_id]; cbn [run_call].
  - destruct (semaphore_facts.acquire_run fuel cfg job_id timeout w)
      as [w' _ _ _ ->|w' _ _ _ ->]; by rewrite Hq.
  - destruct (semaphore_facts.release_run job_id w) as (_ & _ & _ & ->). done.
Qed.

Lemma queue_run fuel cfg calls w :
  queue w = [] → queue (run_calls fuel cfg calls w) = [].
Proof.
  revert w. induction calls as [|c calls IH]; intros w Hq; [done|].
  apply IH, queue_step, Hq.
Qed.

End status_facts.

(** X9. [get_status] does not fail and changes nothing. It reports the
    counter, or 0 when the counter is below 0 or its key is absent, as
    [active]; [available_slots] is never below 0 and, with [active], adds
    up to the larger of [active] and the limit; [queued] is the length of
    the whole queue and [active_jobs] the members of the active set. *)
Theorem X9_get_status_reports_ledger (cfg : config) (w : world) :
  ∃ s, DownloadSemaphore.get_status cfg w = (Ok s, w)
    ∧ DownloadSemaphore.active s = Z.max 0 (DownloadSemaphore.active_count w)
    ∧ DownloadSemaphore.max s = MAX_CONCURRENT_DOWNLOADS cfg
    ∧ 0 ≤ DownloadSemaphore.available_slots s
    ∧ DownloadSemaphore.active s + DownloadSemaphore.available_slots s
        = Z.max (DownloadSemaphore.active s) (DownloadSemaphore.max s)
    ∧ DownloadSemaphore.queued_jobs s = DownloadSemaphore.queue w
    ∧ DownloadSemaphore.queued s = Z.of_nat (length (DownloadSemaphore.queue w))
    ∧ DownloadSemaphore.active_jobs s = DownloadSemaphore.active_set w.
Proof.
  eexists. split; [apply status_facts.get_status_run|].
  cbn [DownloadSemaphore.active DownloadSemaphore.max DownloadSemaphore.available_slots
       DownloadSemaphore.queued DownloadSemaphore.queued_jobs
       DownloadSemaphore.active_jobs].
  repeat split; lia.
Qed.

(** X10. After [reset], whatever calls of [acquire] and [release] follow,
    no job is ever in the queue ([acquire] raises before it would add one):
    [get_status] reports [queued] 0, an [active] between 0 and the limit
    and [available_slots] that add up with it to the limit. With a limit
    below MAX_QUEUE_SIZE, as in the default settings,
    [check_queue_status] therefore returns True in every such state. *)
Theorem X10_queue_never_fills (fuel : nat) (cfg : config) (calls : list call)
    (w0 : world) :
  0 ≤ MAX_CONCURRENT_DOWNLOADS cfg < MAX_QUEUE_SIZE cfg →
  let w := run_calls fuel cfg calls (after DownloadSemaphore.reset w0) in
  (∃ s, DownloadSemaphore.get_status cfg w = (Ok s, w)
     ∧ DownloadSemaphore.queued s = 0
     ∧ DownloadSemaphore.queued_jobs s = []
     ∧ 0 ≤ DownloadSemaphore.active s ≤ DownloadSemaphore.max s
     ∧ DownloadSemaphore.active s + DownloadSemaphore.available_slots s
         = DownloadSemaphore.max s)
  ∧ check_queue_status cfg w = (Ok true, w).
Proof.
  intros Hcfg w.
  destruct (semaphore_facts.reset_run w0) as (Hc & _ & Hq).
  assert (Hb : 0 ≤ DownloadSemaphore.active_count w ≤ MAX_CONCURRENT_DOWNLOADS cfg).
  { apply semaphore_facts.bound_run. rewrite Hc. lia. }
  assert (Hq' : DownloadSemaphore.queue w = [])
    by (by apply status_facts.queue_run).
  split.
  - eexists. split; [apply status_facts.get_status_run|].
    cbn [DownloadSemaphore.active DownloadSemaphore.max
         DownloadSemaphore.available_slots DownloadSemaphore.queued
         DownloadSemaphore.queued_jobs].
    rewrite Hq'. cbn [length]. repeat split; lia.
  - unfold check_queue_status. unfold bind at 1.
    rewrite status_facts.get_status_run. unfold ret.
    cbn [DownloadSemaphore.active DownloadSemaphore.queued].
    rewrite Hq'. cbn [length]. f_equal. f_equal. apply Z.ltb_lt. lia.
Qed.

Lemma X10_queue_never_fills_witness :
  let calls := [Acquire "A" 300; Acquire "B" 300; Acquire "C" 0; Release "A"] in
  let w := run_calls 0 default_config calls
             (after DownloadSemaphore.reset fresh_world) in
  (∃ s, DownloadSemaphore.get_status default_config w = (Ok s, w)
     ∧ DownloadSemaphore.queued s = 0
     ∧ DownloadSemaphore.queued_jobs s = []
     ∧ 0 ≤ DownloadSemaphore.active s ≤ DownloadSemaphore.max s
     ∧ DownloadSemaphore.active s + DownloadSemaphore.available_slots s
         = DownloadSemaphore.max s)
  ∧ check_queue_status default_config w = (Ok true, w).
Proof.
  apply (X10_queue_never_fills 0 default_config
           [Acquire "A" 300; Acquire "B" 300; Acquire "C" 0; Release "A"]
           fresh_world).
  cbn [default_config MAX_CONCURRENT_DOWNLOADS MAX_QUEUE_SIZE]. lia.
Defined.

(** X11. A slot taken and given back: when the counter is at least 0 and
    below the limit and the job holds no slot, [acquire] returns True, and
    the [release] that follows brings the counter and the active set back
    to what they were; the queue is as before but for the entries of the
    job, which [acquire] removed. *)
Theorem X11_acquire_release_round_trip (fuel : nat) (cfg : config)
    (job_id : string) (timeout_seconds : Z) (w : world) :
  0 ≤ DownloadSemaphore.active_count w < MAX_CONCURRENT_DOWNLOADS cfg →
  job_id ∉ DownloadSemaphore.active_set w →
  let w1 := after (DownloadSemaphore.acquire (S fuel) cfg job_id timeout_seconds) w in
  let w2 := after (DownloadSemaphore.release job_id) w1 in
  outcome (DownloadSemaphore.acquire (S fuel) cfg job_id timeout_seconds) w
    = Ok (Some true)
  ∧ DownloadSemaphore.active_count w1 = DownloadSemaphore.active_count w + 1
  ∧ job_id ∈ DownloadSemaphore.active_set w1
  ∧ outcome (DownloadSemaphore.release job_id) w1 = Ok tt
  ∧ DownloadSemaphore.active_count w2 = DownloadSemaphore.active_count w
  ∧ DownloadSemaphore.active_set w2 = DownloadSemaphore.active_set w
  ∧ DownloadSemaphore.queue w2
      = filter (λ x, x ≠ job_id) (DownloadSemaphore.queue w).
Proof.
  intros Hb Hfree w1 w2.
  destruct (semaphore_facts.release_run job_id w1) as (Hr & Hc2 & Hs2 & Hq2).
  fold w2 in Hc2, Hs2, Hq2.
  destruct (semaphore_facts.acquire_run fuel cfg job_id timeout_seconds w)
    as [w' _ Hc1 Hs1 Hq1|w' Hfull _ _ _]; [|lia].
  fold w1 in Hc1, Hs1, Hq1.
  split; [done|]. split; [done|].
  split; [rewrite Hs1; apply elem_of_union_l, elem_of_singleton; done|].
  split; [done|].
  split; [rewrite Hc2, Hc1; lia|].
  split; [|by rewrite Hq2, Hq1].
  rewrite Hs2, Hs1. apply set_eq. intros x.
  rewrite elem_of_difference, elem_of_union, elem_of_singleton.
  split; [intros [[->|Hx] Hne]; done|].
  intros Hx. split; [by right|]. intros ->. done.
Qed.

Lemma X11_acquire_release_round_trip_witness :
  let w := after DownloadSemaphore.reset fresh_world in
  let w1 := after (DownloadSemaphore.acquire 1 default_config "A" 300) w in
  let w2 := after (DownloadSemaphore.release "A") w1 in
  outcome (DownloadSemaphore.acquire 1 default_config "A" 300) w = Ok (Some true)
  ∧ DownloadSemaphore.active_count w1 = DownloadSemaphore.active_count w + 1
  ∧ "A" ∈ DownloadSemaphore.active_set w1
  ∧ outcome (DownloadSemaphore.release "A") w1 = Ok tt
  ∧ DownloadSemaphore.active_count w2 = DownloadSemaphore.active_count w
  ∧ DownloadSemaphore.active_set w2 = DownloadSemaphore.active_set w
  ∧ DownloadSemaphore.queue w2
      = filter (λ x, x ≠ "A") (DownloadSemaphore.queue w).
Proof.
  apply (X11_acquire_release_round_trip 0 default_config "A" 300
           (after DownloadSemaphore.reset fresh_world)).
  - vm_compute. split; [by intros [=]|reflexivity].
  - apply (bool_decide_unpack _). vm_compute. exact I.
Defined.

(** ** Retry chains *)

Module chain_facts.
Import RetryManager.

Lemma request_fields_sendable r job_id job uuid4 n :
  read_job r job_id = Some job →
  Forall (λ f, is_Some (job !! f)) ["url"; "platform"; "type"; "format"; "quality"] →
  map_Forall (λ _ v, v ≠ PNone) (retry_job_data uuid4 job_id None job n).
Proof.
  intros Hjob Hreq. apply retry_facts.list_to_map_sendable.
  repeat (apply Forall_cons in Hreq as [? Hreq]).
  repeat (apply Forall_cons; split); cbn [snd param];
    try (by apply (lineage_facts.read_job_sendable _ _ _ _ Hjob));
    try done.
Qed.

(** The records after a retry that goes through. *)
Lemma retry_records cfg uuid4 job_id w job n :
  read_job (store w) job_id = Some job →
  py_int (dict_get_or job "retry_count" (PInt 0)) = Ok n →
  n < MAX_RETRIES cfg →
  Forall (λ f, is_Some (job !! f)) ["url"; "platform"; "type"; "format"; "quality"] →
  uuid4 ≠ job_id →
  let w' := after (create_retry_job cfg uuid4 job_id None) w in
  outcome (create_retry_job cfg uuid4 job_id None) w = Ok (Some uuid4)
  ∧ (∃ new, read_job (store w') uuid4 = Some new
       ∧ new !! "retry_count" = Some (PInt (n + 1))
       ∧ new !! "parent_job_id" = Some (PStr job_id)
       ∧ new !! "child_job_id" = Some (PStr "")
       ∧ new !! "status" = Some (PStr "queued"))
  ∧ (∃ orig, read_job (store w') job_id = Some orig
       ∧ orig !! "child_job_id" = Some (PStr uuid4)
       ∧ ∀ f, f ≠ "child_job_id" → f ≠ "updated_at" → orig !! f = job !! f)
  ∧ (∀ other, other ≠ uuid4 → other ≠ job_id →
       read_job (store w') other = read_job (store w) other)
  ∧ redis.list_at (store w') JOBS_LIST_KEY
      = uuid4 :: redis.list_at (store w) JOBS_LIST_KEY.
Proof.
  intros Hjob Hn Hlt Hreq Hne w'.
  pose proof (request_fields_sendable _ _ _ uuid4 n Hjob Hreq) as Hok.
  destruct (retry_facts.create_job_run _ uuid4 w
              (proj1 (retry_facts.retry_job_data_lookup _ _ _ _ _)) Hok)
    as (w1 & Hrun1 & Hh1 & Hl1 & _ & _ & _ & Hc1 & _).
  pose proof (retry_facts.job_key_ne _ _ Hne) as Hk.
  destruct (retry_facts.read_job_Some _ _ _ Hjob) as [Hne0 Hdec].
  destruct (job_facts.update_job_present job_id {[ "child_job_id" := PStr uuid4 ]} w1)
    as (w2 & Hrun2 & Hh2 & Hl2 & _).
  { apply job_facts.key_exists_hash.
    by rewrite (retry_facts.hash_at_other _ _ _ _ _ Hh1 Hk). }
  { by apply map_Forall_singleton. }
  assert (Hrun : create_retry_job cfg uuid4 job_id None w = (Ok (Some uuid4), w2)).
  { unfold create_retry_job. unfold bind at 1.
    rewrite job_facts.get_job_run, Hjob. unfold bind at 1, lift. rewrite Hn.
    rewrite (proj2 (Z.leb_gt _ _) Hlt).
    unfold bind at 1. rewrite Hrun1. unfold bind at 1. by rewrite Hrun2. }
  assert (Hw : w' = w2) by (unfold w', after; by rewrite Hrun).
  clearbody w'. subst w'. unfold outcome. rewrite Hrun. cbn [fst].
  assert (Hk' : JOB_PREFIX +:+ job_id ≠ JOB_PREFIX +:+ uuid4)
    by (apply retry_facts.job_key_ne; congruence).
  set (now := Z.quot (clock w) 1000) in *.
  assert (Hnew : redis.hash_at (store w2) (JOB_PREFIX +:+ uuid4) =
            (py_str <$> (retry_job_data uuid4 job_id None job n ∪ job_defaults now now))
            ∪ redis.hash_at (store w) (JOB_PREFIX +:+ uuid4)).
  { rewrite (retry_facts.hash_at_other _ _ _ _ _ Hh2 Hk').
    apply (retry_facts.hash_at_same _ _ _ _ Hh1). }
  assert (Horig : redis.hash_at (store w2) (JOB_PREFIX +:+ job_id) =
            (py_str <$> <["updated_at" := PInt now]> {[ "child_job_id" := PStr uuid4 ]})
            ∪ redis.hash_at (store w) (JOB_PREFIX +:+ job_id)).
  { rewrite (retry_facts.hash_at_same _ _ _ _ Hh2), Hc1.
    by rewrite (retry_facts.hash_at_other _ _ _ _ _ Hh1 Hk). }
  split; [reflexivity|]. split; [|split; [|split]].
  - eexists. split.
    { apply (update_facts.read_job_present _ _ _ Hnew).
      apply (round_trip_facts.written_non_empty _ _ "job_id" (PStr uuid4)).
      apply lookup_union_Some_l. reflexivity. }
    repeat split; rewrite job_facts.decode_job_lookup.
    + rewrite (round_trip_facts.written_field _ _ "retry_count" (PInt (n + 1)))
        by (apply lookup_union_Some_l; reflexivity).
      cbn [fmap option_fmap option_map py_str].
      by rewrite round_trip_facts.decode_int by (repeat constructor).
    + rewrite (round_trip_facts.written_field _ _ "parent_job_id" (PStr job_id))
        by (apply lookup_union_Some_l; reflexivity).
      reflexivity.
    + rewrite (round_trip_facts.written_field _ _ "child_job_id" (PStr ""))
        by (rewrite lookup_union_r; reflexivity).
      reflexivity.
    + rewrite (round_trip_facts.written_field _ _ "status" (PStr "queued"))
        by (apply lookup_union_Some_l; reflexivity).
      reflexivity.
  - eexists. split.
    { apply (update_facts.read_job_present _ _ _ Horig).
      apply update_facts.updated_non_empty. }
    split.
    + rewrite job_facts.decode_job_lookup.
      pose proof (merge_facts.updated_field {[ "child_job_id" := PStr uuid4 ]}
                    (redis.hash_at (store w) (JOB_PREFIX +:+ job_id))
                    "child_job_id" (PStr uuid4) (lookup_singleton_eq _ _)
                    ltac:(done) now) as Hch.
      rewrite Hch. reflexivity.
    + intros f Hf1 Hf2. rewrite Hdec, !job_facts.decode_job_lookup.
      rewrite merge_facts.kept_field; [done| |done].
      by apply lookup_singleton_ne.
  - intros other Ho1 Ho2. unfold read_job.
    rewrite (retry_facts.hash_at_other _ _ _ _ _ Hh2)
      by (apply retry_facts.job_key_ne; congruence).
    rewrite (retry_facts.hash_at_other _ _ _ _ _ Hh1)
      by (apply retry_facts.job_key_ne; congruence).
    done.
  - unfold redis.list_at. rewrite Hl2, Hl1. by rewrite lookup_insert_eq.
Qed.

Lemma truthy_id s : s ≠ "" → truthy (PStr s) = true.
Proof.
  intros H. cbn [truthy]. destruct (String.eqb_spec s ""); done.
Qed.

Lemma dict_truthy_read r job_id job :
  read_job r job_id = Some job → dict_truthy (Some job) = true.
Proof.
  intros H. cbn [dict_truthy].
  by rewrite (bool_decide_eq_false_2 _ (query_facts.read_job_non_empty _ _ _ H)).
Qed.

(** The chain of a pair of records of which [parent] has no parent and
    [child] no child: it is the same from either end. *)
Lemma chain_of_pair fuel w parent child p c :
  read_job (store w) parent = Some p →
  read_job (store w) child = Some c →
  truthy (dict_get p "parent_job_id") = false →
  dict_get p "child_job_id" = PStr child →
  dict_get c "parent_job_id" = PStr parent →
  truthy (dict_get c "child_job_id") = false →
  parent ≠ "" → child ≠ "" →
  get_retry_chain (S fuel) parent w = (Ok (Some [PStr parent; PStr child]), w)
  ∧ get_retry_chain (S fuel) child w = (Ok (Some [PStr parent; PStr child]), w).
Proof.
  intros Hp Hc Hpp Hpc Hcp Hcc Hne1 Hne2.
  pose proof (dict_truthy_read _ _ _ Hp) as Htp.
  pose proof (dict_truthy_read _ _ _ Hc) as Htc.
  split; unfold get_retry_chain; unfold bind at 1;
    rewrite job_facts.get_job_run.
  - rewrite Hp. unfold bind at 1.
    cbn [trace_backwards]. rewrite Htp.
    cbn [default from_option id andb]. rewrite Hpp. unfold ret at 1.
    unfold bind at 1. rewrite job_facts.get_job_run, Hp.
    cbn [trace_forwards]. rewrite Htp. cbn [default from_option id andb].
    rewrite Hpc, (truthy_id _ Hne2). unfold bind at 1. cbn [py_str].
    rewrite job_facts.get_job_run, Hc.
    destruct fuel; cbn [trace_forwards]; rewrite Htc;
      cbn [default from_option id andb]; rewrite Hcc; reflexivity.
  - rewrite Hc. unfold bind at 1. cbn [trace_backwards]. rewrite Htc.
    cbn [default from_option id andb]. rewrite Hcp, (truthy_id _ Hne1).
    unfold bind at 1. cbn [py_str]. rewrite job_facts.get_job_run, Hp.
    destruct fuel; cbn [trace_backwards]; rewrite Htp;
      cbn [default from_option id andb]; rewrite Hpp; unfold ret at 1;
      unfold bind at 1; rewrite job_facts.get_job_run, Hc;
      cbn [trace_forwards]; rewrite Htc; cbn [default from_option id andb];
      rewrite Hcc; reflexivity.
Qed.

End chain_facts.

Module budget_facts.
Import RetryManager.




Lemma get_retry_info_absent cfg job_id w :
  read_job (store w) job_id = None →
  get_retry_info cfg job_id w = (Ok None, w).
Proof.
  intros Hjob. unfold get_retry_info. unfold bind at 1.
  by rewrite job_facts.get_job_run, Hjob.
Qed.

Lemma get_retry_info_count cfg job_id w job :
  read_job (store w) job_id = Some job →
  get_retry_info cfg job_id w =
    match py_int (dict_get_or job "retry_count" (PInt 0)) with
    | Ok n =>
        match can_retry cfg job_id w with
        | (Ok b, w') =>
            (Ok (Some (RetryInfo job_id n (MAX_RETRIES cfg)
                         (Z.max 0 (MAX_RETRIES cfg - n)) b
                         (dict_get job "parent_job_id")
                         (dict_get job "child_job_id"))), w')
        | (Raise e, w') => (Raise e, w')
        end
    | Raise e => (Raise e, w)
    end.
Proof.
  intros Hjob. unfold get_retry_info. unfold bind at 1.
  rewrite job_facts.get_job_run, Hjob, (chain_facts.dict_truthy_read _ _ _ Hjob).
  cbn [negb default from_option id]. unfold bind at 1, lift.
  destruct (py_int _); [|done]. unfold bind at 1.
  by destruct (can_retry cfg job_id w) as [[b|e] w'].
Qed.

End budget_facts.

(** X12. The chain of a first retry. When [create_retry_job] goes through
    for a job that has no parent, with a new id that is not the empty str,
    [get_retry_chain] returns the list of the original and the new id, in
    this order, from the original and from the new job alike (each of its
    two loops gets past its first round). *)
Theorem X12_retry_chain_after_retry (cfg : config) (uuid4 job_id : string)
    (w : world) (job : pydict) (n : Z) (fuel : nat) :
  read_job (store w) job_id = Some job →
  py_int (dict_get_or job "retry_count" (PInt 0)) = Ok n →
  n < MAX_RETRIES cfg →
  Forall (λ f, is_Some (job !! f)) ["url"; "platform"; "type"; "format"; "quality"] →
  truthy (dict_get job "parent_job_id") = false →
  uuid4 ≠ job_id → job_id ≠ "" → uuid4 ≠ "" →
  let w' := after (RetryManager.create_retry_job cfg uuid4 job_id None) w in
  outcome (RetryManager.create_retry_job cfg uuid4 job_id None) w = Ok (Some uuid4)
  ∧ RetryManager.get_retry_chain (S fuel) job_id w'
      = (Ok (Some [PStr job_id; PStr uuid4]), w')
  ∧ RetryManager.get_retry_chain (S fuel) uuid4 w'
      = (Ok (Some [PStr job_id; PStr uuid4]), w').
Proof.
  intros Hjob Hn Hlt Hreq Hroot Hne Hid Hnew w'.
  destruct (chain_facts.retry_records cfg uuid4 job_id w job n Hjob Hn Hlt Hreq Hne)
    as (Hrun & (new & Hnew_job & _ & Hnp & Hnc & _)
        & (orig & Horig_job & Hoc & Hkept) & _).
  fold w' in Hnew_job, Horig_job.
  split; [exact Hrun|].
  apply (chain_facts.chain_of_pair fuel w' job_id uuid4 orig new);
    try done; unfold dict_get.
  - rewrite Hkept by done. exact Hroot.
  - by rewrite Hoc.
  - by rewrite Hnp.
  - by rewrite Hnc.
Qed.

Lemma X12_retry_chain_after_retry_witness :
  let w := world_with_job "j1" "error" 0 in
  let w' := after (RetryManager.create_retry_job default_config "j2" "j1" None) w in
  outcome (RetryManager.create_retry_job default_config "j2" "j1" None) w
    = Ok (Some "j2")
  ∧ RetryManager.get_retry_chain 1 "j1" w' = (Ok (Some [PStr "j1"; PStr "j2"]), w')
  ∧ RetryManager.get_retry_chain 1 "j2" w' = (Ok (Some [PStr "j1"; PStr "j2"]), w').
Proof.
  apply (X12_retry_chain_after_retry default_config "j2" "j1"
           (world_with_job "j1" "error" 0)
           (decode_job (redis.hash_at (store (world_with_job "j1" "error" 0))
                          (JOB_PREFIX +:+ "j1"))) 0 0).
  - apply update_facts.read_job_present; [reflexivity|].
    apply (lineage_facts.lookup_non_empty _ "job_id" "j1"). vm_compute. reflexivity.
  - vm_compute. reflexivity.
  - vm_compute. reflexivity.
  - repeat constructor; rewrite job_facts.decode_job_lookup; vm_compute; eauto.
  - vm_compute. reflexivity.
  - by intros [=].
  - by intros [=].
  - by intros [=].
Defined.



(** X14. [get_retry_info] for a job for which it returns a dict that is
    not empty: the job exists, nothing is changed, [retry_count] is the
    retry count of the record, [retries_remaining] is
    max(0, MAX_RETRIES - retry_count) and so never below 0, [can_retry] is
    the answer of [can_retry], and when it is True at least one retry
    remains. *)
Theorem X14_get_retry_info_consistent (cfg : config) (job_id : string) (w : world)
    (info : RetryManager.retry_info) :
  outcome (RetryManager.get_retry_info cfg job_id) w = Ok (Some info) →
  after (RetryManager.get_retry_info cfg job_id) w = w
  ∧ (∃ job, read_job (store w) job_id = Some job
       ∧ py_int (dict_get_or job "retry_count" (PInt 0))
           = Ok (RetryManager.info_retry_count info)
       ∧ RetryManager.info_parent_job_id info = dict_get job "parent_job_id"
       ∧ RetryManager.info_child_job_id info = dict_get job "child_job_id")
  ∧ RetryManager.info_job_id info = job_id
  ∧ RetryManager.info_max_retries info = MAX_RETRIES cfg
  ∧ RetryManager.info_retries_remaining info
      = Z.max 0 (MAX_RETRIES cfg - RetryManager.info_retry_count info)
  ∧ 0 ≤ RetryManager.info_retries_remaining info
  ∧ outcome (RetryManager.can_retry cfg job_id) w
      = Ok (RetryManager.info_can_retry info)
  ∧ (RetryManager.info_can_retry info = false
     ∨ 1 ≤ RetryManager.info_retries_remaining info).
Proof.
  intros Hout. unfold outcome in Hout.
  destruct (read_job (store w) job_id) as [job|] eqn:Hjob;
    [|by rewrite (budget_facts.get_retry_info_absent _ _ _ Hjob) in Hout].
  pose proof (budget_facts.get_retry_info_count cfg job_id w job Hjob) as Hrun.
  destruct (py_int (dict_get_or job "retry_count" (PInt 0))) as [n|] eqn:Hn;
    [|by rewrite Hrun in Hout].
  pose proof (refusal_facts.can_retry_reads cfg job_id w) as Hsame.
  unfold after in Hsame.
  destruct (RetryManager.can_retry cfg job_id w) as [[b|e] w1] eqn:Hcan;
    [|by rewrite Hrun in Hout].
  cbn [snd] in Hsame. subst w1.
  rewrite Hrun in Hout. cbn [fst] in Hout. injection Hout as <-.
  unfold after, outcome. rewrite Hrun, Hcan.
  cbn [fst snd RetryManager.info_job_id RetryManager.info_retry_count
       RetryManager.info_max_retries RetryManager.info_retries_remaining
       RetryManager.info_can_retry RetryManager.info_parent_job_id
       RetryManager.info_child_job_id].
  split; [done|]. split; [by exists job|].
  repeat (split; [first [done|lia]|]).
  destruct b; [right|by left].
  revert Hcan. unfold RetryManager.can_retry. unfold bind at 1.
  rewrite job_facts.get_job_run, Hjob.
  destruct (negb _); [by intros [=]|].
  unfold bind, lift. rewrite Hn.
  destruct (Z.leb_spec (MAX_RETRIES cfg) n); [by intros [=]|]. lia.
Qed.

Lemma X14_get_retry_info_consistent_witness :
  let w := world_with_job "j1" "error" 2 in
  let info := RetryManager.RetryInfo "j1" 2 3 1 true (PStr "") (PStr "") in
  outcome (RetryManager.get_retry_info default_config "j1") w = Ok (Some info)
  ∧ after (RetryManager.get_retry_info default_config "j1") w = w
  ∧ RetryManager.info_retries_remaining info = 1.
Proof.
  intros w info.
  assert (H : outcome (RetryManager.get_retry_info default_config "j1") w
              = Ok (Some info)) by (vm_compute; reflexivity).
  split; [exact H|].
  destruct (X14_get_retry_info_consistent default_config "j1" w info H)
    as (Hsame & _).
  split; [exact Hsame|reflexivity].
Defined.

(** ** Files: deletion and download *)

Module file_facts.

(** What a call of [safe_delete_file] can do: it returns, leaves the store
    alone, and removes at most one regular file, one that is not locked,
    after its check of the prefix has passed. *)
Lemma safe_delete_file_run cfg file_path w :
  ∃ b w', safe_delete_file cfg file_path w = (Ok b, w')
    ∧ store w' = store w ∧ clock w' = clock w ∧ sent w' = sent w
    ∧ cwd (disk w') = cwd (disk w) ∧ dirs (disk w') = dirs (disk w)
    ∧ locked (disk w') = locked (disk w)
    ∧ (files (disk w') = files (disk w)
       ∨ ∃ p, files (disk w') = files (disk w) ∖ {[p]}
           ∧ p ∈ files (disk w) ∧ (p ∉ locked (disk w))
           ∧ String.prefix (os.abspath_on (disk w) (DOWNLOAD_DIR cfg))
                           (os.abspath_on (disk w) file_path) = true
           ∧ b = true).
Proof.
  unfold safe_delete_file, try_except, os.exists_, os.abspath, os.isfile,
    os.remove, print.
  run_py.
  destruct (String.eqb file_path "" ||
            negb (bool_decide (is_Some (os.resolve (disk w) file_path)))).
  { exists true, w. repeat split; try done. by left. }
  destruct (String.prefix (os.abspath_on (disk w) (DOWNLOAD_DIR cfg))
                          (os.abspath_on (disk w) file_path)) eqn:Hpre;
    cbn [negb fst snd].
  2: { eexists _, _. split; [reflexivity|]. repeat split; try done. by left. }
  destruct (os.resolve (disk w) (os.abspath_on (disk w) file_path))
    as [stack|] eqn:Hres; cbn [negb fst snd].
  2: { exists false, w. repeat split; try done. by left. }
  destruct (os.is_file (disk w) stack) eqn:Hfile; cbn [negb fst snd].
  2: { exists false, w. repeat split; try done. by left. }
  rewrite Hres, Hfile.
  case_bool_decide as Hlock; cbn [fst snd].
  { eexists _, _. split; [reflexivity|]. repeat split; try done. by left. }
  eexists _, _. split; [reflexivity|]. repeat split; try done.
  right. exists (os.path_of stack). repeat split; try done.
  unfold os.is_file in Hfile. by apply bool_decide_eq_true in Hfile.
Qed.

End file_facts.

(** X15. [safe_delete_file] never raises and touches nothing but the disk
    and the printed lines. It removes at most one file, a regular file that
    is not locked, and only after its check has passed, that is when the
    text of the absolute path starts with the text of the absolute download
    directory; it then returns True. In every other case the files are as
    before. *)
Theorem X15_safe_delete_file_safe (cfg : config) (file_path : string) (w : world) :
  let w' := after (safe_delete_file cfg file_path) w in
  ∃ b, outcome (safe_delete_file cfg file_path) w = Ok b
    ∧ store w' = store w ∧ clock w' = clock w ∧ sent w' = sent w
    ∧ dirs (disk w') = dirs (disk w)
    ∧ (files (disk w') = files (disk w)
       ∨ ∃ p, files (disk w') = files (disk w) ∖ {[p]}
           ∧ p ∈ files (disk w) ∧ (p ∉ locked (disk w))
           ∧ String.prefix (os.abspath_on (disk w) (DOWNLOAD_DIR cfg))
                           (os.abspath_on (disk w) file_path) = true
           ∧ b = true).
Proof.
  intros w'.
  destruct (file_facts.safe_delete_file_run cfg file_path w)
    as (b & w1 & Hrun & Hs & Hc & Hsent & _ & Hd & _ & Hf).
  assert (Hw : w' = w1) by (unfold w', after; by rewrite Hrun).
  rewrite Hw. exists b. unfold outcome. rewrite Hrun. done.
Qed.

Module endpoint_facts.

Lemma delete_job_endpoint_run cfg job_id w job :
  read_job (store w) job_id = Some job →
  py_eqb (dict_get job "status") (PStr "running") = false →
  ∃ w1 w', delete_job_endpoint cfg job_id w = (Ok (Deleted job_id), w')
    ∧ store w1 = store w
    ∧ (files (disk w1) = files (disk w)
       ∨ ∃ p, files (disk w1) = files (disk w) ∖ {[p]})
    ∧ delete_job job_id w1 = (Ok true, w').
Proof.
  intros Hjob Hst.
  destruct (retry_facts.read_job_Some _ _ _ Hjob) as [Hne _].
  assert (Hstep : ∀ w1, store w1 = store w →
            ∃ w', delete_job job_id w1 = (Ok true, w')).
  { intros w1 Hs.
    destruct (job_facts.delete_job_run job_id w1) as (w' & Hrun & _).
    rewrite Hs, (job_facts.key_exists_hash _ _ Hne) in Hrun. by exists w'. }
  unfold delete_job_endpoint, try_except. unfold bind at 1.
  rewrite job_facts.get_job_run, Hjob, Hst.
  destruct (truthy (dict_get job "file_path")).
  - destruct (file_facts.safe_delete_file_run cfg (py_str (dict_get job "file_path")) w)
      as (b & w1 & Hrun & Hs & _ & _ & _ & _ & _ & Hf).
    destruct (Hstep w1 Hs) as (w' & Hdel).
    exists w1, w'. unfold bind at 1. unfold bind at 1. rewrite Hrun.
    unfold ret at 1. unfold bind at 1. rewrite Hdel.
    repeat split; try done.
    destruct Hf as [?|(p & ? & _)]; [by left|right; by exists p].
  - destruct (Hstep w eq_refl) as (w' & Hdel).
    exists w, w'. unfold bind at 1. unfold ret at 1. unfold bind at 1. rewrite Hdel.
    repeat split; try done. by left.
Qed.

End endpoint_facts.

(** X16. [delete_job_endpoint] for a job that exists and is not running
    answers "deleted", whatever became of the file: the record is gone, the
    id is no longer in the index, the records of the other jobs are as
    before, and no file has appeared. *)
Theorem X16_delete_job_endpoint_deletes (cfg : config) (job_id : string)
    (w : world) (job : pydict) :
  read_job (store w) job_id = Some job →
  py_eqb (dict_get job "status") (PStr "running") = false →
  let w' := after (delete_job_endpoint cfg job_id) w in
  outcome (delete_job_endpoint cfg job_id) w = Ok (Deleted job_id)
  ∧ read_job (store w') job_id = None
  ∧ (job_id ∉ redis.list_at (store w') JOBS_LIST_KEY)
  ∧ (∀ other, other ≠ job_id →
       read_job (store w') other = read_job (store w) other)
  ∧ files (disk w') ⊆ files (disk w).
Proof.
  intros Hjob Hst w'.
  destruct (endpoint_facts.delete_job_endpoint_run cfg job_id w job Hjob Hst)
    as (w1 & w2 & Hrun & Hs & Hf & Hdel).
  assert (Hw : w' = w2) by (unfold w', after; by rewrite Hrun).
  split; [unfold outcome; by rewrite Hrun|]. rewrite Hw. clear Hw w'.
  destruct (job_facts.delete_job_run job_id w1)
    as (w3 & Hrun3 & Hh & Hl & Hgone & Hd & _).
  rewrite Hdel in Hrun3. injection Hrun3 as _ <-.
  split; [by apply job_facts.read_job_None|].
  split; [|split].
  - rewrite Hl. intros [? _]%list_elem_of_filter. done.
  - intros other Hother. unfold read_job, redis.hash_at.
    rewrite Hh, lookup_delete_ne, Hs; [done|].
    apply retry_facts.job_key_ne. congruence.
  - rewrite Hd. destruct Hf as [->|(p & ->)]; set_solver.
Qed.

Lemma X16_delete_job_endpoint_deletes_witness :
  let w := world_with_file_job "j2" "done" "/etc/passwd" in
  let w' := after (delete_job_endpoint default_config "j2") w in
  outcome (delete_job_endpoint default_config "j2") w = Ok (Deleted "j2")
  ∧ read_job (store w') "j2" = None
  ∧ ("j2" ∉ redis.list_at (store w') JOBS_LIST_KEY)
  ∧ (∀ other, other ≠ "j2" →
       read_job (store w') other = read_job (store w) other)
  ∧ files (disk w') ⊆ files (disk w).
Proof.
  apply (X16_delete_job_endpoint_deletes default_config "j2"
           (world_with_file_job "j2" "done" "/etc/passwd")
           (decode_job (redis.hash_at
                          (store (world_with_file_job "j2" "done" "/etc/passwd"))
                          (JOB_PREFIX +:+ "j2")))).
  - apply update_facts.read_job_present; [reflexivity|].
    apply (lineage_facts.lookup_non_empty _ "job_id" "j2"). vm_compute. reflexivity.
  - vm_compute. reflexivity.
Defined.

Module download_facts.

Lemma file_path_text r job_id job :
  read_job r job_id = Some job →
  dict_get job "file_path" = PNone
  ∨ ∃ s, job !! "file_path" = Some (PStr s) ∧ dict_get job "file_path" = PStr s.
Proof.
  intros Hjob. unfold dict_get.
  rewrite (lineage_facts.read_job_field _ _ _ "file_path" Hjob).
  destruct (redis.hash_at r _ !! "file_path") as [s|]; [|by left].
  right. exists s. cbn [fmap option_fmap option_map default from_option id].
  by rewrite round_trip_facts.decode_text
    by (intros H; repeat (apply elem_of_cons in H as [?|H]; [done|]);
        by apply elem_of_nil in H).
Qed.

(** The answer of [download_file], case by case. *)
Lemma download_file_run cfg job_id w :
  download_file cfg job_id w =
    (Ok match read_job (store w) job_id with
        | None => JSONResponse 404 "Job not found"
        | Some job =>
            match job !! "file_path" with
            | Some (PStr path) =>
                if String.eqb path ""
                   || negb (bool_decide (is_Some (os.resolve (disk w) path)))
                then JSONResponse 404 "File not found"
                else if String.prefix (os.abspath_on (disk w) (DOWNLOAD_DIR cfg))
                                      (os.abspath_on (disk w) path)
                then FileResponse path (os.basename path)
                else JSONResponse 403 "Access denied"
            | _ => JSONResponse 404 "File not found"
            end
        end, w).
Proof.
  unfold download_file, try_except. unfold bind at 1.
  rewrite job_facts.get_job_run, query_facts.read_job_truthy.
  destruct (read_job (store w) job_id) as [job|] eqn:Hjob;
    [rewrite bool_decide_eq_true_2 by done
    |by rewrite bool_decide_eq_false_2 by (by intros [? ?])].
  cbn [negb default from_option id].
  destruct (file_path_text _ _ _ Hjob) as [Hnone|(s & Hs & Hget)].
  - rewrite Hnone. unfold dict_get in Hnone.
    destruct (job !! "file_path") as [[]|]; try done.
  - rewrite Hs, Hget. cbn [truthy py_str]. unfold os.exists_, os.abspath. run_py.
    destruct (String.eqb s ""); [done|]. cbn [negb orb].
    destruct (bool_decide _); [|done]. cbn [negb].
    by destruct (String.prefix _ _).
Qed.

End download_facts.

(** X17. [download_file] never raises and changes nothing. It answers
    with the file exactly when the job exists, its [file_path] is a str that
    is not empty and names something on the disk, and the text of its
    absolute path starts with the text of the absolute download directory;
    the file is then served under its base name. *)
Theorem X17_download_file_serves (cfg : config) (job_id : string) (w : world) :
  (∃ r, download_file cfg job_id w = (Ok r, w))
  ∧ ∀ path name,
      download_file cfg job_id w = (Ok (FileResponse path name), w)
      ↔ field_of w job_id "file_path" = Some (PStr path)
        ∧ path ≠ ""
        ∧ is_Some (os.resolve (disk w) path)
        ∧ String.prefix (os.abspath_on (disk w) (DOWNLOAD_DIR cfg))
                        (os.abspath_on (disk w) path) = true
        ∧ name = os.basename path.
Proof.
  rewrite download_facts.download_file_run. split; [by eexists|].
  intros path name. unfold field_of.
  destruct (read_job (store w) job_id) as [job|]; cbn [mbind option_bind];
    [|split; [by intros [=]|by intros [[=] _]]].
  destruct (job !! "file_path") as [[|s|?|?]|];
    try (split; [by intros [=]|by intros [[=] _]]).
  destruct (String.eqb_spec s "") as [->|Hs]; cbn [orb].
  { split; [by intros [=]|]. by intros ([= <-] & ? & _). }
  destruct (decide (is_Some (os.resolve (disk w) s))) as [Hres|Hres].
  2: { rewrite (bool_decide_eq_false_2 _ Hres). cbn [negb].
       split; [by intros [=]|]. by intros ([= <-] & _ & ? & _). }
  rewrite (bool_decide_eq_true_2 _ Hres). cbn [negb].
  destruct (String.prefix _ _) eqn:Hpre.
  - split; [by intros [= <- <-]|]. by intros ([= <-] & _ & _ & _ & ->).
  - split; [by intros [=]|]. intros ([= <-] & _ & _ & Hp & _). congruence.
Qed.

(** ** The progress stream at its ends *)

Module ending_facts.
Import progress_stream.

Lemma pending_inv p r job_id :
  pending p r job_id = true →
  ∃ job, read_job r job_id = Some job
    ∧ py_float (dict_get_or job "progress" (PInt 0)) = Ok p
    ∧ truthy (dict_get_or job "error" (PStr "")) = false
    ∧ py_eqb (dict_get_or job "status" (PStr "queued")) (PStr "done")
      || py_eqb (dict_get_or job "status" (PStr "queued")) (PStr "error") = false
    ∧ py_eqb (dict_get_or job "status" (PStr "queued")) (PStr "running")
      && dec_eqb p (Dec 0 0) = false.
Proof.
  unfold pending. destruct (read_job r job_id) as [job|]; [|done].
  intros [[[Hp He%negb_true_iff]%andb_true_iff Hs%negb_true_iff]%andb_true_iff
          Hr%negb_true_iff]%andb_true_iff.
  exists job. repeat split; try done.
  destruct (py_float _) as [q|]; [|done].
  by apply bool_decide_eq_true in Hp as ->.
Qed.

Lemma dec_eqb_refl p : dec_eqb p p = true.
Proof. unfold dec_eqb, dec_cmp. by rewrite Z.compare_refl. Qed.

(** A round on a pending record: the progress is sent if it differs from
    the last one sent, then the round sleeps. *)
Lemma pending_round rem others job_id i lp p w :
  pending p (store w) job_id = true →
  dec_geb p (Dec 100 0) = false →
  event_loop (S rem) others job_id i lp w =
    event_loop rem others job_id (i + 1) (if dec_eqb p lp then lp else p)
      (set_store (others (i + 1))
         (set_clock (λ t, t + poll_interval_ms)
            (if dec_eqb p lp then w
             else set_sent (λ l, l ++ [EvProgress p None]) w))).
Proof.
  intros (job & Hjob & Hp & Herr & Hend & Hstall)%pending_inv Hlow.
  stream_facts.run_round.
  rewrite Hjob, Hp, Herr, Hend, Hlow. rewrite andb_false_r.
  assert (py_eqb (dict_get_or job "status" (PStr "queued")) (PStr "running")
          && (100 <? i + 1) && dec_eqb p (Dec 0 0) = false) as ->.
  { destruct (py_eqb _ (PStr "running")), (dec_eqb p (Dec 0 0)), (100 <? i + 1);
      cbn [andb] in *; done. }
  by destruct (dec_eqb p lp).
Qed.

(** Rounds on a pending record whose progress was already sent: they only
    sleep. *)
Lemma pending_rounds (n : nat) rem others job_id i p w :
  pending p (store w) job_id = true →
  (∀ k r, pending p r job_id = true → pending p (others k r) job_id = true) →
  dec_geb p (Dec 100 0) = false →
  ∃ w', pending p (store w') job_id = true
    ∧ sent w' = sent w
    ∧ clock w' = clock w + poll_interval_ms * Z.of_nat n
    ∧ disk w' = disk w
    ∧ event_loop (n + rem) others job_id i p w
        = event_loop rem others job_id (i + Z.of_nat n) p w'.
Proof.
  intros Hst Henv Hlow. revert i w Hst.
  induction n as [|n IH]; intros i w Hst.
  - exists w. repeat split; [done|lia|]. by rewrite Z.add_0_r.
  - cbn [Nat.add]. rewrite (pending_round _ _ _ _ _ _ _ Hst Hlow).
    rewrite dec_eqb_refl.
    destruct (IH (i + 1) (set_store (others (i + 1))
                   (set_clock (λ t, t + poll_interval_ms) w)))
      as (w' & Hst' & Hsent & Hclock & Hdisk & Hrun).
    { cbn [store set_store set_clock]. by apply Henv. }
    exists w'. split; [done|]. split; [done|]. split; [|split; [done|]].
    + rewrite Hclock. cbn [clock set_store set_clock]. lia.
    + rewrite Hrun. f_equal. lia.
Qed.

(** The record after an [update_job] that goes through. *)
Lemma updated_record job_id updates w job :
  read_job (store w) job_id = Some job →
  map_Forall (λ _ v, v ≠ PNone) updates →
  ∃ w' job', update_job job_id updates w = (Ok true, w')
    ∧ read_job (store w') job_id = Some job'
    ∧ (∀ f v, f ≠ "updated_at" → updates !! f = Some v →
         job' !! f = Some (decode_value f (py_str v)))
    ∧ (∀ f, f ≠ "updated_at" → updates !! f = None → job' !! f = job !! f)
    ∧ disk w' = disk w ∧ clock w' = clock w
    ∧ stdout w' = stdout w ∧ sent w' = sent w.
Proof.
  intros Hjob Hok.
  destruct (retry_facts.read_job_Some _ _ _ Hjob) as [Hne ->].
  pose proof (job_facts.key_exists_hash _ _ Hne) as Hex.
  destruct (job_facts.update_job_present job_id updates w Hex Hok)
    as (w1 & Hrun & Hh & _ & _ & _ & Hd & Hc & Hout & Hsent).
  pose proof (retry_facts.hash_at_same _ _ _ _ Hh) as Hhash.
  exists w1. eexists. split; [exact Hrun|]. split.
  { apply (update_facts.read_job_present _ _ _ Hhash).
    apply update_facts.updated_non_empty. }
  split; [|split; [|done]].
  - intros f v Hf Hv. rewrite job_facts.decode_job_lookup.
    by rewrite (merge_facts.updated_field _ _ _ _ Hv Hf).
  - intros f Hf Hv. rewrite !job_facts.decode_job_lookup.
    by rewrite (merge_facts.kept_field _ _ _ Hv Hf).
Qed.

(** A round on a job that does not exist. *)
Lemma round_missing rem others job_id i lp w :
  read_job (store w) job_id = None →
  event_loop (S rem) others job_id i lp w
    = (Ok (i + 1), set_sent (λ l, l ++ [EvError "Job not found"]) w).
Proof. intros Hjob. stream_facts.run_round. by rewrite Hjob. Qed.

(** A round on a job that is done, has no error message and whose
    progress was not yet sent. *)
Lemma round_done rem others job_id i lp w job p :
  read_job (store w) job_id = Some job →
  py_float (dict_get_or job "progress" (PInt 0)) = Ok p →
  dec_eqb p lp = false →
  truthy (dict_get_or job "error" (PStr "")) = false →
  dict_get_or job "status" (PStr "queued") = PStr "done" →
  event_loop (S rem) others job_id i lp w
    = (Ok (i + 1),
       set_sent (λ l, l ++ [EvProgress p
                              (if truthy (dict_get_or job "file_name" (PStr ""))
                                  && dec_geb p (Dec 100 0)
                               then Some (py_str (dict_get_or job "file_name" (PStr "")))
                               else None)]) w).
Proof.
  intros Hjob Hp Hlp Herr Hst. stream_facts.run_round.
  rewrite Hjob, Hp, Hlp, Herr, Hst. reflexivity.
Qed.

End ending_facts.

(** X18. The stream of a job that does not exist: one event, the error
    "Job not found"; it ends at once, without sleeping, and writes
    nothing. *)
Theorem X18_stream_of_missing_job (others : Z → redis_db → redis_db)
    (job_id : string) (w : world) :
  read_job (store w) job_id = None →
  progress_stream.event_stream others job_id w
    = (Ok tt, set_sent (λ l, l ++ [EvError "Job not found"]) w).
Proof.
  intros Hjob. unfold progress_stream.event_stream, try_except. unfold bind at 1.
  change (Z.to_nat progress_stream.max_iterations) with (S 1999).
  by rewrite (ending_facts.round_missing _ _ _ _ _ _ Hjob).
Qed.

Lemma X18_stream_of_missing_job_witness :
  progress_stream.event_stream progress_stream.alone "ghost" fresh_world
    = (Ok tt, set_sent (λ l, l ++ [EvError "Job not found"]) fresh_world).
Proof.
  apply (X18_stream_of_missing_job progress_stream.alone "ghost" fresh_world).
  reflexivity.
Defined.

(** X19. A finished download is announced with its file name. Once
    [download_wrapper] has written status done, progress 100, the file name
    and the file path to a job that exists and has no error message, a
    stream for the job sends one event, the progress 100.0 with the file
    name (that is not empty), and ends at once: it does not sleep and
    writes nothing. *)
Theorem X19_finished_download_announced (others : Z → redis_db → redis_db)
    (job_id file_name file_path : string) (w : world) (job : pydict) :
  read_job (store w) job_id = Some job →
  truthy (dict_get_or job "error" (PStr "")) = false →
  file_name ≠ "" →
  let w1 := after (update_job job_id (done_update file_name file_path)) w in
  let w2 := after (progress_stream.event_stream others job_id) w1 in
  outcome (update_job job_id (done_update file_name file_path)) w = Ok true
  ∧ outcome (progress_stream.event_stream others job_id) w1 = Ok tt
  ∧ sent w2 = sent w1 ++ [EvProgress (Dec 100 0) (Some file_name)]
  ∧ clock w2 = clock w1
  ∧ store w2 = store w1.
Proof.
  intros Hjob Herr Hname w1 w2.
  destruct (ending_facts.updated_record job_id (done_update file_name file_path) w job
              Hjob)
    as (w' & job' & Hrun & Hjob' & Hnew & Hkept & _).
  { apply retry_facts.list_to_map_sendable. repeat constructor; done. }
  assert (Hw : w1 = w') by (unfold w1, after; by rewrite Hrun).
  split; [unfold outcome; by rewrite Hrun|].
  assert (Hs :
    progress_stream.event_stream others job_id w1
      = (Ok tt, set_sent (λ l, l ++ [EvProgress (Dec 100 0) (Some file_name)]) w1)).
  { rewrite Hw. unfold progress_stream.event_stream, try_except. unfold bind at 1.
    change (Z.to_nat progress_stream.max_iterations) with (S 1999).
    rewrite (ending_facts.round_done _ _ _ _ _ _ job' (Dec 100 0) Hjob').
    - unfold dict_get_or. rewrite (Hnew "file_name" (PStr file_name)) by done.
      cbn [default from_option id].
      change (decode_value "file_name" (py_str (PStr file_name)))
        with (PStr file_name).
      cbn [truthy py_str]. by rewrite (proj2 (String.eqb_neq _ _) Hname).
    - unfold dict_get_or. by rewrite (Hnew "progress" (PInt 100)).
    - reflexivity.
    - unfold dict_get_or. rewrite (Hkept "error") by done. exact Herr.
    - unfold dict_get_or. by rewrite (Hnew "status" (PStr "done")). }
  unfold w2, outcome, after. rewrite Hs. done.
Qed.

Lemma X19_finished_download_announced_witness :
  let w := world_with_job "j1" "running" 0 in
  let path := "/srv/mediadl/backend/downloads/video_1.mp4" in
  let w1 := after (update_job "j1" (done_update "video_1.mp4" path)) w in
  let w2 := after (progress_stream.event_stream progress_stream.alone "j1") w1 in
  outcome (update_job "j1" (done_update "video_1.mp4" path)) w = Ok true
  ∧ outcome (progress_stream.event_stream progress_stream.alone "j1") w1 = Ok tt
  ∧ sent w2 = sent w1 ++ [EvProgress (Dec 100 0) (Some "video_1.mp4")]
  ∧ clock w2 = clock w1
  ∧ store w2 = store w1.
Proof.
  apply (X19_finished_download_announced progress_stream.alone "j1" "video_1.mp4"
           "/srv/mediadl/backend/downloads/video_1.mp4"
           (world_with_job "j1" "running" 0)
           (decode_job (redis.hash_at (store (world_with_job "j1" "running" 0))
                          (JOB_PREFIX +:+ "j1")))).
  - apply update_facts.read_job_present; [reflexivity|].
    apply (lineage_facts.lookup_non_empty _ "job_id" "j1"). vm_compute. reflexivity.
  - vm_compute. reflexivity.
  - by intros [=].
Defined.

(** X20. The ceiling of a stream. For a job that goes on without a change
    (the same progress below 100, no error message, a status that is
    neither done nor error, and not running without progress: a job that
    stays queued, say), whatever else the other workers do, the stream
    sends the progress once, sleeps 0.3 seconds in each of its 2000 rounds
    and, 600 seconds after its start, sends the error "Timeout" and ends.
    It writes nothing to the record. *)
Theorem X20_stream_ceiling (others : Z → redis_db → redis_db) (job_id : string)
    (p : decimal) (w : world) :
  pending p (store w) job_id = true →
  (∀ i r, pending p r job_id = true → pending p (others i r) job_id = true) →
  dec_eqb p (Dec (-1) 0) = false →
  dec_geb p (Dec 100 0) = false →
  let w' := after (progress_stream.event_stream others job_id) w in
  outcome (progress_stream.event_stream others job_id) w = Ok tt
  ∧ sent w' = sent w ++ [EvProgress p None; EvError "Timeout"]
  ∧ clock w' = clock w + progress_stream.max_duration_seconds * 1000
  ∧ pending p (store w') job_id = true.
Proof.
  intros Hst Henv Hfirst Hlow w'.
  pose proof (ending_facts.pending_round (1999 + 0) others job_id 0 (Dec (-1) 0) p w
                Hst Hlow) as Hround.
  rewrite Hfirst in Hround.
  set (w1 := set_store (others (0 + 1))
               (set_clock (λ t, t + progress_stream.poll_interval_ms)
                  (set_sent (λ l, l ++ [EvProgress p None]) w))) in *.
  destruct (ending_facts.pending_rounds 1999 0 others job_id (0 + 1) p w1)
    as (w2 & Hst2 & Hsent2 & Hclock2 & _ & Hquiet); [|done|done|].
  { subst w1. cbn [store set_store set_clock set_sent]. by apply Henv. }
  assert (Hrun : progress_stream.event_stream others job_id w
            = (Ok tt, set_sent (λ l, l ++ [EvError "Timeout"]) w2)).
  { unfold progress_stream.event_stream, try_except. unfold bind at 1.
    change (Z.to_nat progress_stream.max_iterations) with (S (1999 + 0))%nat.
    rewrite Hround, Hquiet. reflexivity. }
  unfold w', outcome, after. rewrite Hrun. cbn [fst snd sent clock store set_sent].
  split; [done|]. split; [|split; [|done]].
  - rewrite Hsent2. subst w1. cbn [sent set_store set_clock set_sent].
    by rewrite <- app_assoc.
  - rewrite Hclock2. subst w1. cbn [clock set_store set_clock set_sent].
    unfold progress_stream.poll_interval_ms, progress_stream.max_duration_seconds.
    lia.
Qed.

Lemma X20_stream_ceiling_witness :
  let w := world_with_job "j1" "queued" 0 in
  let w' := after (progress_stream.event_stream progress_stream.alone "j1") w in
  outcome (progress_stream.event_stream progress_stream.alone "j1") w = Ok tt
  ∧ sent w' = sent w ++ [EvProgress (Dec 0 0) None; EvError "Timeout"]
  ∧ clock w' = clock w + progress_stream.max_duration_seconds * 1000
  ∧ pending (Dec 0 0) (store w') "j1" = true.
Proof.
  apply (X20_stream_ceiling progress_stream.alone "j1" (Dec 0 0)
           (world_with_job "j1" "queued" 0)).
  - vm_compute. reflexivity.
  - intros i r H. exact H.
  - reflexivity.
  - reflexivity.
Defined.

Module callback_facts.

Lemma error_update_sendable error_msg :
  map_Forall (λ _ v, v ≠ PNone)
    (list_to_map [("status", PStr "error");
                  ("error", PStr (py_str error_msg))] : pydict).
Proof. apply retry_facts.list_to_map_sendable. repeat constructor; done. Qed.

End callback_facts.

(** X21. The error callback of a download never raises and leaves the
    disk, the clock and what was printed or sent as they were. For a job
    whose key does not exist it changes nothing: no record is created. For
    a job that exists it sets the status to error and the error message to
    the text of its argument, and leaves every other field but updated_at
    as it was. *)
Theorem X21_error_callback (job_id : string) (error_msg : pyval) (w : world) :
  let w' := after (make_error_callback job_id error_msg) w in
  outcome (make_error_callback job_id error_msg) w = Ok tt
  ∧ disk w' = disk w ∧ clock w' = clock w ∧ sent w' = sent w
  ∧ (redis.key_exists (store w) (JOB_PREFIX +:+ job_id) = false → w' = w)
  ∧ (∀ job, read_job (store w) job_id = Some job →
       ∃ job', read_job (store w') job_id = Some job'
         ∧ job' !! "status" = Some (PStr "error")
         ∧ job' !! "error" = Some (PStr (py_str error_msg))
         ∧ ∀ f, f ≠ "status" → f ≠ "error" → f ≠ "updated_at" →
             job' !! f = job !! f).
Proof.
  intros w'. unfold w', outcome, after, make_error_callback, try_except.
  destruct (redis.key_exists (store w) (JOB_PREFIX +:+ job_id)) eqn:Hex.
  - destruct (job_facts.update_job_present job_id _ w Hex
                (callback_facts.error_update_sendable error_msg))
      as (w1 & Hrun1 & _ & _ & _ & _ & Hd & Hc & _ & Hs).
    unfold bind. rewrite Hrun1. cbn [fst snd ret].
    split; [done|]. do 3 (split; [done|]). split; [done|].
    intros job Hjob.
    destruct (ending_facts.updated_record job_id _ w job Hjob
                (callback_facts.error_update_sendable error_msg))
      as (w2 & job' & Hrun & Hjob' & Hnew & Hkept & _).
    rewrite Hrun1 in Hrun. injection Hrun as <-.
    exists job'. split; [done|]. split; [|split].
    + by rewrite (Hnew "status" (PStr "error")).
    + by rewrite (Hnew "error" (PStr (py_str error_msg))).
    + intros f H1 H2 H3. apply Hkept; [done|].
      cbn [list_to_map foldr fst snd].
      by rewrite !lookup_insert_ne, lookup_empty.
  - unfold bind. rewrite (job_facts.update_job_absent job_id _ w Hex).
    cbn [fst snd ret]. do 4 (split; [done|]). split; [done|].
    intros job Hjob. by rewrite (job_facts.read_job_None _ _ Hex) in Hjob.
Qed.

Lemma X21_error_callback_witness :
  let w := world_with_job "j1" "running" 0 in
  let w' := after (make_error_callback "j1" (PStr "Download failed: boom")) w in
  outcome (make_error_callback "j1" (PStr "Download failed: boom")) w = Ok tt
  ∧ field_of w' "j1" "status" = Some (PStr "error")
  ∧ field_of w' "j1" "error" = Some (PStr "Download failed: boom")
  ∧ after (make_error_callback "ghost" (PStr "x")) fresh_world = fresh_world.
Proof.
  intros w w'.
  destruct (X21_error_callback "j1" (PStr "Download failed: boom") w)
    as (Hout & _ & _ & _ & _ & Hset).
  destruct (X21_error_callback "ghost" (PStr "x") fresh_world)
    as (_ & _ & _ & _ & Hghost & _).
  split; [exact Hout|].
  destruct (Hset (decode_job (redis.hash_at (store w) (JOB_PREFIX +:+ "j1"))))
    as (job' & Hjob' & Hst & Herr & _).
  { apply update_facts.read_job_present; [reflexivity|].
    apply (lineage_facts.lookup_non_empty _ "job_id" "j1"). vm_compute. reflexivity. }
  fold w' in Hjob'. unfold field_of. rewrite Hjob'. cbn [mbind option_bind].
  split; [exact Hst|]. split; [exact Herr|].
  apply Hghost. reflexivity.
Defined.

(** ** The cleanup of the job history *)

Module cleanup_facts.

Lemma remove_job_and_file_run job_id job errors w :
  ∃ errors' w', remove_job_and_file job_id job errors w = (Ok errors', w')
    ∧ hashes (store w') = delete ("job:" +:+ job_id) (hashes (store w))
    ∧ redis.list_at (store w') "jobs:all"
        = filter (λ x, x ≠ job_id) (redis.list_at (store w) "jobs:all")
    ∧ files (disk w') ⊆ files (disk w)
    ∧ dirs (disk w') = dirs (disk w)
    ∧ locked (disk w') = locked (disk w)
    ∧ cwd (disk w') = cwd (disk w)
    ∧ clock w' = clock w.
Proof.
  unfold remove_job_and_file.
  assert (Hend : ∀ (errors' : list string) w1,
    files (disk w1) ⊆ files (disk w) → dirs (disk w1) = dirs (disk w) →
    locked (disk w1) = locked (disk w) → cwd (disk w1) = cwd (disk w) →
    clock w1 = clock w → store w1 = store w →
    ∃ w', (redis.delete ("job:" +:+ job_id) ;;
           redis.lrem "jobs:all" 0 job_id ;; ret errors')%py w1 = (Ok errors', w')
      ∧ hashes (store w') = delete ("job:" +:+ job_id) (hashes (store w))
      ∧ redis.list_at (store w') "jobs:all"
          = filter (λ x, x ≠ job_id) (redis.list_at (store w) "jobs:all")
      ∧ files (disk w') ⊆ files (disk w)
      ∧ dirs (disk w') = dirs (disk w)
      ∧ locked (disk w') = locked (disk w)
      ∧ cwd (disk w') = cwd (disk w)
      ∧ clock w' = clock w).
  { intros errors' w1 Hf Hd Hl Hc Hcl Hs.
    unfold redis.delete, redis.lrem. run_py. eexists. split; [reflexivity|].
    db_simpl. rewrite Hs. map_simpl. repeat split; done. }
  set (there := match job !! "file_path" with
                | Some p => if String.eqb p "" then ret false else os.exists_ p
                | None => ret false
                end).
  assert (Hthere : ∃ b, there w = (Ok b, w)).
  { unfold there. destruct (job !! "file_path") as [p|]; [|by eexists].
    destruct (String.eqb p ""); by eexists. }
  destruct Hthere as [b Hb]. unfold bind at 1. rewrite Hb.
  destruct b.
  - unfold bind at 1, try_except. unfold bind at 1, os.remove.
    destruct (os.resolve (disk w) _) as [stack|].
    + destruct (os.is_file (disk w) stack).
      * case_bool_decide.
        -- destruct (Hend (errors ++ ["Could not delete file "
                             +:+ default "" (job !! "file_path")]) w)
             as (w' & ? & ?); try done. by eexists _, w'.
        -- destruct (Hend errors
                       (set_disk (os.unlink (os.path_of stack)) w))
             as (w' & ? & ?); try done; [set_solver|]. by eexists _, w'.
      * destruct (Hend (errors ++ ["Could not delete file "
                           +:+ default "" (job !! "file_path")]) w)
          as (w' & ? & ?); try done. by eexists _, w'.
    + destruct (Hend (errors ++ ["Could not delete file "
                         +:+ default "" (job !! "file_path")]) w)
        as (w' & ? & ?); try done. by eexists _, w'.
  - unfold bind at 1, ret at 1.
    destruct (Hend errors w) as (w' & ? & ?); try done. by eexists _, w'.
Qed.

Lemma key_ne (a b : string) : a ≠ b → "job:" +:+ a ≠ "job:" +:+ b.
Proof. apply retry_facts.job_key_ne. Qed.

Lemma hash_after_delete r r' job_id x :
  hashes r' = delete ("job:" +:+ job_id) (hashes r) →
  redis.hash_at r' ("job:" +:+ x)
    = if bool_decide (x = job_id) then ∅ else redis.hash_at r ("job:" +:+ x).
Proof.
  intros Hh. unfold redis.hash_at. rewrite Hh. case_bool_decide as Hx.
  - subst x. by rewrite lookup_delete_eq.
  - by rewrite lookup_delete_ne by (apply key_ne; congruence).
Qed.

Lemma deletable_after_delete r r' job_id x :
  hashes r' = delete ("job:" +:+ job_id) (hashes r) →
  deletable r' x = if bool_decide (x = job_id) then false else deletable r x.
Proof.
  intros Hh. unfold deletable. rewrite (hash_after_delete _ _ _ _ Hh).
  destruct (decide (x = job_id)) as [Hx|Hx].
  - rewrite (bool_decide_eq_true_2 _ Hx). by rewrite bool_decide_eq_true_2.
  - by rewrite (bool_decide_eq_false_2 _ Hx).
Qed.

Lemma filter_all (P : string → Prop) `{!∀ x, Decision (P x)} (l : list string) :
  Forall P l → filter P l = l.
Proof.
  induction 1 as [|x l Hx _ IH]; [done|]. by rewrite filter_cons_True, IH.
Qed.

Lemma elem_cons_ne (x id : string) ids :
  x ≠ id → bool_decide (x ∈ id :: ids) = bool_decide (x ∈ ids).
Proof.
  intros Hx. apply bool_decide_ext. rewrite elem_of_cons. naive_solver.
Qed.

(** The loop of [cleanup_by_count]: it removes the record and the index
    entries of the jobs of its list that are deletable, and of no other. *)
Lemma cleanup_by_count_loop_run ids n errs w :
  ∃ n' errs' w', cleanup_by_count_loop ids n errs w = (Ok (n', errs'), w')
    ∧ (∀ x, redis.hash_at (store w') ("job:" +:+ x)
            = if bool_decide (x ∈ ids) && deletable (store w) x then ∅
              else redis.hash_at (store w) ("job:" +:+ x))
    ∧ redis.list_at (store w') "jobs:all"
        = filter (λ x, ¬ (x ∈ ids ∧ deletable (store w) x = true))
                 (redis.list_at (store w) "jobs:all")
    ∧ files (disk w') ⊆ files (disk w)
    ∧ dirs (disk w') = dirs (disk w)
    ∧ locked (disk w') = locked (disk w)
    ∧ cwd (disk w') = cwd (disk w)
    ∧ clock w' = clock w.
Proof.
  revert n errs w. induction ids as [|id ids IH]; intros n errs w.
  { exists n, errs, w. split; [done|]. split; [done|]. split; [|done].
    symmetry. apply filter_all. apply Forall_forall.
    intros x _ [Hx _]. by apply elem_of_nil in Hx. }
  cbn [cleanup_by_count_loop]. unfold bind at 1, redis.hgetall, gets.
  assert (Hskip : deletable (store w) id = false →
    ∃ n' errs' w', cleanup_by_count_loop ids n errs w = (Ok (n', errs'), w')
      ∧ (∀ x, redis.hash_at (store w') ("job:" +:+ x)
              = if bool_decide (x ∈ id :: ids) && deletable (store w) x then ∅
                else redis.hash_at (store w) ("job:" +:+ x))
      ∧ redis.list_at (store w') "jobs:all"
          = filter (λ x, ¬ (x ∈ id :: ids ∧ deletable (store w) x = true))
                   (redis.list_at (store w) "jobs:all")
      ∧ files (disk w') ⊆ files (disk w)
      ∧ dirs (disk w') = dirs (disk w)
      ∧ locked (disk w') = locked (disk w)
      ∧ cwd (disk w') = cwd (disk w)
      ∧ clock w' = clock w).
  { intros Hno.
    destruct (IH n errs w) as (n' & errs' & w' & Hrun & Hh & Hl & Hrest).
    exists n', errs', w'. split; [done|]. split; [|split; [|done]].
    - intros x. rewrite Hh.
      destruct (decide (x = id)) as [->|Hx].
      + rewrite Hno, !andb_false_r. done.
      + by rewrite (elem_cons_ne _ _ _ Hx).
    - rewrite Hl. apply list_filter_iff. intros x. rewrite elem_of_cons.
      split.
      + intros H [[->|Hx] Hd]; [congruence|]. by apply H.
      + intros H [Hx Hd]. apply H. split; [by right|done]. }
  case_bool_decide as He.
  { apply Hskip. unfold deletable. by rewrite bool_decide_eq_true_2. }
  case_bool_decide as Hr.
  { apply Hskip. unfold deletable.
    rewrite (bool_decide_eq_true_2 _ Hr). by rewrite andb_false_r. }
  assert (Hyes : deletable (store w) id = true).
  { unfold deletable.
    by rewrite (bool_decide_eq_false_2 _ He), (bool_decide_eq_false_2 _ Hr). }
  destruct (remove_job_and_file_run id (redis.hash_at (store w) ("job:" +:+ id)) errs w)
    as (errs1 & w1 & Hrun1 & Hh1 & Hl1 & Hf1 & Hd1 & Hlk1 & Hc1 & Hcl1).
  unfold bind at 1. rewrite Hrun1.
  destruct (IH (n + 1) errs1 w1)
    as (n' & errs' & w' & Hrun & Hh & Hl & Hf & Hd & Hlk & Hc & Hcl).
  exists n', errs', w'. split; [done|].
  split; [|split; [|repeat split; try congruence; set_solver]].
  - intros x. rewrite Hh, (deletable_after_delete _ _ _ _ Hh1),
      (hash_after_delete _ _ _ _ Hh1).
    destruct (decide (x = id)) as [->|Hx].
    + rewrite (bool_decide_eq_true_2 (id = id)) by done.
      rewrite andb_false_r, Hyes.
      by rewrite bool_decide_eq_true_2 by (apply elem_of_cons; by left).
    + rewrite (bool_decide_eq_false_2 (x = id)) by done.
      by rewrite (elem_cons_ne _ _ _ Hx).
  - rewrite Hl, Hl1, list_filter_filter. apply list_filter_iff. intros x.
    rewrite (deletable_after_delete _ _ _ _ Hh1), elem_of_cons.
    destruct (decide (x = id)) as [->|Hx].
    + rewrite (bool_decide_eq_true_2 (id = id)) by done. split.
      * by intros [_ ?].
      * intros H. destruct H. split; [by left|done].
    + rewrite (bool_decide_eq_false_2 (x = id)) by done. split.
      * intros [H _] [[?|?] ?]; [done|]. by apply H.
      * intros H. split; [|done]. intros [? ?]. apply H. split; [by right|done].
Qed.

End cleanup_facts.

(** X22. What [cleanup_by_count] removes. It never raises. With the jobs
    to delete being the entries of the index from position [keep_count]
    on, the record of a job is removed when the job is among them, exists
    and is not running, and is as before in every other case; the index
    loses all the entries of the jobs so removed and no other; no file
    appears. So a running job keeps its record and its index entries,
    also when it is the oldest, and with an index of at most [keep_count]
    entries nothing is changed. *)
Theorem X22_cleanup_by_count_effect (keep_count : Z) (w : world) :
  let ids := redis.list_at (store w) "jobs:all" in
  let jobs_to_delete := slice_from keep_count ids in
  let w' := after (cleanup_by_count keep_count) w in
  (∃ report, outcome (cleanup_by_count keep_count) w = Ok report)
  ∧ (∀ x, redis.hash_at (store w') ("job:" +:+ x)
          = if bool_decide (x ∈ jobs_to_delete) && deletable (store w) x then ∅
            else redis.hash_at (store w) ("job:" +:+ x))
  ∧ redis.list_at (store w') "jobs:all"
      = filter (λ x, ¬ (x ∈ jobs_to_delete ∧ deletable (store w) x = true)) ids
  ∧ files (disk w') ⊆ files (disk w)
  ∧ (∀ x, redis.hash_at (store w) ("job:" +:+ x) !! "status" = Some "running" →
       redis.hash_at (store w') ("job:" +:+ x) = redis.hash_at (store w) ("job:" +:+ x)
       ∧ (x ∈ ids → x ∈ redis.list_at (store w') "jobs:all"))
  ∧ (Z.of_nat (length ids) ≤ keep_count → w' = w).
Proof.
  intros ids jobs_to_delete w'.
  assert (Hmain :
    (∃ report, outcome (cleanup_by_count keep_count) w = Ok report)
    ∧ (∀ x, redis.hash_at (store w') ("job:" +:+ x)
            = if bool_decide (x ∈ jobs_to_delete) && deletable (store w) x then ∅
              else redis.hash_at (store w) ("job:" +:+ x))
    ∧ redis.list_at (store w') "jobs:all"
        = filter (λ x, ¬ (x ∈ jobs_to_delete ∧ deletable (store w) x = true)) ids
    ∧ files (disk w') ⊆ files (disk w)
    ∧ (Z.of_nat (length ids) ≤ keep_count → w' = w)).
  { destruct (Z.leb_spec (Z.of_nat (length ids)) keep_count) as [Hle|Hgt].
    - assert (Hrun : cleanup_by_count keep_count w = (Ok NoCleanupNeeded, w)).
      { unfold cleanup_by_count, redis.lrange. unfold bind at 1, gets.
        rewrite query_facts.lrange_all. fold ids.
        by rewrite (proj2 (Z.leb_le _ _) Hle). }
      assert (Hnil : jobs_to_delete = []).
      { unfold jobs_to_delete, slice_from.
        rewrite (proj2 (Z.ltb_ge keep_count 0)) by lia.
        apply drop_ge. lia. }
      unfold w', outcome, after. rewrite Hrun, Hnil. cbn [fst snd].
      split; [by eexists|]. split; [done|]. split; [|done].
      symmetry. apply cleanup_facts.filter_all, Forall_forall.
      intros x _ [Hx _]. by apply elem_of_nil in Hx.
    - destruct (cleanup_facts.cleanup_by_count_loop_run jobs_to_delete 0 [] w)
        as (n' & errs' & w1 & Hloop & Hh & Hl & Hf & _).
      assert (Hrun : cleanup_by_count keep_count w = (Ok (Cleaned n' errs'), w1)).
      { unfold cleanup_by_count, redis.lrange. unfold bind at 1, gets.
        rewrite query_facts.lrange_all. fold ids.
        rewrite (proj2 (Z.leb_gt _ _) Hgt). fold jobs_to_delete.
        unfold bind. by rewrite Hloop. }
      unfold w', outcome, after. rewrite Hrun. cbn [fst snd].
      split; [by eexists|]. repeat split; try done. lia. }
  destruct Hmain as (H1 & H2 & H3 & H4 & H5).
  repeat (split; [assumption|]). split; [|assumption].
  intros x Hrun.
  assert (Hno : deletable (store w) x = false).
  { unfold deletable. rewrite (bool_decide_eq_true_2 _ Hrun).
    by rewrite andb_false_r. }
  split.
  - by rewrite H2, Hno, andb_false_r.
  - intros Hx. rewrite H3. apply list_elem_of_filter. split; [|done].
    intros [_ ?]. congruence.
Qed.

Lemma X22_cleanup_by_count_effect_witness :
  let w := world_with_job "j1" "running" 0 in
  let w' := after (cleanup_by_count 0) w in
  (∃ report, outcome (cleanup_by_count 0) w = Ok report)
  ∧ redis.hash_at (store w') ("job:" +:+ "j1") = redis.hash_at (store w) ("job:" +:+ "j1")
  ∧ "j1" ∈ redis.list_at (store w') "jobs:all"
  ∧ after (cleanup_by_count 1) w = w.
Proof.
  intros w w'.
  destruct (X22_cleanup_by_count_effect 0 w) as (Hout & _ & _ & _ & Hrunning & _).
  destruct (X22_cleanup_by_count_effect 1 w) as (_ & _ & _ & _ & _ & Hkeep).
  destruct (Hrunning "j1") as [Hrec Hidx]; [vm_compute; reflexivity|].
  split; [exact Hout|]. split; [exact Hrec|].
  split; [apply Hidx; apply (bool_decide_unpack _); vm_compute; exact I|].
  apply Hkeep. vm_compute. by intros [=].
Defined.

(** X23. [cleanup_by_count] removes the file of a job wherever it lies:
    unlike the endpoint that deletes a job, it does not look at the
    download directory. When the index holds one entry beyond
    [keep_count], of a job that exists and is not running and whose
    [file_path] names a regular file that may be removed, the call reports
    one job deleted and no error; the file, the record and the index entry
    are gone. *)
Theorem X23_cleanup_by_count_removes_any_file (keep_count : Z) (job_id p : string)
    (kept : list string) (stack : list string) (w : world) :
  redis.list_at (store w) "jobs:all" = kept ++ [job_id] →
  Z.of_nat (length kept) = keep_count →
  deletable (store w) job_id = true →
  redis.hash_at (store w) ("job:" +:+ job_id) !! "file_path" = Some p →
  p ≠ "" →
  os.resolve (disk w) p = Some stack →
  os.is_file (disk w) stack = true →
  os.path_of stack ∉ locked (disk w) →
  let w' := after (cleanup_by_count keep_count) w in
  outcome (cleanup_by_count keep_count) w = Ok (Cleaned 1 [])
  ∧ os.path_of stack ∈ files (disk w)
  ∧ (os.path_of stack ∉ files (disk w'))
  ∧ redis.hash_at (store w') ("job:" +:+ job_id) = ∅
  ∧ (job_id ∉ redis.list_at (store w') "jobs:all").
Proof.
  intros Hidx Hkeep Hdel Hpath Hp Hres Hfile Hlock w'.
  assert (Hin : os.path_of stack ∈ files (disk w)).
  { unfold os.is_file in Hfile. by apply bool_decide_eq_true in Hfile. }
  apply andb_true_iff in Hdel as [He%negb_true_iff Hr%negb_true_iff].
  assert (Hrun : ∃ w1, cleanup_by_count keep_count w = (Ok (Cleaned 1 []), w1)
            ∧ files (disk w1) = files (disk w) ∖ {[os.path_of stack]}
            ∧ hashes (store w1) = delete ("job:" +:+ job_id) (hashes (store w))
            ∧ redis.list_at (store w1) "jobs:all"
                = filter (λ x, x ≠ job_id) (redis.list_at (store w) "jobs:all")).
  { unfold cleanup_by_count, redis.lrange. unfold bind at 1, gets.
    rewrite query_facts.lrange_all, Hidx.
    rewrite (proj2 (Z.leb_gt _ _)) by (rewrite length_app; cbn [length]; lia).
    unfold slice_from. rewrite (proj2 (Z.ltb_ge keep_count 0)) by lia.
    rewrite <- Hkeep, Nat2Z.id, drop_app_length.
    unfold bind at 1. cbn [cleanup_by_count_loop].
    unfold bind at 1, redis.hgetall, gets. rewrite He, Hr.
    unfold bind at 1, remove_job_and_file. rewrite Hpath.
    rewrite (proj2 (String.eqb_neq _ _) Hp).
    unfold bind at 1, os.exists_, gets. rewrite Hres.
    rewrite bool_decide_eq_true_2 by done.
    unfold bind at 1, try_except. unfold bind at 1, os.remove.
    cbn [default from_option id]. rewrite Hres, Hfile.
    rewrite (bool_decide_eq_false_2 _ Hlock).
    unfold redis.delete, redis.lrem. run_py. eexists. split; [reflexivity|].
    db_simpl. map_simpl. rewrite Hidx. done. }
  destruct Hrun as (w1 & Hrun & Hf & Hh & Hl).
  assert (Hw : w' = w1) by (unfold w', after; by rewrite Hrun).
  rewrite Hw. split; [unfold outcome; by rewrite Hrun|]. split; [done|].
  split; [rewrite Hf; set_solver|]. split.
  - unfold redis.hash_at. by rewrite Hh, lookup_delete_eq.
  - rewrite Hl. by intros [? _]%list_elem_of_filter.
Qed.

Lemma X23_cleanup_by_count_removes_any_file_witness :
  let w := world_with_file_job "j2" "done" "/etc/passwd" in
  let w' := after (cleanup_by_count 0) w in
  outcome (cleanup_by_count 0) w = Ok (Cleaned 1 [])
  ∧ "/etc/passwd" ∈ files (disk w)
  ∧ ("/etc/passwd" ∉ files (disk w'))
  ∧ redis.hash_at (store w') ("job:" +:+ "j2") = ∅
  ∧ ("j2" ∉ redis.list_at (store w') "jobs:all").
Proof.
  apply (X23_cleanup_by_count_removes_any_file 0 "j2" "/etc/passwd" [] ["etc"; "passwd"]
           (world_with_file_job "j2" "done" "/etc/passwd")).
  - reflexivity.
  - reflexivity.
  - vm_compute. reflexivity.
  - vm_compute. reflexivity.
  - by intros [=].
  - vm_compute. reflexivity.
  - vm_compute. reflexivity.
  - apply (bool_decide_unpack _). vm_compute. exact I.
Defined.

(** ** Further edge cases *)

Module cycle_facts.
Import RetryManager.

(** On a record that names itself as its parent the first loop of
    [get_retry_chain] uses up any number of rounds. *)
Lemma trace_backwards_cycle fuel chain job_id job w :
  read_job (store w) job_id = Some job →
  dict_get job "parent_job_id" = PStr job_id →
  job_id ≠ "" →
  trace_backwards fuel chain (Some job) w = (Ok None, w).
Proof.
  intros Hjob Hparent Hid. revert chain.
  induction fuel as [|fuel IH]; intros chain; cbn [trace_backwards];
    rewrite (chain_facts.dict_truthy_read _ _ _ Hjob);
    cbn [default from_option id andb];
    rewrite Hparent, (chain_facts.truthy_id _ Hid); [done|].
  unfold bind at 1. cbn [py_str]. rewrite job_facts.get_job_run, Hjob. apply IH.
Qed.

End cycle_facts.

(** X24. [get_retry_chain] has no guard against a cycle: for a record
    whose [parent_job_id] is its own id, the loop that traces backwards
    never ends; whatever the number of rounds it is given, it has not
    returned. *)
Theorem X24_retry_chain_loops_on_cycle (fuel : nat) (job_id : string) (w : world)
    (job : pydict) :
  read_job (store w) job_id = Some job →
  dict_get job "parent_job_id" = PStr job_id →
  job_id ≠ "" →
  RetryManager.get_retry_chain fuel job_id w = (Ok None, w).
Proof.
  intros Hjob Hparent Hid. unfold RetryManager.get_retry_chain.
  unfold bind at 1. rewrite job_facts.get_job_run, Hjob.
  unfold bind at 1.
  by rewrite (cycle_facts.trace_backwards_cycle _ _ _ _ _ Hjob Hparent Hid).
Qed.

Lemma X24_retry_chain_loops_on_cycle_witness :
  let w := after (update_job "j1" {[ "parent_job_id" := PStr "j1" ]})
             (world_with_job "j1" "error" 0) in
  RetryManager.get_retry_chain 1000 "j1" w = (Ok None, w).
Proof.
  intros w.
  apply (X24_retry_chain_loops_on_cycle 1000 "j1" w
           (decode_job (redis.hash_at (store w) (JOB_PREFIX +:+ "j1")))).
  - apply update_facts.read_job_present; [reflexivity|].
    apply (lineage_facts.lookup_non_empty _ "job_id" "j1"). vm_compute. reflexivity.
  - unfold dict_get. rewrite job_facts.decode_job_lookup. vm_compute. reflexivity.
  - by intros [=].
Defined.

Module count_facts.

Lemma count_jobs_run w :
  count_jobs w = (Ok (Z.of_nat (length (redis.list_at (store w) JOBS_LIST_KEY))), w).
Proof. reflexivity. Qed.

End count_facts.

(** X25. [count_jobs] is the number of entries of the index, whether or
    not their records still exist: it is never below the number of jobs
    that [list_jobs] returns. A [create_job] that returns adds one to it;
    [delete_job] takes from it the number of entries of the job in the
    index. *)
Theorem X25_count_jobs_counts_index (w : world) (limit : Z) (job_data : pydict)
    (new job_id : string) :
  job_data !! "job_id" = Some (PStr new) →
  map_Forall (λ _ v, v ≠ PNone) job_data →
  let index := redis.list_at (store w) JOBS_LIST_KEY in
  ∃ jobs,
    count_jobs w = (Ok (Z.of_nat (length index)), w)
    ∧ list_jobs limit w = (Ok jobs, w)
    ∧ (length jobs ≤ length index)%nat
    ∧ outcome count_jobs (after (create_job job_data) w)
        = Ok (Z.of_nat (length index) + 1)
    ∧ outcome count_jobs (after (delete_job job_id) w)
        = Ok (Z.of_nat (length index)
              - Z.of_nat (length (filter (λ x, x = job_id) index))).
Proof.
  intros Hid Hok index. eexists.
  split; [apply count_facts.count_jobs_run|].
  split; [apply query_facts.list_jobs_run|].
  split; [|split].
  - etransitivity; [apply query_facts.omap_length|].
    rewrite length_take. fold index. lia.
  - destruct (retry_facts.create_job_run job_data new w Hid Hok)
      as (w1 & Hrun & _ & Hl & _).
    unfold after. rewrite Hrun. cbn [snd]. unfold outcome.
    rewrite count_facts.count_jobs_run. cbn [fst].
    unfold redis.list_at at 1. rewrite Hl, lookup_insert_eq.
    cbn [default from_option id length]. fold index. f_equal. lia.
  - destruct (job_facts.delete_job_run job_id w) as (w1 & Hrun & _ & Hl & _).
    unfold after. rewrite Hrun. cbn [snd]. unfold outcome.
    rewrite count_facts.count_jobs_run. cbn [fst]. rewrite Hl. fold index.
    f_equal.
    pose proof (filter_app_complement (λ x, x = job_id) index) as Hperm.
    apply Permutation_length in Hperm. rewrite length_app in Hperm.
    lia.
Qed.

Lemma X25_count_jobs_counts_index_witness :
  let w := world_with_job "j1" "done" 0 in
  let job_data : pydict := {[ "job_id" := PStr "j2" ]} in
  ∃ jobs,
    count_jobs w = (Ok 1, w)
    ∧ list_jobs 50 w = (Ok jobs, w)
    ∧ (length jobs ≤ 1)%nat
    ∧ outcome count_jobs (after (create_job job_data) w) = Ok (1 + 1)
    ∧ outcome count_jobs (after (delete_job "j1") w) = Ok (1 - 1).
Proof.
  intros w job_data.
  apply (X25_count_jobs_counts_index w 50 job_data "j2" "j1").
  - reflexivity.
  - by apply map_Forall_singleton.
Defined.

(** ** After a deletion *)

Module gone_facts.

Lemma deleted_by_endpoint cfg job_id w job :
  read_job (store w) job_id = Some job →
  py_eqb (dict_get job "status") (PStr "running") = false →
  let w' := after (delete_job_endpoint cfg job_id) w in
  redis.key_exists (store w') (JOB_PREFIX +:+ job_id) = false
  ∧ read_job (store w') job_id = None.
Proof.
  intros Hjob Hst w'.
  destruct (endpoint_facts.delete_job_endpoint_run cfg job_id w job Hjob Hst)
    as (w1 & w2 & Hrun & _ & _ & Hdel).
  assert (Hw : w' = w2) by (unfold w', after; by rewrite Hrun).
  destruct (job_facts.delete_job_run job_id w1) as (w3 & Hrun3 & _ & _ & Hgone & _).
  rewrite Hdel in Hrun3. injection Hrun3 as _ <-. rewrite Hw.
  split; [done|]. by apply job_facts.read_job_None.
Qed.

Lemma retry_job_absent cfg uuid4 job_id w :
  read_job (store w) job_id = None →
  retry_job cfg uuid4 job_id w = (Ok (RetryRefused "Job cannot be retried"), w).
Proof.
  intros Hjob. unfold retry_job, RetryManager.can_retry. unfold bind at 1 2.
  by rewrite job_facts.get_job_run, Hjob.
Qed.

Lemma get_job_details_absent job_id w :
  read_job (store w) job_id = None →
  get_job_details job_id w = (Ok NotFound, w).
Proof.
  intros Hjob. unfold get_job_details. unfold bind at 1.
  by rewrite job_facts.get_job_run, Hjob.
Qed.

Lemma delete_job_endpoint_absent cfg job_id w :
  read_job (store w) job_id = None →
  delete_job_endpoint cfg job_id w = (Ok (DeleteRefused "Job not found"), w).
Proof.
  intros Hjob. unfold delete_job_endpoint, try_except. unfold bind at 1.
  by rewrite job_facts.get_job_run, Hjob.
Qed.

Lemma error_callback_absent job_id error_msg w :
  redis.key_exists (store w) (JOB_PREFIX +:+ job_id) = false →
  make_error_callback job_id error_msg w = (Ok tt, w).
Proof.
  intros Hex. unfold make_error_callback, try_except, bind.
  by rewrite (job_facts.update_job_absent job_id _ w Hex).
Qed.

End gone_facts.

(** X26. A job that the delete endpoint has deleted is gone for every
    other entry point. After [delete_job_endpoint] for a job that exists and
    is not running (a queued job, say, whose download may still start),
    [get_job] returns None; [download_file] answers 404 "Job not found";
    a progress stream sends "Job not found" and ends; the retry endpoint
    refuses; [get_retry_info] returns the empty dict; [get_job_details]
    raises its 404; a second delete answers "Job not found"; and the error
    callback of the download, should it still come, changes nothing: the
    record is not created again. *)
Theorem X26_deleted_job_is_gone (cfg : config) (uuid4 job_id : string)
    (others : Z → redis_db → redis_db) (error_msg : pyval) (w : world)
    (job : pydict) :
  read_job (store w) job_id = Some job →
  py_eqb (dict_get job "status") (PStr "running") = false →
  let w' := after (delete_job_endpoint cfg job_id) w in
  get_job job_id w' = (Ok None, w')
  ∧ download_file cfg job_id w' = (Ok (JSONResponse 404 "Job not found"), w')
  ∧ progress_stream.event_stream others job_id w'
      = (Ok tt, set_sent (λ l, l ++ [EvError "Job not found"]) w')
  ∧ retry_job cfg uuid4 job_id w' = (Ok (RetryRefused "Job cannot be retried"), w')
  ∧ RetryManager.get_retry_info cfg job_id w' = (Ok None, w')
  ∧ get_job_details job_id w' = (Ok NotFound, w')
  ∧ delete_job_endpoint cfg job_id w' = (Ok (DeleteRefused "Job not found"), w')
  ∧ make_error_callback job_id error_msg w' = (Ok tt, w').
Proof.
  intros Hjob Hst w'.
  destruct (gone_facts.deleted_by_endpoint cfg job_id w job Hjob Hst) as [Hex Hnone].
  fold w' in Hex, Hnone.
  split; [by rewrite job_facts.get_job_run, Hnone|].
  split; [by rewrite download_facts.download_file_run, Hnone|].
  split.
  { unfold progress_stream.event_stream, try_except. unfold bind at 1.
    change (Z.to_nat progress_stream.max_iterations) with (S 1999).
    by rewrite (ending_facts.round_missing _ _ _ _ _ _ Hnone). }
  split; [by apply gone_facts.retry_job_absent|].
  split; [by apply budget_facts.get_retry_info_absent|].
  split; [by apply gone_facts.get_job_details_absent|].
  split; [by apply gone_facts.delete_job_endpoint_absent|].
  by apply gone_facts.error_callback_absent.
Qed.

Lemma X26_deleted_job_is_gone_witness :
  let w := world_with_job "j1" "queued" 0 in
  let w' := after (delete_job_endpoint default_config "j1") w in
  get_job "j1" w' = (Ok None, w')
  ∧ download_file default_config "j1" w' = (Ok (JSONResponse 404 "Job not found"), w')
  ∧ progress_stream.event_stream progress_stream.alone "j1" w'
      = (Ok tt, set_sent (λ l, l ++ [EvError "Job not found"]) w')
  ∧ retry_job default_config "j2" "j1" w'
      = (Ok (RetryRefused "Job cannot be retried"), w')
  ∧ RetryManager.get_retry_info default_config "j1" w' = (Ok None, w')
  ∧ get_job_details "j1" w' = (Ok NotFound, w')
  ∧ delete_job_endpoint default_config "j1" w'
      = (Ok (DeleteRefused "Job not found"), w')
  ∧ make_error_callback "j1" (PStr "Download failed: boom") w' = (Ok tt, w').
Proof.
  apply (X26_deleted_job_is_gone default_config "j2" "j1" progress_stream.alone
           (PStr "Download failed: boom") (world_with_job "j1" "queued" 0)
           (decode_job (redis.hash_at (store (world_with_job "j1" "queued" 0))
                          (JOB_PREFIX +:+ "j1")))).
  - apply update_facts.read_job_present; [reflexivity|].
    apply (lineage_facts.lookup_non_empty _ "job_id" "j1"). vm_compute. reflexivity.
  - vm_compute. reflexivity.
Defined.

Module relay_facts.
Import progress_stream.

(** A round on a record in error whose progress was not yet sent: the
    progress, then the error message if there is one, and the loop is
    left. *)
Lemma round_failed rem others job_id i lp w job p msg :
  read_job (store w) job_id = Some job →
  py_float (dict_get_or job "progress" (PInt 0)) = Ok p →
  dec_eqb p lp = false →
  dict_get_or job "error" (PStr "") = PStr msg →
  dict_get_or job "status" (PStr "queued") = PStr "error" →
  event_loop (S rem) others job_id i lp w
    = (Ok (i + 1),
       set_sent (λ l, l ++ (if String.eqb msg "" then [] else [EvError msg]))
         (set_sent (λ l, l ++ [EvProgress p
                                 (if truthy (dict_get_or job "file_name" (PStr ""))
                                     && dec_geb p (Dec 100 0)
                                  then Some (py_str (dict_get_or job "file_name" (PStr "")))
                                  else None)]) w)).
Proof.
  intros Hjob Hp Hlp Herr Hst. stream_facts.run_round.
  rewrite Hjob, Hp, Hlp, Herr, Hst. cbn [negb truthy py_str].
  destruct (String.eqb msg ""); cbn [negb].
  - change (py_eqb (PStr "error") (PStr "done")
            || py_eqb (PStr "error") (PStr "error")) with true.
    cbn match. unfold set_sent. cbn [store disk clock stdout sent].
    by rewrite app_nil_r.
  - reflexivity.
Qed.

End relay_facts.

(** X27. A failure is relayed to the client. After the error callback of
    the download has recorded a message for a job that exists, a progress
    stream for the job sends the progress of the record, then the error
    with that message, and ends at once, without sleeping or writing. With
    an empty message the stream sends the progress alone and ends: the
    client is not told of the failure. *)
Theorem X27_failure_relayed (others : Z → redis_db → redis_db) (job_id : string)
    (error_msg : pyval) (w : world) (job : pydict) (p : decimal) :
  read_job (store w) job_id = Some job →
  py_float (dict_get_or job "progress" (PInt 0)) = Ok p →
  dec_eqb p (Dec (-1) 0) = false →
  let w1 := after (make_error_callback job_id error_msg) w in
  let w2 := after (progress_stream.event_stream others job_id) w1 in
  let file_name := dict_get_or job "file_name" (PStr "") in
  outcome (progress_stream.event_stream others job_id) w1 = Ok tt
  ∧ sent w2 = sent w1
               ++ [EvProgress p (if truthy file_name && dec_geb p (Dec 100 0)
                                 then Some (py_str file_name) else None)]
               ++ (if String.eqb (py_str error_msg) "" then []
                   else [EvError (py_str error_msg)])
  ∧ clock w2 = clock w1
  ∧ store w2 = store w1.
Proof.
  intros Hjob Hp Hfirst w1 w2 file_name.
  destruct (ending_facts.updated_record job_id _ w job Hjob
              (callback_facts.error_update_sendable error_msg))
    as (w' & job' & Hrun & Hjob' & Hnew & Hkept & _).
  assert (Hw : w1 = w').
  { unfold w1, after, make_error_callback, try_except, bind. by rewrite Hrun. }
  assert (Hs : progress_stream.event_stream others job_id w1
    = (Ok tt,
       set_sent (λ l, l ++ (if String.eqb (py_str error_msg) "" then []
                            else [EvError (py_str error_msg)]))
         (set_sent (λ l, l ++ [EvProgress p
                                 (if truthy file_name && dec_geb p (Dec 100 0)
                                  then Some (py_str file_name) else None)]) w1))).
  { rewrite Hw. unfold progress_stream.event_stream, try_except. unfold bind at 1.
    change (Z.to_nat progress_stream.max_iterations) with (S 1999).
    rewrite (relay_facts.round_failed _ _ _ _ _ _ job' p (py_str error_msg) Hjob').
    - unfold dict_get_or. rewrite (Hkept "file_name") by done. reflexivity.
    - unfold dict_get_or. rewrite (Hkept "progress") by done. exact Hp.
    - exact Hfirst.
    - unfold dict_get_or. by rewrite (Hnew "error" (PStr (py_str error_msg))).
    - unfold dict_get_or. by rewrite (Hnew "status" (PStr "error")). }
  unfold w2, outcome, after. rewrite Hs. cbn [fst snd sent clock store set_sent].
  by rewrite <- app_assoc.
Qed.

Lemma X27_failure_relayed_witness :
  let w := world_with_job "j1" "running" 0 in
  let w1 := after (make_error_callback "j1" (PStr "Download failed: boom")) w in
  let w2 := after (progress_stream.event_stream progress_stream.alone "j1") w1 in
  outcome (progress_stream.event_stream progress_stream.alone "j1") w1 = Ok tt
  ∧ sent w2 = sent w1 ++ [EvProgress (Dec 0 0) None]
                      ++ [EvError "Download failed: boom"]
  ∧ clock w2 = clock w1
  ∧ store w2 = store w1.
Proof.
  apply (X27_failure_relayed progress_stream.alone "j1" (PStr "Download failed: boom")
           (world_with_job "j1" "running" 0)
           (decode_job (redis.hash_at (store (world_with_job "j1" "running" 0))
                          (JOB_PREFIX +:+ "j1")))
           (Dec 0 0)).
  - apply update_facts.read_job_present; [reflexivity|].
    apply (lineage_facts.lookup_non_empty _ "job_id" "j1"). vm_compute. reflexivity.
  - vm_compute. reflexivity.
  - reflexivity.
Defined.

Module age_facts.

Lemma created_before_after_delete cutoff r r' job_id x :
  hashes r' = delete ("job:" +:+ job_id) (hashes r) → x ≠ job_id →
  created_before cutoff r' x = created_before cutoff r x.
Proof.
  intros Hh Hx. unfold created_before.
  rewrite (cleanup_facts.hash_after_delete _ _ _ _ Hh).
  by rewrite bool_decide_eq_false_2.
Qed.

Lemma expired_after_delete cutoff r r' job_id x :
  hashes r' = delete ("job:" +:+ job_id) (hashes r) →
  expired cutoff r' x = if bool_decide (x = job_id) then false else expired cutoff r x.
Proof.
  intros Hh. unfold expired. rewrite (cleanup_facts.deletable_after_delete _ _ _ _ Hh).
  case_bool_decide as Hx; [done|].
  by rewrite (created_before_after_delete _ _ _ _ _ Hh Hx).
Qed.

(** The loop of [cleanup_old_jobs] on records whose created_at are the
    texts of ints: it removes the record and the index entries of the jobs
    of its list that are expired, and of no other. *)
Lemma cleanup_old_jobs_loop_run cutoff ids n errs w :
  (∀ x, x ∈ ids → deletable (store w) x = true →
        is_Some (created_before cutoff (store w) x)) →
  ∃ n' errs' w', cleanup_old_jobs_loop cutoff ids n errs w = (Ok (n', errs'), w')
    ∧ (∀ x, redis.hash_at (store w') ("job:" +:+ x)
            = if bool_decide (x ∈ ids) && expired cutoff (store w) x then ∅
              else redis.hash_at (store w) ("job:" +:+ x))
    ∧ redis.list_at (store w') "jobs:all"
        = filter (λ x, ¬ (x ∈ ids ∧ expired cutoff (store w) x = true))
                 (redis.list_at (store w) "jobs:all")
    ∧ files (disk w') ⊆ files (disk w)
    ∧ dirs (disk w') = dirs (disk w)
    ∧ locked (disk w') = locked (disk w)
    ∧ cwd (disk w') = cwd (disk w)
    ∧ clock w' = clock w.
Proof.
  revert n errs w. induction ids as [|id ids IH]; intros n errs w Hint.
  { exists n, errs, w. split; [done|]. split; [done|]. split; [|done].
    symmetry. apply cleanup_facts.filter_all. apply Forall_forall.
    intros x _ [Hx _]. by apply elem_of_nil in Hx. }
  cbn [cleanup_old_jobs_loop]. unfold bind at 1, redis.hgetall, gets.
  assert (Hskip : expired cutoff (store w) id = false →
    ∃ n' errs' w', cleanup_old_jobs_loop cutoff ids n errs w = (Ok (n', errs'), w')
      ∧ (∀ x, redis.hash_at (store w') ("job:" +:+ x)
              = if bool_decide (x ∈ id :: ids) && expired cutoff (store w) x then ∅
                else redis.hash_at (store w) ("job:" +:+ x))
      ∧ redis.list_at (store w') "jobs:all"
          = filter (λ x, ¬ (x ∈ id :: ids ∧ expired cutoff (store w) x = true))
                   (redis.list_at (store w) "jobs:all")
      ∧ files (disk w') ⊆ files (disk w)
      ∧ dirs (disk w') = dirs (disk w)
      ∧ locked (disk w') = locked (disk w)
      ∧ cwd (disk w') = cwd (disk w)
      ∧ clock w' = clock w).
  { intros Hno.
    destruct (IH n errs w) as (n' & errs' & w' & Hrun & Hh & Hl & Hrest).
    { intros x Hx. apply Hint. by apply elem_of_cons; right. }
    exists n', errs', w'. split; [done|]. split; [|split; [|done]].
    - intros x. rewrite Hh.
      destruct (decide (x = id)) as [->|Hx].
      + rewrite Hno, !andb_false_r. done.
      + by rewrite (cleanup_facts.elem_cons_ne _ _ _ Hx).
    - rewrite Hl. apply list_filter_iff. intros x. rewrite elem_of_cons.
      split.
      + intros H [[->|Hx] Hd]; [congruence|]. by apply H.
      + intros H [Hx Hd]. apply H. split; [by right|done]. }
  case_bool_decide as He.
  { apply Hskip. unfold expired, deletable. by rewrite bool_decide_eq_true_2. }
  case_bool_decide as Hr.
  { apply Hskip. unfold expired, deletable.
    rewrite (bool_decide_eq_true_2 _ Hr). by rewrite andb_false_r. }
  assert (Hdel : deletable (store w) id = true).
  { unfold deletable.
    by rewrite (bool_decide_eq_false_2 _ He), (bool_decide_eq_false_2 _ Hr). }
  destruct (Hint id (proj2 (elem_of_cons _ _ _) (or_introl eq_refl)) Hdel) as [old Hold].
  unfold created_before in Hold.
  unfold bind at 1, lift.
  destruct (py_int _) as [created_at|] eqn:Hint_id; [|done].
  injection Hold as Hold.
  destruct (cutoff <=? created_at * 1000) eqn:Hage.
  { apply Hskip. unfold expired, created_before. rewrite Hint_id, Hage.
    by rewrite andb_false_r. }
  assert (Hyes : expired cutoff (store w) id = true).
  { unfold expired, created_before. rewrite Hdel, Hint_id, Hage.
    by rewrite bool_decide_eq_true_2. }
  destruct (cleanup_facts.remove_job_and_file_run id
              (redis.hash_at (store w) ("job:" +:+ id)) errs w)
    as (errs1 & w1 & Hrun1 & Hh1 & Hl1 & Hf1 & Hd1 & Hlk1 & Hc1 & Hcl1).
  unfold bind at 1. rewrite Hrun1.
  destruct (IH (n + 1) errs1 w1)
    as (n' & errs' & w' & Hrun & Hh & Hl & Hf & Hd & Hlk & Hc & Hcl).
  { intros x Hx. rewrite (cleanup_facts.deletable_after_delete _ _ _ _ Hh1).
    case_bool_decide as Hxid; [done|].
    rewrite (created_before_after_delete _ _ _ _ _ Hh1 Hxid).
    apply Hint. by apply elem_of_cons; right. }
  exists n', errs', w'. split; [done|].
  split; [|split; [|repeat split; try congruence; set_solver]].
  - intros x. rewrite Hh, (expired_after_delete _ _ _ _ _ Hh1),
      (cleanup_facts.hash_after_delete _ _ _ _ Hh1).
    destruct (decide (x = id)) as [->|Hx].
    + rewrite (bool_decide_eq_true_2 (id = id)) by done.
      rewrite andb_false_r, Hyes.
      by rewrite bool_decide_eq_true_2 by (apply elem_of_cons; by left).
    + rewrite (bool_decide_eq_false_2 (x = id)) by done.
      by rewrite (cleanup_facts.elem_cons_ne _ _ _ Hx).
  - rewrite Hl, Hl1, list_filter_filter. apply list_filter_iff. intros x.
    rewrite (expired_after_delete _ _ _ _ _ Hh1), elem_of_cons.
    destruct (decide (x = id)) as [->|Hx].
    + rewrite (bool_decide_eq_true_2 (id = id)) by done. split.
      * by intros [_ ?].
      * intros H. destruct H. split; [by left|done].
    + rewrite (bool_decide_eq_false_2 (x = id)) by done. split.
      * intros [H _] [[?|?] ?]; [done|]. by apply H.
      * intros H. split; [|done]. intros [? ?]. apply H. split; [by right|done].
Qed.

End age_facts.

(** X28. What [cleanup_old_jobs] removes when the created_at of every
    record it looks at is the text of an int (as for the jobs that
    [create_job] stamps itself). It does not raise. With the cutoff
    [days * 86400] seconds before the time of the call, the record of a
    job of the index is removed when it exists, is not running and was
    created before the cutoff, and is as before in every other case; the
    index loses the entries of the jobs so removed and no other; no file
    appears. So running jobs and jobs created at or after the cutoff keep
    their records. *)
Theorem X28_cleanup_old_jobs_effect (days : Z) (w : world) :
  let ids := redis.list_at (store w) "jobs:all" in
  let cutoff := clock w - days * 86400 * 1000 in
  (∀ x, x ∈ ids → deletable (store w) x = true →
        is_Some (created_before cutoff (store w) x)) →
  let w' := after (cleanup_old_jobs days) w in
  (∃ n errors, outcome (cleanup_old_jobs days) w = Ok (Cleaned n errors))
  ∧ (∀ x, redis.hash_at (store w') ("job:" +:+ x)
          = if bool_decide (x ∈ ids) && expired cutoff (store w) x then ∅
            else redis.hash_at (store w) ("job:" +:+ x))
  ∧ redis.list_at (store w') "jobs:all"
      = filter (λ x, ¬ (x ∈ ids ∧ expired cutoff (store w) x = true)) ids
  ∧ files (disk w') ⊆ files (disk w)
  ∧ (∀ x, redis.hash_at (store w) ("job:" +:+ x) !! "status" = Some "running"
          ∨ created_before cutoff (store w) x = Some false →
       redis.hash_at (store w') ("job:" +:+ x) = redis.hash_at (store w) ("job:" +:+ x)).
Proof.
  intros ids cutoff Hint w'.
  destruct (age_facts.cleanup_old_jobs_loop_run cutoff ids 0 [] w Hint)
    as (n' & errs' & w1 & Hloop & Hh & Hl & Hf & _).
  assert (Hrun : cleanup_old_jobs days w = (Ok (Cleaned n' errs'), w1)).
  { unfold cleanup_old_jobs, time.time, redis.lrange. unfold bind at 1, gets.
    unfold bind at 1. rewrite query_facts.lrange_all. fold ids. fold cutoff.
    unfold bind. by rewrite Hloop. }
  unfold w', outcome, after. rewrite Hrun. cbn [fst snd].
  split; [by eexists _, _|]. split; [done|]. split; [done|]. split; [done|].
  intros x Hx. rewrite Hh.
  assert (Hno : expired cutoff (store w) x = false).
  { unfold expired, deletable. destruct Hx as [Hrunning|Hnew].
    - rewrite (bool_decide_eq_true_2 _ Hrunning). by rewrite !andb_false_r.
    - rewrite Hnew. rewrite (bool_decide_eq_false_2 (Some false = Some true)) by done.
      by rewrite andb_false_r. }
  by rewrite Hno, andb_false_r.
Qed.

Lemma X28_cleanup_old_jobs_effect_witness :
  let w := set_clock (λ _, 8 * 86400 * 1000) (world_with_job "j1" "done" 0) in
  let w' := after (cleanup_old_jobs 7) w in
  (∃ n errors, outcome (cleanup_old_jobs 7) w = Ok (Cleaned n errors))
  ∧ redis.hash_at (store w') ("job:" +:+ "j1") = ∅
  ∧ redis.list_at (store w') "jobs:all" = [].
Proof.
  intros w w'.
  destruct (X28_cleanup_old_jobs_effect 7 w) as (Hout & Hh & Hl & _).
  - intros x Hx _.
    change (x ∈ ["j1"]) in Hx.
    apply elem_of_cons in Hx as [->|Hx]; [|by apply elem_of_nil in Hx].
    vm_compute. eauto.
  - subst w'. split; [exact Hout|]. split.
    + rewrite (Hh "j1"). vm_compute. reflexivity.
    + rewrite Hl. vm_compute. reflexivity.
Defined.
